(** * gsd-bridge: the per-plan state machine, the lease protocol and the
      eligibility scheduler, embedded from the Python sources

    The development follows the layout of the package:
    - [Py]       the fragment of Python's builtins the code relies on
                 (strings, JSON documents, dictionaries, sorting);
    - [Schemas]  [gsd_bridge/schemas.py]: the transition table, [PlanState],
                 [ManifestEntry], legacy migration, (de)serialisation;
    - [State]    [gsd_bridge/state.py]: transitions, task bookkeeping,
                 leases, validated patches, the state files, the lock file;
    - [Adapter]  [gsd_bridge/codex_adapter.py]: the operations run under the
                 state lock, and the scheduler.

    Conventions.  A Python function that mutates its [PlanState] argument and
    may raise is a function to [Outcome]: either it returned, or it raised,
    and in both cases the record is the object as the function left it.  The
    wall clock, [uuid.uuid4()] and [git rev-parse] are read by the caller and
    passed in, one argument per read.  Files are a finite map from paths to
    contents. *)

From Stdlib Require Import ZArith Lia Ascii String.
From stdpp Require Import base option list strings gmap sorting pretty.

Open Scope Z_scope.
Set Warnings "-clear-no-such-hyp".

(* ===================================================================== *)
(** * Python builtins *)
(* ===================================================================== *)

Module Py.

(** ** Exceptions *)

Inductive Error : Type :=
| ValueError (msg : string)
| TypeError (msg : string)
| AttributeError (msg : string)
| FileNotFoundError (msg : string)
| IllTyped (field : string).
(** [IllTyped] is not a Python exception: it marks a JSON document whose
    top-level field does not have the type its dataclass annotation names.
    Python would build the object anyway; such objects are outside the typed
    records below. *)

(** ** Strings ([str] restricted to ASCII) *)

Definition code (c : ascii) : N := N_of_ascii c.

(** [str.isspace] on the ASCII range. *)
Definition is_space (c : ascii) : bool :=
  let n := code c in
  ((9 <=? n) && (n <=? 13) || (28 <=? n) && (n <=? 32))%N.

Definition lower_char (c : ascii) : ascii :=
  let n := code c in
  if ((65 <=? n) && (n <=? 90))%N then ascii_of_N (n + 32) else c.

Fixpoint str_lower (s : string) : string :=
  match s with
  | EmptyString => EmptyString
  | String c s' => String (lower_char c) (str_lower s')
  end.

Fixpoint str_lstrip (s : string) : string :=
  match s with
  | EmptyString => EmptyString
  | String c s' => if is_space c then str_lstrip s' else s
  end.

Definition str_strip (s : string) : string :=
  String.rev (str_lstrip (String.rev (str_lstrip s))).

(** [s.split(sep)] for a one-character separator. *)
Fixpoint str_split (sep : ascii) (s : string) : list string :=
  match s with
  | EmptyString => [EmptyString]
  | String c s' =>
      if Ascii.eqb c sep then EmptyString :: str_split sep s'
      else match str_split sep s' with
           | w :: ws => String c w :: ws
           | [] => [String c EmptyString]
           end
  end.

(** [int(s)] in base ten: surrounding whitespace, one optional sign, digits
    with single underscores between them.  [None] stands for [ValueError]. *)
Fixpoint digits_value (acc : Z) (after_digit : bool) (s : string) : option Z :=
  match s with
  | EmptyString => if after_digit then Some acc else None
  | String c s' =>
      match Ascii.is_nat c with
      | Some d => digits_value (10 * acc + Z.of_nat d) true s'
      | None =>
          if Ascii.eqb c "_" && after_digit then digits_value acc false s'
          else None
      end
  end.

Definition int_of_str (s : string) : option Z :=
  match str_strip s with
  | String "+" r => digits_value 0 false r
  | String "-" r => Z.opp <$> digits_value 0 false r
  | t => digits_value 0 false t
  end.

(** [str(n)] for an [int]. *)
Definition str_of_int (n : Z) : string := pretty n.

(** [f"{n:02d}"]: sign included in the width, zero padding after the sign. *)
Definition format_02d (n : Z) : string :=
  if (0 <=? n) && (n <? 10) then "0" +:+ pretty n else pretty n.

(** [s.rfind(".")], as an offset from the start; [None] stands for -1. *)
Fixpoint rfind_dot (s : string) : option nat :=
  match s with
  | EmptyString => None
  | String c s' =>
      match rfind_dot s' with
      | Some i => Some (S i)
      | None => if Ascii.eqb c "." then Some 0%nat else None
      end
  end.

(** [PurePosixPath(p).name]: the last component once empty and ["."]
    components are dropped, or the empty string when there is none. *)
Definition path_name (p : string) : string :=
  let parts :=
    filter (λ w, w ≠ EmptyString ∧ w ≠ "."%string) (str_split "/" p) in
  default EmptyString (last parts).

(** [PurePosixPath(p).stem]: the name without its last suffix. *)
Definition path_stem (p : string) : string :=
  let name := path_name p in
  match rfind_dot name with
  | Some i =>
      if ((0 <? i) && (i <? String.length name - 1))%nat
      then String.substring 0 i name else name
  | None => name
  end.

(** ** JSON documents

    What [json.loads] returns and [json.dumps] accepts.  Floats do not occur
    in the records of this program and are left out.  An object is the list
    of its members in insertion order, as a Python [dict] keeps them. *)

#[warnings="-register-all"]
Inductive JValue : Type :=
| JNull
| JBool (b : bool)
| JInt (n : Z)
| JStr (s : string)
| JList (items : list JValue)
| JObj (members : list (string * JValue)).

Abbreviation JDict := (list (string * JValue)).

(** Python truthiness, [bool(v)]. *)
Definition truthy (v : JValue) : bool :=
  match v with
  | JNull => false
  | JBool b => b
  | JInt n => negb (n =? 0)
  | JStr s => negb (String.eqb s EmptyString)
  | JList l => negb (bool_decide (l = []))
  | JObj d => match d with [] => false | _ => true end
  end.

(** [v == s] for a string [s]: only an equal string compares equal. *)
Definition eq_str (v : JValue) (s : string) : bool :=
  match v with JStr x => String.eqb x s | _ => false end.

Definition truthy_opt (o : option JValue) : bool :=
  match o with Some v => truthy v | None => false end.

(** ** Dictionaries with string keys, in insertion order *)

Section dict.
Context {V : Type}.
Implicit Types d : list (string * V).

(** [d.get(k)] *)
Fixpoint dict_get (k : string) d : option V :=
  match d with
  | [] => None
  | (k', v) :: d' => if String.eqb k k' then Some v else dict_get k d'
  end.

(** [d[k] = v] *)
Fixpoint dict_set (k : string) (v : V) d : list (string * V) :=
  match d with
  | [] => [(k, v)]
  | (k', v') :: d' =>
      if String.eqb k k' then (k, v) :: d' else (k', v') :: dict_set k v d'
  end.

(** [k in d] *)
Definition dict_mem (k : string) d : bool :=
  match dict_get k d with Some _ => true | None => false end.

(** [d.setdefault(k, v)] *)
Definition dict_setdefault (k : string) (v : V) d : list (string * V) :=
  if dict_mem k d then d else d ++ [(k, v)].
End dict.

(** [sorted(l)] / [l.sort()] on integers: the ascending permutation. *)
Definition py_sorted (l : list Z) : list Z := merge_sort Z.le l.

(** [sorted(set(l))]: ascending, without repetitions. *)
Definition py_sorted_set (l : list Z) : list Z := merge_sort Z.le (remove_dups l).

(** [len(set(l))] *)
Definition py_len_set (l : list Z) : Z := Z.of_nat (length (remove_dups l)).

(** [repr] of a list of plain strings, as an f-string prints it. *)
Definition repr_str (s : string) : string := "'" +:+ s +:+ "'".

Fixpoint str_join (sep : string) (l : list string) : string :=
  match l with
  | [] => EmptyString
  | [x] => x
  | x :: l' => x +:+ sep +:+ str_join sep l'
  end.

Definition repr_str_list (l : list string) : string :=
  "[" +:+ str_join ", " (repr_str <$> l) +:+ "]".

End Py.
Export Py.

(** Functions that may raise return [Error + A]; [x ← r; k] sequences them
    and stops at the first exception. *)
Abbreviation Result := (sum Error).

#[global] Instance result_ret : MRet Result := λ A a, inr a.
#[global] Instance result_bind : MBind Result :=
  λ A B f r, match r with inl e => inl e | inr a => f a end.

(* ===================================================================== *)
(** * [gsd_bridge/schemas.py] *)
(* ===================================================================== *)

Module Schemas.

Definition VALID_STATUSES : gset string :=
  {[ "pending"; "executing"; "blocked"; "verified"; "failed" ]}.

Definition VALID_TRANSITIONS : gmap string (gset string) :=
  {[ "pending" := {[ "executing" ]};
     "executing" := {[ "verified"; "failed"; "blocked" ]};
     "blocked" := {[ "executing" ]};
     "failed" := {[ "executing" ]} ]}.

Definition CURRENT_SCHEMA_VERSION : string := "3.1".
Definition DEFAULT_LOCK_LEASE_SECONDS : Z := 3600.
Definition VALID_SEVERITIES : gset string :=
  {[ "critical"; "high"; "medium"; "low" ]}.

(** ** [PlanState], the per-plan state artifact

    Top-level fields carry the type of their annotation.  The nested
    dictionaries ([verification], [executor], [lock], [cursor], the recovery
    notes) stay JSON documents: the code itself inspects them with [get] and
    [isinstance]. *)

Record PlanState : Type := {
  plan_id : string;
  source_plan_path : string;
  source_plan_hash : string;
  status : string;  (* pending | executing | blocked | verified | failed *)
  completed_tasks : list Z;
  total_tasks : Z;
  last_run_at : option string;
  verification : option JDict;  (* {tier: [results]} *)
  executor : option JDict;  (* {tool, model, run_id} *)
  blocked_reason : option string;
  blocked_severity : option string;  (* critical | high | medium | low *)
  failure_reason : option string;
  lock : option JDict;  (* the lease: {run_id, acquired_at, expires_at} *)
  recovery_notes : list JDict;
  cursor : option JDict;  (* {task, step} *)
  verify_quick : option string;
  last_error_output_path : option string;
  git_sha_before : option string;
  git_sha_after : option string;
  touched_paths : list string;
  schema_version : string;
  created_at : string;
  updated_at : string
}.

(** Attribute assignment, [state.f = v], one setter per assigned field. *)
Definition set_status (v : string) (s : PlanState) : PlanState :=
  {| plan_id := plan_id s; source_plan_path := source_plan_path s;
     source_plan_hash := source_plan_hash s; status := v;
     completed_tasks := completed_tasks s; total_tasks := total_tasks s;
     last_run_at := last_run_at s; verification := verification s;
     executor := executor s; blocked_reason := blocked_reason s;
     blocked_severity := blocked_severity s;
     failure_reason := failure_reason s; lock := lock s;
     recovery_notes := recovery_notes s; cursor := cursor s;
     verify_quick := verify_quick s;
     last_error_output_path := last_error_output_path s;
     git_sha_before := git_sha_before s; git_sha_after := git_sha_after s;
     touched_paths := touched_paths s; schema_version := schema_version s;
     created_at := created_at s; updated_at := updated_at s |}.
Definition set_completed_tasks (v : list Z) (s : PlanState) : PlanState :=
  {| plan_id := plan_id s; source_plan_path := source_plan_path s;
     source_plan_hash := source_plan_hash s; status := status s;
     completed_tasks := v; total_tasks := total_tasks s;
     last_run_at := last_run_at s; verification := verification s;
     executor := executor s; blocked_reason := blocked_reason s;
     blocked_severity := blocked_severity s;
     failure_reason := failure_reason s; lock := lock s;
     recovery_notes := recovery_notes s; cursor := cursor s;
     verify_quick := verify_quick s;
     last_error_output_path := last_error_output_path s;
     git_sha_before := git_sha_before s; git_sha_after := git_sha_after s;
     touched_paths := touched_paths s; schema_version := schema_version s;
     created_at := created_at s; updated_at := updated_at s |}.
Definition set_last_run_at (v : option string) (s : PlanState) : PlanState :=
  {| plan_id := plan_id s; source_plan_path := source_plan_path s;
     source_plan_hash := source_plan_hash s; status := status s;
     completed_tasks := completed_tasks s; total_tasks := total_tasks s;
     last_run_at := v; verification := verification s;
     executor := executor s; blocked_reason := blocked_reason s;
     blocked_severity := blocked_severity s;
     failure_reason := failure_reason s; lock := lock s;
     recovery_notes := recovery_notes s; cursor := cursor s;
     verify_quick := verify_quick s;
     last_error_output_path := last_error_output_path s;
     git_sha_before := git_sha_before s; git_sha_after := git_sha_after s;
     touched_paths := touched_paths s; schema_version := schema_version s;
     created_at := created_at s; updated_at := updated_at s |}.
Definition set_verification (v : option JDict) (s : PlanState) : PlanState :=
  {| plan_id := plan_id s; source_plan_path := source_plan_path s;
     source_plan_hash := source_plan_hash s; status := status s;
     completed_tasks := completed_tasks s; total_tasks := total_tasks s;
     last_run_at := last_run_at s; verification := v; executor := executor s;
     blocked_reason := blocked_reason s;
     blocked_severity := blocked_severity s;
     failure_reason := failure_reason s; lock := lock s;
     recovery_notes := recovery_notes s; cursor := cursor s;
     verify_quick := verify_quick s;
     last_error_output_path := last_error_output_path s;
     git_sha_before := git_sha_before s; git_sha_after := git_sha_after s;
     touched_paths := touched_paths s; schema_version := schema_version s;
     created_at := created_at s; updated_at := updated_at s |}.
Definition set_executor (v : option JDict) (s : PlanState) : PlanState :=
  {| plan_id := plan_id s; source_plan_path := source_plan_path s;
     source_plan_hash := source_plan_hash s; status := status s;
     completed_tasks := completed_tasks s; total_tasks := total_tasks s;
     last_run_at := last_run_at s; verification := verification s;
     executor := v; blocked_reason := blocked_reason s;
     blocked_severity := blocked_severity s;
     failure_reason := failure_reason s; lock := lock s;
     recovery_notes := recovery_notes s; cursor := cursor s;
     verify_quick := verify_quick s;
     last_error_output_path := last_error_output_path s;
     git_sha_before := git_sha_before s; git_sha_after := git_sha_after s;
     touched_paths := touched_paths s; schema_version := schema_version s;
     created_at := created_at s; updated_at := updated_at s |}.
Definition set_blocked_reason (v : option string) (s : PlanState) : PlanState :=
  {| plan_id := plan_id s; source_plan_path := source_plan_path s;
     source_plan_hash := source_plan_hash s; status := status s;
     completed_tasks := completed_tasks s; total_tasks := total_tasks s;
     last_run_at := last_run_at s; verification := verification s;
     executor := executor s; blocked_reason := v;
     blocked_severity := blocked_severity s;
     failure_reason := failure_reason s; lock := lock s;
     recovery_notes := recovery_notes s; cursor := cursor s;
     verify_quick := verify_quick s;
     last_error_output_path := last_error_output_path s;
     git_sha_before := git_sha_before s; git_sha_after := git_sha_after s;
     touched_paths := touched_paths s; schema_version := schema_version s;
     created_at := created_at s; updated_at := updated_at s |}.
Definition set_blocked_severity (v : option string) (s : PlanState) : PlanState :=
  {| plan_id := plan_id s; source_plan_path := source_plan_path s;
     source_plan_hash := source_plan_hash s; status := status s;
     completed_tasks := completed_tasks s; total_tasks := total_tasks s;
     last_run_at := last_run_at s; verification := verification s;
     executor := executor s; blocked_reason := blocked_reason s;
     blocked_severity := v; failure_reason := failure_reason s;
     lock := lock s; recovery_notes := recovery_notes s; cursor := cursor s;
     verify_quick := verify_quick s;
     last_error_output_path := last_error_output_path s;
     git_sha_before := git_sha_before s; git_sha_after := git_sha_after s;
     touched_paths := touched_paths s; schema_version := schema_version s;
     created_at := created_at s; updated_at := updated_at s |}.
Definition set_failure_reason (v : option string) (s : PlanState) : PlanState :=
  {| plan_id := plan_id s; source_plan_path := source_plan_path s;
     source_plan_hash := source_plan_hash s; status := status s;
     completed_tasks := completed_tasks s; total_tasks := total_tasks s;
     last_run_at := last_run_at s; verification := verification s;
     executor := executor s; blocked_reason := blocked_reason s;
     blocked_severity := blocked_severity s; failure_reason := v;
     lock := lock s; recovery_notes := recovery_notes s; cursor := cursor s;
     verify_quick := verify_quick s;
     last_error_output_path := last_error_output_path s;
     git_sha_before := git_sha_before s; git_sha_after := git_sha_after s;
     touched_paths := touched_paths s; schema_version := schema_version s;
     created_at := created_at s; updated_at := updated_at s |}.
Definition set_lock (v : option JDict) (s : PlanState) : PlanState :=
  {| plan_id := plan_id s; source_plan_path := source_plan_path s;
     source_plan_hash := source_plan_hash s; status := status s;
     completed_tasks := completed_tasks s; total_tasks := total_tasks s;
     last_run_at := last_run_at s; verification := verification s;
     executor := executor s; blocked_reason := blocked_reason s;
     blocked_severity := blocked_severity s;
     failure_reason := failure_reason s; lock := v;
     recovery_notes := recovery_notes s; cursor := cursor s;
     verify_quick := verify_quick s;
     last_error_output_path := last_error_output_path s;
     git_sha_before := git_sha_before s; git_sha_after := git_sha_after s;
     touched_paths := touched_paths s; schema_version := schema_version s;
     created_at := created_at s; updated_at := updated_at s |}.
Definition set_recovery_notes (v : list JDict) (s : PlanState) : PlanState :=
  {| plan_id := plan_id s; source_plan_path := source_plan_path s;
     source_plan_hash := source_plan_hash s; status := status s;
     completed_tasks := completed_tasks s; total_tasks := total_tasks s;
     last_run_at := last_run_at s; verification := verification s;
     executor := executor s; blocked_reason := blocked_reason s;
     blocked_severity := blocked_severity s;
     failure_reason := failure_reason s; lock := lock s; recovery_notes := v;
     cursor := cursor s; verify_quick := verify_quick s;
     last_error_output_path := last_error_output_path s;
     git_sha_before := git_sha_before s; git_sha_after := git_sha_after s;
     touched_paths := touched_paths s; schema_version := schema_version s;
     created_at := created_at s; updated_at := updated_at s |}.
Definition set_cursor (v : option JDict) (s : PlanState) : PlanState :=
  {| plan_id := plan_id s; source_plan_path := source_plan_path s;
     source_plan_hash := source_plan_hash s; status := status s;
     completed_tasks := completed_tasks s; total_tasks := total_tasks s;
     last_run_at := last_run_at s; verification := verification s;
     executor := executor s; blocked_reason := blocked_reason s;
     blocked_severity := blocked_severity s;
     failure_reason := failure_reason s; lock := lock s;
     recovery_notes := recovery_notes s; cursor := v;
     verify_quick := verify_quick s;
     last_error_output_path := last_error_output_path s;
     git_sha_before := git_sha_before s; git_sha_after := git_sha_after s;
     touched_paths := touched_paths s; schema_version := schema_version s;
     created_at := created_at s; updated_at := updated_at s |}.
Definition set_verify_quick (v : option string) (s : PlanState) : PlanState :=
  {| plan_id := plan_id s; source_plan_path := source_plan_path s;
     source_plan_hash := source_plan_hash s; status := status s;
     completed_tasks := completed_tasks s; total_tasks := total_tasks s;
     last_run_at := last_run_at s; verification := verification s;
     executor := executor s; blocked_reason := blocked_reason s;
     blocked_severity := blocked_severity s;
     failure_reason := failure_reason s; lock := lock s;
     recovery_notes := recovery_notes s; cursor := cursor s;
     verify_quick := v; last_error_output_path := last_error_output_path s;
     git_sha_before := git_sha_before s; git_sha_after := git_sha_after s;
     touched_paths := touched_paths s; schema_version := schema_version s;
     created_at := created_at s; updated_at := updated_at s |}.
Definition set_last_error_output_path (v : option string) (s : PlanState) : PlanState :=
  {| plan_id := plan_id s; source_plan_path := source_plan_path s;
     source_plan_hash := source_plan_hash s; status := status s;
     completed_tasks := completed_tasks s; total_tasks := total_tasks s;
     last_run_at := last_run_at s; verification := verification s;
     executor := executor s; blocked_reason := blocked_reason s;
     blocked_severity := blocked_severity s;
     failure_reason := failure_reason s; lock := lock s;
     recovery_notes := recovery_notes s; cursor := cursor s;
     verify_quick := verify_quick s; last_error_output_path := v;
     git_sha_before := git_sha_before s; git_sha_after := git_sha_after s;
     touched_paths := touched_paths s; schema_version := schema_version s;
     created_at := created_at s; updated_at := updated_at s |}.
Definition set_git_sha_before (v : option string) (s : PlanState) : PlanState :=
  {| plan_id := plan_id s; source_plan_path := source_plan_path s;
     source_plan_hash := source_plan_hash s; status := status s;
     completed_tasks := completed_tasks s; total_tasks := total_tasks s;
     last_run_at := last_run_at s; verification := verification s;
     executor := executor s; blocked_reason := blocked_reason s;
     blocked_severity := blocked_severity s;
     failure_reason := failure_reason s; lock := lock s;
     recovery_notes := recovery_notes s; cursor := cursor s;
     verify_quick := verify_quick s;
     last_error_output_path := last_error_output_path s; git_sha_before := v;
     git_sha_after := git_sha_after s; touched_paths := touched_paths s;
     schema_version := schema_version s; created_at := created_at s;
     updated_at := updated_at s |}.
Definition set_git_sha_after (v : option string) (s : PlanState) : PlanState :=
  {| plan_id := plan_id s; source_plan_path := source_plan_path s;
     source_plan_hash := source_plan_hash s; status := status s;
     completed_tasks := completed_tasks s; total_tasks := total_tasks s;
     last_run_at := last_run_at s; verification := verification s;
     executor := executor s; blocked_reason := blocked_reason s;
     blocked_severity := blocked_severity s;
     failure_reason := failure_reason s; lock := lock s;
     recovery_notes := recovery_notes s; cursor := cursor s;
     verify_quick := verify_quick s;
     last_error_output_path := last_error_output_path s;
     git_sha_before := git_sha_before s; git_sha_after := v;
     touched_paths := touched_paths s; schema_version := schema_version s;
     created_at := created_at s; updated_at := updated_at s |}.
Definition set_touched_paths (v : list string) (s : PlanState) : PlanState :=
  {| plan_id := plan_id s; source_plan_path := source_plan_path s;
     source_plan_hash := source_plan_hash s; status := status s;
     completed_tasks := completed_tasks s; total_tasks := total_tasks s;
     last_run_at := last_run_at s; verification := verification s;
     executor := executor s; blocked_reason := blocked_reason s;
     blocked_severity := blocked_severity s;
     failure_reason := failure_reason s; lock := lock s;
     recovery_notes := recovery_notes s; cursor := cursor s;
     verify_quick := verify_quick s;
     last_error_output_path := last_error_output_path s;
     git_sha_before := git_sha_before s; git_sha_after := git_sha_after s;
     touched_paths := v; schema_version := schema_version s;
     created_at := created_at s; updated_at := updated_at s |}.
Definition set_created_at (v : string) (s : PlanState) : PlanState :=
  {| plan_id := plan_id s; source_plan_path := source_plan_path s;
     source_plan_hash := source_plan_hash s; status := status s;
     completed_tasks := completed_tasks s; total_tasks := total_tasks s;
     last_run_at := last_run_at s; verification := verification s;
     executor := executor s; blocked_reason := blocked_reason s;
     blocked_severity := blocked_severity s;
     failure_reason := failure_reason s; lock := lock s;
     recovery_notes := recovery_notes s; cursor := cursor s;
     verify_quick := verify_quick s;
     last_error_output_path := last_error_output_path s;
     git_sha_before := git_sha_before s; git_sha_after := git_sha_after s;
     touched_paths := touched_paths s; schema_version := schema_version s;
     created_at := v; updated_at := updated_at s |}.
Definition set_updated_at (v : string) (s : PlanState) : PlanState :=
  {| plan_id := plan_id s; source_plan_path := source_plan_path s;
     source_plan_hash := source_plan_hash s; status := status s;
     completed_tasks := completed_tasks s; total_tasks := total_tasks s;
     last_run_at := last_run_at s; verification := verification s;
     executor := executor s; blocked_reason := blocked_reason s;
     blocked_severity := blocked_severity s;
     failure_reason := failure_reason s; lock := lock s;
     recovery_notes := recovery_notes s; cursor := cursor s;
     verify_quick := verify_quick s;
     last_error_output_path := last_error_output_path s;
     git_sha_before := git_sha_before s; git_sha_after := git_sha_after s;
     touched_paths := touched_paths s; schema_version := schema_version s;
     created_at := created_at s; updated_at := v |}.

(** [__post_init__]: empty timestamps are filled with the current time. *)
Definition post_init (now : string) (s : PlanState) : PlanState :=
  let s := if String.eqb (created_at s) "" then set_created_at now s else s in
  if String.eqb (updated_at s) "" then set_updated_at now s else s.

(** ** Serialisation: [to_dict] ([dataclasses.asdict]) *)

Definition enc_opt_str (o : option string) : JValue :=
  match o with Some s => JStr s | None => JNull end.
Definition enc_opt_dict (o : option JDict) : JValue :=
  match o with Some d => JObj d | None => JNull end.

Definition to_dict (s : PlanState) : JDict :=
  [ ("plan_id", JStr (plan_id s));
    ("source_plan_path", JStr (source_plan_path s));
    ("source_plan_hash", JStr (source_plan_hash s));
    ("status", JStr (status s));
    ("completed_tasks", JList (JInt <$> completed_tasks s));
    ("total_tasks", JInt (total_tasks s));
    ("last_run_at", enc_opt_str (last_run_at s));
    ("verification", enc_opt_dict (verification s));
    ("executor", enc_opt_dict (executor s));
    ("blocked_reason", enc_opt_str (blocked_reason s));
    ("blocked_severity", enc_opt_str (blocked_severity s));
    ("failure_reason", enc_opt_str (failure_reason s));
    ("lock", enc_opt_dict (lock s));
    ("recovery_notes", JList (JObj <$> recovery_notes s));
    ("cursor", enc_opt_dict (cursor s));
    ("verify_quick", enc_opt_str (verify_quick s));
    ("last_error_output_path", enc_opt_str (last_error_output_path s));
    ("git_sha_before", enc_opt_str (git_sha_before s));
    ("git_sha_after", enc_opt_str (git_sha_after s));
    ("touched_paths", JList (JStr <$> touched_paths s));
    ("schema_version", JStr (schema_version s));
    ("created_at", JStr (created_at s));
    ("updated_at", JStr (updated_at s)) ].

(** The names in [PlanState.__dataclass_fields__]. *)
Definition dataclass_fields : list string :=
  [ "plan_id"; "source_plan_path"; "source_plan_hash"; "status";
    "completed_tasks"; "total_tasks"; "last_run_at"; "verification";
    "executor"; "blocked_reason"; "blocked_severity"; "failure_reason";
    "lock"; "recovery_notes"; "cursor"; "verify_quick";
    "last_error_output_path"; "git_sha_before"; "git_sha_after";
    "touched_paths"; "schema_version"; "created_at"; "updated_at" ].

(** ** Schema versions *)

(** [_parse_version]: the dotted string as a tuple of integers, and [(0,)]
    when the value is not a string or a component is not an integer. *)
Definition _parse_version (v : JValue) : list Z :=
  match v with
  | JStr s => default [0] (mapM int_of_str (str_split "." s))
  | _ => [0]
  end.

(** Tuple comparison [a < b]. *)
Fixpoint tuple_lt (a b : list Z) : bool :=
  match a, b with
  | _, [] => false
  | [], _ :: _ => true
  | x :: a', y :: b' => (x <? y) || ((x =? y) && tuple_lt a' b')
  end.

Definition outdated (v : JValue) : bool :=
  tuple_lt (_parse_version v) (_parse_version (JStr CURRENT_SCHEMA_VERSION)).

(** ** [migrate_legacy_plan_state] *)

(** v1 -> v2: every verification tier becomes a list of results. *)
Definition normalize_tier (results : JValue) : JValue :=
  match results with
  | JList l => JList l
  | JObj r => JList [JObj r]
  | _ => JList []
  end.

(** v2 -> v3: results without a [ran_at] get an empty one. *)
Definition backfill_ran_at (result : JValue) : JValue :=
  match result with
  | JObj r => if dict_mem "ran_at" r then JObj r
              else JObj (dict_set "ran_at" (JStr "") r)
  | other => other
  end.

Definition backfill_tier (results : JValue) : JValue :=
  match results with
  | JList l => JList (backfill_ran_at <$> l)
  | other => other
  end.

(** v1 -> v2: the verification tiers. *)
Definition normalize_verification (normalized : JDict) : JDict :=
  match dict_get "verification" normalized with
  | Some (JObj verification) =>
      dict_set "verification"
        (JObj (prod_map id normalize_tier <$> verification)) normalized
  | _ => normalized
  end.

(** v1 -> v2: a failed state explains itself in [failure_reason]. *)
Definition move_blocked_reason (normalized : JDict) : JDict :=
  if eq_str (default JNull (dict_get "status" normalized)) "failed" then
    let blocked_reason := dict_get "blocked_reason" normalized in
    let failure_reason := dict_get "failure_reason" normalized in
    if negb (truthy_opt failure_reason) && truthy_opt blocked_reason
    then dict_set "blocked_reason" JNull
           (dict_set "failure_reason" (default JNull blocked_reason)
              normalized)
    else normalized
  else normalized.

(** v2 -> v3: the fields version 3 added, for a payload older than the
    current version. *)
Definition upgrade_to_current (normalized : JDict) : JDict :=
  let version := default (JStr "2.0") (dict_get "schema_version" normalized) in
  if outdated version then
    let normalized :=
      foldl (λ d kv, dict_setdefault kv.1 kv.2 d) normalized
        [ ("schema_version", JStr CURRENT_SCHEMA_VERSION);
          ("lock", JNull); ("recovery_notes", JList []); ("cursor", JNull);
          ("blocked_severity", JNull); ("verify_quick", JNull);
          ("last_error_output_path", JNull); ("git_sha_before", JNull);
          ("git_sha_after", JNull); ("touched_paths", JList []) ] in
    let normalized :=
      match dict_get "verification" normalized with
      | Some (JObj verification) =>
          dict_set "verification"
            (JObj (prod_map id backfill_tier <$> verification)) normalized
      | _ => normalized
      end in
    dict_set "schema_version" (JStr CURRENT_SCHEMA_VERSION) normalized
  else normalized.

Definition migrate_legacy_plan_state (payload : JDict) : JDict :=
  upgrade_to_current (move_blocked_reason (normalize_verification payload)).

(** [validate_schema_version]: the warning text for an outdated file. *)
Definition validate_schema_version (payload : JDict) : option string :=
  let version := default (JStr "2.0") (dict_get "schema_version" payload) in
  if outdated version then
    Some ("State file at schema v"
          +:+ match version with JStr s => s | _ => "?" end
          +:+ ", current is v" +:+ CURRENT_SCHEMA_VERSION
          +:+ ". Run 'gsd-bridge migrate' to update.")
  else None.

(** ** Deserialisation: [from_dict] *)

Definition as_str (v : JValue) : option string :=
  match v with JStr s => Some s | _ => None end.
Definition as_int (v : JValue) : option Z :=
  match v with JInt n => Some n | _ => None end.
Definition as_opt_str (v : JValue) : option (option string) :=
  match v with JNull => Some None | JStr s => Some (Some s) | _ => None end.
Definition as_opt_dict (v : JValue) : option (option JDict) :=
  match v with JNull => Some None | JObj d => Some (Some d) | _ => None end.
Definition as_dict (v : JValue) : option JDict :=
  match v with JObj d => Some d | _ => None end.
Definition as_list {A} (item : JValue → option A) (v : JValue)
    : option (list A) :=
  match v with JList l => mapM item l | _ => None end.

(** One keyword argument of the constructor call: a missing argument takes the
    dataclass default, or is a [TypeError] when the field has none. *)
Definition field {A} (decode : JValue → option A) (name : string)
    (dflt : option A) (payload : JDict) : Result A :=
  match dict_get name payload with
  | Some v =>
      match decode v with Some a => inr a | None => inl (IllTyped name) end
  | None =>
      match dflt with
      | Some a => inr a
      | None => inl (TypeError ("missing required argument: " +:+ name))
      end
  end.

(** The constructor call on the keyword arguments in [payload], before
    [__post_init__]. *)
Definition construct (payload : JDict) : Result PlanState :=
  a1 ← field as_str "plan_id" None payload;
  a2 ← field as_str "source_plan_path" None payload;
  a3 ← field as_str "source_plan_hash" None payload;
  a4 ← field as_str "status" None payload;
  a5 ← field (as_list as_int) "completed_tasks" (Some []) payload;
  a6 ← field as_int "total_tasks" (Some 0) payload;
  a7 ← field as_opt_str "last_run_at" (Some None) payload;
  a8 ← field as_opt_dict "verification" (Some None) payload;
  a9 ← field as_opt_dict "executor" (Some None) payload;
  a10 ← field as_opt_str "blocked_reason" (Some None) payload;
  a11 ← field as_opt_str "blocked_severity" (Some None) payload;
  a12 ← field as_opt_str "failure_reason" (Some None) payload;
  a13 ← field as_opt_dict "lock" (Some None) payload;
  a14 ← field (as_list as_dict) "recovery_notes" (Some []) payload;
  a15 ← field as_opt_dict "cursor" (Some None) payload;
  a16 ← field as_opt_str "verify_quick" (Some None) payload;
  a17 ← field as_opt_str "last_error_output_path" (Some None) payload;
  a18 ← field as_opt_str "git_sha_before" (Some None) payload;
  a19 ← field as_opt_str "git_sha_after" (Some None) payload;
  a20 ← field (as_list as_str) "touched_paths" (Some []) payload;
  a21 ← field as_str "schema_version" (Some CURRENT_SCHEMA_VERSION) payload;
  a22 ← field as_str "created_at" (Some "") payload;
  a23 ← field as_str "updated_at" (Some "") payload;
  mret
    {| plan_id := a1; source_plan_path := a2; source_plan_hash := a3;
       status := a4; completed_tasks := a5; total_tasks := a6;
       last_run_at := a7; verification := a8; executor := a9;
       blocked_reason := a10; blocked_severity := a11;
       failure_reason := a12; lock := a13; recovery_notes := a14;
       cursor := a15; verify_quick := a16; last_error_output_path := a17;
       git_sha_before := a18; git_sha_after := a19; touched_paths := a20;
       schema_version := a21; created_at := a22; updated_at := a23 |}.

(** [from_dict]: keep the known fields, migrate, construct. *)
Definition from_dict (now : string) (d : JDict) : Result PlanState :=
  let payload := filter (λ kv, kv.1 ∈ dataclass_fields) d in
  state ← construct (migrate_legacy_plan_state payload);
  mret (post_init now state).

(** ** [ManifestEntry] and [Manifest] *)

Module Entry.
Record ManifestEntry : Type := {
  plan_id : string;
  wave : Z;
  phase : string;
  plan_number : Z;
  priority : Z;            (* wave * 1000 + phase_num * 10 + plan_num *)
  plan_path : string;
  state_path : string;
  source_path : string;
  source_hash : string;
  depends_on : list string;
  batch_size : Z;
  batching : option JValue;
  status : string;         (* mirrored from the state file *)
  execution_contract : option JDict
}.
End Entry.
Abbreviation ManifestEntry := Entry.ManifestEntry.

Record Manifest : Type := {
  version : string;
  generated_at : string;
  project_root : string;
  plans : list ManifestEntry;
  summary : list (string * Z)
}.

(** [Manifest.compute_summary]: the counts it stores in [summary] and
    returns.  [counts[k] += 1] is only reached for a key that is there. *)
Definition count_plan (counts : gmap string Z) (p : ManifestEntry)
    : gmap string Z :=
  if bool_decide (is_Some (counts !! Entry.status p))
  then alter (λ n, n + 1) (Entry.status p) counts
  else alter (λ n, n + 1) "no-state" counts.

Definition compute_summary (m : Manifest) : gmap string Z :=
  let counts : gmap string Z := gset_to_gmap 0 VALID_STATUSES in
  let counts := <[ "no-state" := 0 ]> counts in
  let counts := <[ "total" := Z.of_nat (length (plans m)) ]> counts in
  foldl count_plan counts (plans m).

End Schemas.
Export Schemas.

(* ===================================================================== *)
(** * [gsd_bridge/state.py] *)
(* ===================================================================== *)

Module State.

(** The result of a call that mutates its [PlanState] argument: the object
    as the call left it, and whether the call returned or raised. *)
Inductive Outcome : Type :=
| Returned (s : PlanState)
| Raised (e : Error) (s : PlanState).

Definition and_then (o : Outcome) (k : PlanState → Outcome) : Outcome :=
  match o with
  | Returned s => k s
  | Raised e s => Raised e s
  end.

Infix ">>>" := and_then (at level 61, left associativity).

Definition object (o : Outcome) : PlanState :=
  match o with Returned s => s | Raised _ s => s end.

Definition result (o : Outcome) : Result PlanState :=
  match o with Returned s => inr s | Raised e _ => inl e end.

Definition PATCHABLE_FIELDS : list string :=
  [ "status"; "completed_tasks"; "last_run_at"; "verification"; "executor";
    "blocked_reason"; "blocked_severity"; "failure_reason"; "lock";
    "recovery_notes"; "cursor"; "verify_quick"; "last_error_output_path";
    "git_sha_before"; "git_sha_after"; "touched_paths" ].

(** [init_state]: a new [PlanState] in pending status. *)
Definition init_state (now : string) (plan_id source_path source_hash : string)
    (total_tasks : Z) : PlanState :=
  post_init now
    {| plan_id := plan_id; source_plan_path := source_path;
       source_plan_hash := source_hash; status := "pending";
       completed_tasks := []; total_tasks := total_tasks;
       last_run_at := None; verification := None; executor := None;
       blocked_reason := None; blocked_severity := None;
       failure_reason := None; lock := None; recovery_notes := [];
       cursor := None; verify_quick := None; last_error_output_path := None;
       git_sha_before := None; git_sha_after := None; touched_paths := [];
       schema_version := CURRENT_SCHEMA_VERSION; created_at := "";
       updated_at := "" |}.

(** ** [transition] *)

(** The keyword arguments the package passes to [transition]. *)
Inductive Kwarg : Type :=
| kw_executor (v : option JDict)
| kw_blocked_reason (v : option string)
| kw_blocked_severity (v : option string)
| kw_failure_reason (v : option string).

Definition setattr (kw : Kwarg) (s : PlanState) : PlanState :=
  match kw with
  | kw_executor v => set_executor v s
  | kw_blocked_reason v => set_blocked_reason v s
  | kw_blocked_severity v => set_blocked_severity v s
  | kw_failure_reason v => set_failure_reason v s
  end.

(** [sorted(allowed)] for a set of strings. *)
Definition sorted_strings (xs : gset string) : list string :=
  merge_sort String.le (elements xs).

Definition invalid_transition_message (old new : string)
    (allowed : gset string) : string :=
  "Invalid transition: " +:+ old +:+ " → " +:+ new +:+ ". Allowed: "
  +:+ repr_str_list (sorted_strings allowed).

(** [now_updated] and [now_run] are the two reads of [_now_iso()]. *)
Definition transition (now_updated now_run : string) (new_status : string)
    (kwargs : list Kwarg) (state : PlanState) : Outcome :=
  let allowed := default ∅ (VALID_TRANSITIONS !! status state) in
  if bool_decide (new_status ∉ allowed) then
    Raised (ValueError
              (invalid_transition_message (status state) new_status allowed))
           state
  else
    let state := set_status new_status state in
    let state := set_updated_at now_updated state in
    let state :=
      if String.eqb new_status "executing"
      then set_last_run_at (Some now_run) state
      else if bool_decide (new_status ∈ ({[ "verified"; "failed" ]} : gset string))
      then set_lock None state
      else state in
    Returned (foldl (λ st kw, setattr kw st) state kwargs).

(** ** Task bookkeeping *)

Definition cursor_at (task step : Z) : JDict :=
  [ ("task", JInt task); ("step", JInt step) ].

(** [complete_task]: mark a task as completed and advance the cursor. *)
Definition complete_task (now : string) (task_num : Z) (state : PlanState)
    : PlanState :=
  let state :=
    if bool_decide (task_num ∉ completed_tasks state)
    then set_completed_tasks
           (py_sorted (completed_tasks state ++ [task_num])) state
    else state in
  let next_task := task_num + 1 in
  let state :=
    if next_task <=? total_tasks state
    then set_cursor (Some (cursor_at next_task 0)) state
    else set_cursor (Some (cursor_at task_num (-1))) state in
  set_updated_at now state.

(** [advance_step]: move the cursor to a step within the current task. *)
Definition advance_step (now : string) (step : Z) (state : PlanState)
    : PlanState :=
  let state :=
    match cursor state with
    | None => set_cursor (Some (cursor_at 1 step)) state
    | Some c => set_cursor (Some (dict_set "step" (JInt step) c)) state
    end in
  set_updated_at now state.

(** [record_verification]: append one result to a tier. *)
Definition record_verification (now_ran now_updated : string)
    (tier command : string) (exit_code : Z) (log_path : string)
    (state : PlanState) : PlanState :=
  let verification := default [] (verification state) in
  let existing_list :=
    match default (JList []) (dict_get tier verification) with
    | JObj existing => [JObj existing]
    | JList existing => existing
    | _ => []
    end in
  let entry :=
    JObj [ ("command", JStr command); ("exit_code", JInt exit_code);
           ("log_path", JStr log_path); ("ran_at", JStr now_ran) ] in
  let state :=
    set_verification
      (Some (dict_set tier (JList (existing_list ++ [entry])) verification))
      state in
  set_updated_at now_updated state.

(** ** The lease *)

(** The two [datetime] conversions the lease code uses.  Timestamps are
    integers (microseconds since the epoch). *)
Class Datetime : Type := {
  (** [datetime.fromisoformat(s).timestamp()], [None] for [ValueError] *)
  iso_timestamp : string → option Z;
  (** [datetime.fromtimestamp(t, tz=timezone.utc).isoformat()] *)
  utc_isoformat : Z → string;
  (** the empty string is not a date *)
  iso_timestamp_empty : iso_timestamp "" = None
}.

Definition seconds (n : Z) : Z := n * 1000000.

(** [str(v)] for the scalars that may sit in a lease. *)
Definition str_of_value (o : option JValue) : string :=
  match o with
  | Some (JStr s) => s
  | Some (JInt n) => str_of_int n
  | Some (JBool true) => "True"
  | Some (JBool false) => "False"
  | Some JNull | None => "None"
  | Some (JList _) => "[...]"
  | Some (JObj _) => "{...}"
  end.

Section lease.
Context `{Datetime}.

(** The expiry of a lease, when it has one that parses. *)
Definition expires_dt (expires_at : JValue) : option Z :=
  match expires_at with
  | JStr s => iso_timestamp s
  | _ => None
  end.

(** [acquire_lease]; [now] and [now_epoch] are its two clock reads and
    [fresh] the UUID drawn when no run id is given. *)
Definition acquire_lease (now : string) (now_epoch : Z) (fresh : string)
    (run_id : option string) (lease_seconds : Z) (state : PlanState)
    : Outcome :=
  let actual_run_id :=
    match run_id with
    | Some r => if String.eqb r "" then fresh else r
    | None => fresh
    end in
  let takeover :=
    match lock state with
    | None => Returned state
    | Some held =>
        let expires_at := default (JStr "") (dict_get "expires_at" held) in
        match expires_dt expires_at with
        | Some t =>
            if now_epoch <? t then
              Raised (ValueError
                        ("Plan " +:+ plan_id state
                         +:+ " is already leased by run_id="
                         +:+ str_of_value (dict_get "run_id" held)
                         +:+ " until " +:+ str_of_value (Some expires_at)))
                     state
            else Returned state
        | None => Returned state
        end >>> λ state,
        Returned
          (set_recovery_notes
             (recovery_notes state ++
              [ [ ("event", JStr "lease_expired_takeover");
                  ("previous_run_id",
                   default (JStr "unknown") (dict_get "run_id" held));
                  ("previous_acquired_at",
                   default (JStr "") (dict_get "acquired_at" held));
                  ("previous_expires_at", expires_at);
                  ("taken_over_at", JStr now);
                  ("new_run_id", JStr actual_run_id) ] ])
             state)
    end in
  takeover >>> λ state,
  let expires_at_iso := utc_isoformat (now_epoch + seconds lease_seconds) in
  let state :=
    set_lock (Some [ ("run_id", JStr actual_run_id);
                     ("acquired_at", JStr now);
                     ("expires_at", JStr expires_at_iso) ]) state in
  Returned (set_updated_at now state).

(** [renew_lease]: extend the lease for its current holder. *)
Definition renew_lease (now_epoch : Z) (now : string) (run_id : string)
    (lease_seconds : Z) (state : PlanState) : Outcome :=
  match lock state with
  | None => Raised (ValueError ("No active lease on plan " +:+ plan_id state))
                   state
  | Some held =>
      let holder := dict_get "run_id" held in
      if negb (eq_str (default JNull holder) run_id) then
        Raised (ValueError ("Lease held by " +:+ str_of_value holder
                            +:+ ", not " +:+ run_id)) state
      else
        let held :=
          dict_set "expires_at"
            (JStr (utc_isoformat (now_epoch + seconds lease_seconds)))
            held in
        Returned (set_updated_at now (set_lock (Some held) state))
  end.
End lease.

(** [release_lease]: clear the lease. *)
Definition release_lease (now : string) (state : PlanState) : PlanState :=
  set_updated_at now (set_lock None state).

(** ** [apply_state_patch] and its validators *)

(** [isinstance(v, int)]: Python's [bool] is a subclass of [int]. *)
Definition as_py_int (v : JValue) : option Z :=
  match v with
  | JInt n => Some n
  | JBool b => Some (Z.b2z b)
  | _ => None
  end.

Definition positive_ints_message : string :=
  "completed_tasks must be a list of positive integers".

Definition check_task (total_tasks : Z) (item : JValue) : Result Z :=
  match as_py_int item with
  | None => inl (ValueError positive_ints_message)
  | Some n =>
      if n <? 1 then inl (ValueError positive_ints_message)
      else if negb (total_tasks =? 0) && (total_tasks <? n) then
        inl (ValueError ("completed_tasks entry " +:+ str_of_int n
                         +:+ " exceeds total_tasks="
                         +:+ str_of_int total_tasks))
      else inr n
  end.

Definition _validate_completed_tasks (total_tasks : Z) (value : JValue)
    : Result (list Z) :=
  match value with
  | JList items =>
      tasks ← mapM (check_task total_tasks) items;
      mret (py_sorted_set tasks)
  | _ => inl (ValueError positive_ints_message)
  end.

Definition _validate_optional_str (field : string) (value : JValue)
    : Result (option string) :=
  match value with
  | JNull => inr None
  | JStr s => inr (Some s)
  | _ => inl (ValueError (field +:+ " must be a string or null"))
  end.

Definition _validate_optional_dict (field : string) (value : JValue)
    : Result (option JDict) :=
  match value with
  | JNull => inr None
  | JObj d => inr (Some d)
  | _ => inl (ValueError (field +:+ " must be an object or null"))
  end.

Definition check_result (result : JValue) : Result JValue :=
  match result with
  | JObj r => inr (JObj r)
  | _ => inl (ValueError "verification entries must be objects")
  end.

Definition check_tier (kv : string * JValue) : Result (string * JValue) :=
  match kv.2 with
  | JObj r => inr (kv.1, JList [JObj r])
  | JList results =>
      results_list ← mapM check_result results;
      mret (kv.1, JList results_list)
  | _ => inl (ValueError
                "verification entries must be objects or list of objects")
  end.

Definition _validate_verification (value : JValue) : Result (option JDict) :=
  match value with
  | JNull => inr None
  | JObj tiers => normalized ← mapM check_tier tiers; mret (Some normalized)
  | _ => inl (ValueError "verification must be an object")
  end.

Definition _validate_recovery_notes (value : JValue) : Result (list JDict) :=
  let complaint := ValueError "recovery_notes must be a list of objects" in
  match value with
  | JList notes =>
      mapM (λ note, match note with
                    | JObj n => inr n
                    | _ => inl complaint
                    end) notes
  | _ => inl complaint
  end.

(** One coordinate of the cursor: absent or null is skipped, an integer not
    below [least] is kept, anything else is rejected. *)
Definition check_coordinate (name : string) (least : Z) (complaint : string)
    (value : JDict) : Result JDict :=
  match dict_get name value with
  | None | Some JNull => inr []
  | Some v =>
      match as_py_int v with
      | Some n => if n <? least then inl (ValueError complaint)
                  else inr [(name, v)]
      | None => inl (ValueError complaint)
      end
  end.

Definition _validate_cursor (value : JValue) : Result (option JDict) :=
  match value with
  | JNull => inr None
  | JObj c =>
      task ← check_coordinate "task" 0
               "cursor.task must be a non-negative integer" c;
      step ← check_coordinate "step" (-1) "cursor.step must be >= -1" c;
      mret (Some (task ++ step))
  | _ => inl (ValueError "cursor must be an object or null")
  end.

Definition _validate_severity (value : JValue) : Result (option string) :=
  severity ← _validate_optional_str "blocked_severity" value;
  match severity with
  | Some sev =>
      if bool_decide (sev ∉ VALID_SEVERITIES) then
        inl (ValueError
               ("blocked_severity must be one of "
                +:+ repr_str_list (sorted_strings VALID_SEVERITIES)
                +:+ ", got " +:+ repr_str sev))
      else inr severity
  | None => inr severity
  end.

Definition _validate_touched_paths (value : JValue) : Result (list string) :=
  match value with
  | JList paths => inr ((λ p, str_of_value (Some p)) <$> paths)
  | _ => inl (ValueError "touched_paths must be a list")
  end.

(** [if name in patch: state.name = validate(patch[name])] *)
Definition patch_field {A} (name : string) (validate : JValue → Result A)
    (assign : A → PlanState → PlanState) (patch : JDict) (state : PlanState)
    : Outcome :=
  match dict_get name patch with
  | None => Returned state
  | Some value =>
      match validate value with
      | inl e => Raised e state
      | inr a => Returned (assign a state)
      end
  end.

Definition patch_status (now_updated now_run : string) (patch : JDict)
    (state : PlanState) : Outcome :=
  match dict_get "status" patch with
  | None | Some JNull => Returned state
  | Some (JStr new_status) =>
      if String.eqb new_status (status state) then Returned state
      else transition now_updated now_run new_status [] state
  | Some _ => Raised (ValueError "status must be a string") state
  end.

(** [apply_state_patch]; the first two times are read by [transition], the
    last one by the final [updated_at] assignment. *)
Definition apply_state_patch (now_updated now_run now : string)
    (patch : JDict) (state : PlanState) : Outcome :=
  let unknown := filter (λ k, k ∉ PATCHABLE_FIELDS) (patch.*1) in
  if negb (bool_decide (unknown = [])) then
    Raised (ValueError
              ("Unsupported state patch fields: "
               +:+ repr_str_list (merge_sort String.le unknown)))
           state
  else
    patch_status now_updated now_run patch state
    >>> (λ state,
         patch_field "completed_tasks"
           (_validate_completed_tasks (total_tasks state))
           set_completed_tasks patch state)
    >>> patch_field "last_run_at" (_validate_optional_str "last_run_at")
          set_last_run_at patch
    >>> patch_field "verification" _validate_verification
          set_verification patch
    >>> patch_field "executor" (_validate_optional_dict "executor")
          set_executor patch
    >>> patch_field "blocked_reason" (_validate_optional_str "blocked_reason")
          set_blocked_reason patch
    >>> patch_field "blocked_severity" _validate_severity
          set_blocked_severity patch
    >>> patch_field "failure_reason" (_validate_optional_str "failure_reason")
          set_failure_reason patch
    >>> patch_field "lock" (_validate_optional_dict "lock") set_lock patch
    >>> patch_field "recovery_notes" _validate_recovery_notes
          set_recovery_notes patch
    >>> patch_field "cursor" _validate_cursor set_cursor patch
    >>> patch_field "verify_quick" (_validate_optional_str "verify_quick")
          set_verify_quick patch
    >>> patch_field "last_error_output_path"
          (_validate_optional_str "last_error_output_path")
          set_last_error_output_path patch
    >>> patch_field "git_sha_before" (_validate_optional_str "git_sha_before")
          set_git_sha_before patch
    >>> patch_field "git_sha_after" (_validate_optional_str "git_sha_after")
          set_git_sha_after patch
    >>> patch_field "touched_paths" _validate_touched_paths
          set_touched_paths patch
    >>> (λ state, Returned (set_updated_at now state)).

(** ** State files *)

(** The content of a file: text that [json.loads] rejects, or the document
    it parses to.  [json.dumps] followed by [json.loads] is the identity on
    documents. *)
Inductive File : Type :=
| NotJson (text : string)
| Json (doc : JValue).

Abbreviation Files := (gmap string File).

(** [read_state]: [None] when the file does not exist. *)
Definition read_state (now : string) (state_path : string) (files : Files)
    : Result (option PlanState) :=
  match files !! state_path with
  | None => inr None
  | Some (NotJson _) =>
      inl (ValueError ("Invalid state JSON at " +:+ state_path))
  | Some (Json (JObj raw)) =>
      match from_dict now raw with
      | inr state => inr (Some state)
      | inl (TypeError _) | inl (ValueError _) =>
          inl (ValueError ("Invalid state schema at " +:+ state_path))
      | inl e => inl e
      end
  | Some (Json _) =>
      inl (AttributeError "object has no attribute 'get'")
  end.

(** [write_state]: stamp [updated_at], then replace the file in one step
    (temporary file, [fsync], [os.replace]).  The stamped object is returned
    with the files. *)
Definition write_state (now : string) (state_path : string)
    (state : PlanState) (files : Files) : PlanState * Files :=
  let state := set_updated_at now state in
  (state, <[ state_path := Json (JObj (to_dict state)) ]> files).

(** ** The lock file *)

Definition _read_lock_payload (lock_path : string) (files : Files)
    : option JDict :=
  match files !! lock_path with
  | Some (Json (JObj raw)) => Some raw
  | _ => None
  end.

(** [payload.get("owner_id") != owner_id] *)
Definition other_owner (payload : JDict) (owner_id : string) : bool :=
  negb (eq_str (default JNull (dict_get "owner_id" payload)) owner_id).

(** [_release_lock]: [unlink] of a missing file is caught and ignored. *)
Definition _release_lock (lock_path : string) (owner_id : string)
    (files : Files) : Files :=
  match _read_lock_payload lock_path files with
  | Some payload =>
      if truthy (JObj payload) && other_owner payload owner_id then files
      else delete lock_path files
  | None => delete lock_path files
  end.

End State.
Export State.

(* ===================================================================== *)
(** * ISO 8601 timestamps in UTC *)
(* ===================================================================== *)

(** The timestamps the program writes, ["2026-11-04T12:30:00.250000+00:00"],
    with the fraction left out when it is zero: an instance of [Datetime]
    to run the lease code on. *)
Module Iso8601.

(** Days since 1970-01-01 in the proleptic Gregorian calendar. *)
Definition days_from_civil (y m d : Z) : Z :=
  let y := if m <=? 2 then y - 1 else y in
  let era := y / 400 in
  let yoe := y - era * 400 in
  let mp := (m + 9) mod 12 in
  let doy := (153 * mp + 2) / 5 + d - 1 in
  let doe := yoe * 365 + yoe / 4 - yoe / 100 + doy in
  era * 146097 + doe - 719468.

Definition civil_from_days (z : Z) : Z * Z * Z :=
  let z := z + 719468 in
  let era := z / 146097 in
  let doe := z - era * 146097 in
  let yoe := (doe - doe / 1460 + doe / 36524 - doe / 146096) / 365 in
  let doy := doe - (365 * yoe + yoe / 4 - yoe / 100) in
  let mp := (5 * doy + 2) / 153 in
  let d := doy - (153 * mp + 2) / 5 + 1 in
  let m := if mp <? 10 then mp + 3 else mp - 9 in
  (if m <=? 2 then yoe + era * 400 + 1 else yoe + era * 400, m, d).

(** [n] in decimal, padded with zeros to [width] digits. *)
Fixpoint pad (width : nat) (n : Z) : string :=
  match width with
  | O => ""
  | S w => pad w (n / 10) +:+ pretty (n mod 10)
  end.

Definition format (t : Z) : string :=
  let micro := t mod 1000000 in
  let secs := t / 1000000 in
  let '(y, m, d) := civil_from_days (secs / 86400) in
  let rem := secs mod 86400 in
  pad 4 y +:+ "-" +:+ pad 2 m +:+ "-" +:+ pad 2 d +:+ "T"
  +:+ pad 2 (rem / 3600) +:+ ":" +:+ pad 2 (rem mod 3600 / 60) +:+ ":"
  +:+ pad 2 (rem mod 60)
  +:+ (if micro =? 0 then "" else "." +:+ pad 6 micro) +:+ "+00:00".

(** Read exactly [width] digits. *)
Fixpoint number (width : nat) (acc : Z) (s : string) : option (Z * string) :=
  match width, s with
  | O, _ => Some (acc, s)
  | S w, String c s' =>
      d ← Ascii.is_nat c; number w (10 * acc + Z.of_nat d) s'
  | S _, EmptyString => None
  end.

(** Read one given character. *)
Definition expect (c : ascii) (s : string) : option string :=
  match s with
  | String c' s' => if Ascii.eqb c c' then Some s' else None
  | EmptyString => None
  end.

Definition parse (s : string) : option Z :=
  '(y, s) ← number 4 0 s; s ← expect "-" s;
  '(m, s) ← number 2 0 s; s ← expect "-" s;
  '(d, s) ← number 2 0 s; s ← expect "T" s;
  '(hh, s) ← number 2 0 s; s ← expect ":" s;
  '(mm, s) ← number 2 0 s; s ← expect ":" s;
  '(ss, s) ← number 2 0 s;
  '(micro, s) ← match expect "." s with
                 | Some s => number 6 0 s
                 | None => Some (0, s)
                 end;
  let days := days_from_civil y m d in
  if String.eqb s "+00:00"
     && bool_decide (civil_from_days days = (y, m, d))
     && (hh <? 24) && (mm <? 60) && (ss <? 60)
  then Some ((days * 86400 + hh * 3600 + mm * 60 + ss) * 1000000 + micro)
  else None.

#[export] Instance datetime : Datetime :=
  {| iso_timestamp := parse; utc_isoformat := format;
     iso_timestamp_empty := eq_refl |}.

End Iso8601.

(* ===================================================================== *)
(** * [gsd_bridge/codex_adapter.py] *)
(* ===================================================================== *)

Module Adapter.

(** What an adapter call reads from outside the state files.  Every call
    site of [_now_iso()] and of the epoch clock has its own index, in program
    order, so that successive reads may differ. *)
Record Ambient : Type := {
  now_iso : nat → string;         (* [_now_iso()] at the n-th call site *)
  now_epoch : nat → Z;            (* the epoch clock at the n-th call site *)
  uuid4 : string;                 (* [str(uuid.uuid4())] *)
  git_sha : option string;        (* [_capture_git_sha()] *)
  source_digest : option string;  (* [content_hash] of the source plan the
                                     state points to; [None]: no such file *)
  log_path : string               (* the path [_ensure_log_file] settles on *)
}.

(** An adapter call runs inside [with state_lock(state_path)] and yields what
    it returned or raised, together with the files it leaves behind. *)
Abbreviation Call := (Files → Result PlanState * Files).

Definition _ensure_executing (state : PlanState) (action : string)
    : Outcome :=
  if String.eqb (status state) "executing" then Returned state
  else Raised (ValueError (action +:+ " requires executing state, got: "
                           +:+ status state)) state.

(** [read_state] followed by the [FileNotFoundError] for a missing file. *)
Definition load (now : string) (state_path : string) (files : Files)
    : Result PlanState :=
  found ← read_state now state_path files;
  match found with
  | Some state => inr state
  | None => inl (FileNotFoundError ("State file not found: " +:+ state_path))
  end.

(** The body of an adapter call: load, run the in-memory steps, and write
    the state back only when none of them raised.  [write_site] is the call
    site index of the clock read in [write_state]. *)
Definition locked_update (a : Ambient) (state_path : string)
    (body : PlanState → Outcome) (write_site : nat) : Call :=
  λ files,
    match load (now_iso a 0) state_path files with
    | inl e => (inl e, files)
    | inr state =>
        match body state with
        | Raised e _ => (inl e, files)
        | Returned state =>
            let '(state, files) :=
              write_state (now_iso a write_site) state_path state files in
            (inr state, files)
        end
    end.

(** [check_drift]: does the source plan hash differ from the recorded one?
    The state is read again from its file. *)
Definition check_drift (a : Ambient) (state_path : string) (files : Files)
    : Result bool :=
  found ← read_state (now_iso a 1) state_path files;
  match found, source_digest a with
  | None, _ => inr false
  | Some _, None => inr true
  | Some state, Some current_hash =>
      inr (negb (String.eqb current_hash (source_plan_hash state)))
  end.

Definition _ensure_no_source_drift (a : Ambient) (state_path : string)
    (files : Files) (state : PlanState) : Outcome :=
  match source_digest a with
  | None => Returned state
  | Some _ =>
      match check_drift a state_path files with
      | inl e => Raised e state
      | inr true =>
          Raised (ValueError
                    ("Cannot continue: source plan drift detected for "
                     +:+ plan_id state
                     +:+ ". Re-export plans before execution.")) state
      | inr false => Returned state
      end
  end.

(** [(executor_info or {}).get("run_id") or str(uuid.uuid4())]; run ids are
    strings. *)
Definition run_id_of (a : Ambient) (executor_info : option JDict)
    : Result string :=
  match dict_get "run_id" (default [] executor_info) with
  | Some (JStr r) => inr (if String.eqb r "" then uuid4 a else r)
  | Some v => if truthy v then inl (IllTyped "run_id") else inr (uuid4 a)
  | None => inr (uuid4 a)
  end.

Definition with_run_id (a : Ambient) (executor_info : option JDict)
    (k : string → PlanState → Outcome) (state : PlanState) : Outcome :=
  match run_id_of a executor_info with
  | inl e => Raised e state
  | inr run_id => k run_id state
  end.

Section executing.
Context `{Datetime}.

(** [_lease_is_expired] *)
Definition _lease_is_expired (now_epoch : Z) (lease : JDict) : bool :=
  match dict_get "expires_at" lease with
  | Some (JStr expires_at) =>
      match iso_timestamp expires_at with
      | Some t => t <=? now_epoch
      | None => true
      end
  | _ => true
  end.

(** [start_execution]: pending -> executing under a new lease. *)
Definition start_execution (a : Ambient) (state_path : string)
    (executor_info : option JDict) : Call :=
  λ files,
    locked_update a state_path
      (λ state,
        (if String.eqb (status state) "pending" then Returned state
         else Raised (ValueError ("Start requires pending state, got: "
                                  +:+ status state)) state)
        >>> _ensure_no_source_drift a state_path files
        >>> with_run_id a executor_info (λ run_id state,
              acquire_lease (now_iso a 2) (now_epoch a 0) (uuid4 a)
                (Some run_id) DEFAULT_LOCK_LEASE_SECONDS state
              >>> (λ state,
                   Returned (set_git_sha_before (git_sha a)
                               (set_cursor (Some (cursor_at 1 0)) state)))
              >>> transition (now_iso a 3) (now_iso a 4) "executing"
                    [kw_executor executor_info; kw_blocked_reason None]))
      5 files.

(** The handoff step of [resume_execution]: an unexpired lease under
    another run id is noted and cleared. *)
Definition handoff (a : Ambient) (run_id : string) (state : PlanState)
    : PlanState :=
  match lock state with
  | Some held =>
      if truthy (JObj held) && negb (_lease_is_expired (now_epoch a 0) held)
      then
        match dict_get "run_id" held with
        | Some current_run_id =>
            if truthy current_run_id
               && negb (eq_str current_run_id run_id)
            then
              set_lock None
                (set_recovery_notes
                   (recovery_notes state ++
                    [ [ ("event", JStr "lease_handoff");
                        ("previous_run_id", current_run_id);
                        ("taken_over_at", JStr (now_iso a 2));
                        ("new_run_id", JStr run_id) ] ])
                   state)
            else state
        | None => state
        end
      else state
  | None => state
  end.

(** [resume_execution]: blocked or failed -> executing under a new lease. *)
Definition resume_execution (a : Ambient) (state_path : string)
    (executor_info : option JDict) : Call :=
  λ files,
    locked_update a state_path
      (λ state,
        (if bool_decide (status state ∈ ["blocked"; "failed"])
         then Returned state
         else Raised (ValueError
                        ("Resume requires blocked/failed state, got: "
                         +:+ status state)) state)
        >>> _ensure_no_source_drift a state_path files
        >>> with_run_id a executor_info (λ run_id state,
              acquire_lease (now_iso a 3) (now_epoch a 1) (uuid4 a)
                (Some run_id) DEFAULT_LOCK_LEASE_SECONDS
                (handoff a run_id state)
              >>> transition (now_iso a 4) (now_iso a 5) "executing"
                    [kw_executor executor_info; kw_blocked_reason None]))
      6 files.

(** [renew_lock]: renew the lease of the calling run. *)
Definition renew_lock (a : Ambient) (state_path : string) (run_id : string)
    : Call :=
  locked_update a state_path
    (renew_lease (now_epoch a 0) (now_iso a 1) run_id
       DEFAULT_LOCK_LEASE_SECONDS)
    2.
End executing.

(** [complete_task]: mark a task as completed in the state file. *)
Definition complete_task (a : Ambient) (state_path : string) (task_num : Z)
    : Call :=
  locked_update a state_path
    (λ state,
      _ensure_executing state "complete-task"
      >>> (λ state, Returned (State.complete_task (now_iso a 1) task_num state)))
    2.

(** [advance_step]: move the cursor within the current task. *)
Definition advance_step (a : Ambient) (state_path : string) (step : Z)
    : Call :=
  locked_update a state_path
    (λ state,
      _ensure_executing state "advance-step"
      >>> (λ state, Returned (State.advance_step (now_iso a 1) step state)))
    2.

(** [record_verification]: record one verification event.  The log file and
    the debug fixture are files of their own and are not state files. *)
Definition record_verification (a : Ambient) (state_path : string)
    (tier command : string) (exit_code : Z) : Call :=
  locked_update a state_path
    (λ state,
      _ensure_executing state "record-verification"
      >>> (λ state,
           let state :=
             if String.eqb tier "quick" && (exit_code =? 0)
                && negb (truthy (enc_opt_str (verify_quick state)))
             then set_verify_quick (Some command) state else state in
           let state :=
             if negb (exit_code =? 0)
             then set_last_error_output_path (Some (log_path a)) state
             else state in
           Returned (State.record_verification (now_iso a 1) (now_iso a 2)
                       tier command exit_code (log_path a) state)))
    3.

(** [any(isinstance(results, list) and len(results) > 0 for ...)] *)
Definition has_results (verification : option JDict) : bool :=
  existsb (λ kv, match kv.2 with JList (_ :: _) => true | _ => false end)
          (default [] verification).

(** [mark_verified]: executing -> verified; releases the lease. *)
Definition mark_verified (a : Ambient) (state_path : string) : Call :=
  locked_update a state_path
    (λ state,
      _ensure_executing state "mark-verified"
      >>> (λ state,
           if py_len_set (completed_tasks state) <? total_tasks state then
             Raised (ValueError
                       "Cannot mark verified: not all tasks are completed")
                    state
           else Returned state)
      >>> (λ state,
           if negb (has_results (verification state)) then
             Raised (ValueError
                       "Cannot mark verified: verification results are required")
                    state
           else Returned state)
      >>> (λ state, Returned (set_git_sha_after (git_sha a) state))
      >>> transition (now_iso a 1) (now_iso a 2) "verified" []
      >>> (λ state, Returned (release_lease (now_iso a 3) state)))
    4.

(** [mark_failed]: executing -> failed; releases the lease. *)
Definition mark_failed (a : Ambient) (state_path : string) (reason : string)
    : Call :=
  locked_update a state_path
    (λ state,
      transition (now_iso a 1) (now_iso a 2) "failed"
        [kw_failure_reason (Some reason); kw_blocked_reason None] state
      >>> (λ state, Returned (release_lease (now_iso a 3) state)))
    4.

(** [mark_blocked]: executing -> blocked.  The blocker note written after the
    state file is a document of its own and is not a state file. *)
Definition mark_blocked (a : Ambient) (state_path : string)
    (reason : string) (severity : string) : Call :=
  let severity :=
    if bool_decide (severity ∉ VALID_SEVERITIES) then "high" else severity in
  locked_update a state_path
    (transition (now_iso a 1) (now_iso a 2) "blocked"
       [ kw_blocked_reason (Some reason);
         kw_blocked_severity (Some severity);
         kw_failure_reason None ])
    3.

(** [update_state]: apply a validated patch to a state file. *)
Definition update_state (a : Ambient) (state_path : string) (patch : JDict)
    : Call :=
  locked_update a state_path
    (apply_state_patch (now_iso a 1) (now_iso a 2) (now_iso a 3) patch)
    4.

(** ** The eligibility scheduler *)

(** [state_dir / f"{plan_id}.json"] *)
Definition state_file (state_dir plan_id : string) : string :=
  state_dir +:+ "/" +:+ plan_id +:+ ".json".

(** [_current_status_by_plan]: the live status of every manifest plan, from
    its state file, or else from the manifest's mirror, or else "no-state". *)
Fixpoint collect_statuses (now : string) (state_dir : string) (files : Files)
    (entries : list ManifestEntry) (statuses : gmap string string)
    : Result (gmap string string) :=
  match entries with
  | [] => inr statuses
  | entry :: rest =>
      found ← read_state now (state_file state_dir (Entry.plan_id entry)) files;
      let live :=
        match found with
        | None => if String.eqb (Entry.status entry) "" then "no-state"
                  else Entry.status entry
        | Some state => status state
        end in
      collect_statuses now state_dir files rest
        (<[ Entry.plan_id entry := live ]> statuses)
  end.

Definition _current_status_by_plan (now : string) (manifest : Manifest)
    (state_dir : string) (files : Files) : Result (gmap string string) :=
  collect_statuses now state_dir files (plans manifest) ∅.

(** [statuses.get(plan_id) == wanted] *)
Definition status_is (statuses : gmap string string) (plan_id wanted : string)
    : bool :=
  bool_decide (statuses !! plan_id = Some wanted).

(** [_lower_waves_verified] *)
Definition _lower_waves_verified (entry : ManifestEntry) (manifest : Manifest)
    (statuses : gmap string string) : bool :=
  forallb
    (λ other,
       negb ((Entry.wave other <? Entry.wave entry)
             && negb (status_is statuses (Entry.plan_id other) "verified")))
    (plans manifest).

(** The names under which a plan can be referred to in [depends_on]. *)
Definition tokens (other : ManifestEntry) : list string :=
  [ Entry.plan_id other;
    str_of_int (Entry.plan_number other);
    Entry.phase other +:+ ":" +:+ str_of_int (Entry.plan_number other);
    Entry.phase other +:+ "-" +:+ format_02d (Entry.plan_number other);
    Entry.source_path other;
    path_name (Entry.source_path other);
    path_stem (Entry.source_path other) ].

(** [str(token).strip().lower()] *)
Definition normalize (token : string) : string := str_lower (str_strip token).

(** [lookup.setdefault(normalized, set()).add(plan_id)] *)
Definition add_token (plan_id : string) (lookup : gmap string (gset string))
    (token : string) : gmap string (gset string) :=
  let normalized := normalize token in
  if String.eqb normalized "" then lookup
  else <[ normalized := default ∅ (lookup !! normalized) ∪ {[ plan_id ]} ]>
         lookup.

Definition build_lookup (entries : list ManifestEntry)
    : gmap string (gset string) :=
  foldl (λ lookup other,
           foldl (add_token (Entry.plan_id other)) lookup (tokens other))
        ∅ entries.

Definition ambiguous_message (dep : string) (entry : ManifestEntry)
    (matched : gset string) : string :=
  "Ambiguous dependency '" +:+ dep +:+ "' for " +:+ Entry.plan_id entry
  +:+ ": matches " +:+ repr_str_list (sorted_strings matched).

(** The loop over [entry.depends_on]. *)
Fixpoint check_dependencies (entry : ManifestEntry)
    (lookup : gmap string (gset string)) (statuses : gmap string string)
    (deps : list string) : Result bool :=
  match deps with
  | [] => inr true
  | dep :: rest =>
      let token := normalize dep in
      match lookup !! token with
      | None => inr false
      | Some matched_plan_ids =>
          match elements matched_plan_ids with
          | [] => inr false
          | [matched_plan_id] =>
              if status_is statuses matched_plan_id "verified"
              then check_dependencies entry lookup statuses rest
              else inr false
          | _ :: _ :: _ =>
              inl (ValueError (ambiguous_message dep entry matched_plan_ids))
          end
      end
  end.

(** [_dependencies_verified] *)
Definition _dependencies_verified (entry : ManifestEntry)
    (manifest : Manifest) (statuses : gmap string string) : Result bool :=
  match Entry.depends_on entry with
  | [] => inr true
  | deps =>
      check_dependencies entry (build_lookup (plans manifest)) statuses deps
  end.

(** The loop of [get_eligible_plans] over the manifest. *)
Fixpoint select_eligible (manifest : Manifest)
    (statuses : gmap string string) (wave : option Z)
    (plan_id : option string) (entries : list ManifestEntry)
    : Result (list ManifestEntry) :=
  match entries with
  | [] => inr []
  | entry :: rest =>
      if negb (status_is statuses (Entry.plan_id entry) "pending") then
        select_eligible manifest statuses wave plan_id rest
      else if match plan_id with
              | Some wanted => negb (String.eqb wanted "")
                               && negb (String.eqb (Entry.plan_id entry) wanted)
              | None => false
              end then
        select_eligible manifest statuses wave plan_id rest
      else if match wave with
              | Some wanted => negb (Entry.wave entry =? wanted)
              | None => false
              end then
        select_eligible manifest statuses wave plan_id rest
      else if negb (_lower_waves_verified entry manifest statuses) then
        select_eligible manifest statuses wave plan_id rest
      else
        met ← _dependencies_verified entry manifest statuses;
        eligible ← select_eligible manifest statuses wave plan_id rest;
        inr (if met : bool then entry :: eligible else eligible)
  end.

(** [get_eligible_plans], from the manifest [read_manifest] returned and the
    directory of the state files. *)
Definition get_eligible_plans (now : string) (manifest : Manifest)
    (state_dir : string) (files : Files) (wave : option Z)
    (plan_id : option string) : Result (list ManifestEntry) :=
  statuses ← _current_status_by_plan now manifest state_dir files;
  select_eligible manifest statuses wave plan_id (plans manifest).

(** [get_next_plan] *)
Definition get_next_plan (now : string) (manifest : Manifest)
    (state_dir : string) (files : Files) : Result (option ManifestEntry) :=
  eligible ← get_eligible_plans now manifest state_dir files None None;
  mret (head eligible).

(** ** The rollback command *)

Definition DEFAULT_ROLLBACK_ALLOWLIST : gset string :=
  {[ "echo"; "git"; "make"; "npm"; "npx"; "pnpm"; "pytest"; "python";
     "python3"; "uv"; "yarn" ]}.

(** [_validate_argv]; a missing [argv] arrives as [None], that is [JNull]. *)
Definition _validate_argv (value : JValue) : Result (list string) :=
  match value with
  | JList (first :: more) =>
      mapM (λ item,
              match item with
              | JStr s =>
                  if String.eqb (str_strip s) ""
                  then inl (ValueError
                              "Rollback argv values must be non-empty strings")
                  else inr s
              | _ => inl (ValueError
                            "Rollback argv values must be non-empty strings")
              end)
           (first :: more)
  | _ => inl (ValueError "Rollback argv must be a non-empty array")
  end.

(** [_rollback_allowlist]; [env] is what the environment holds under
    GSD_BRIDGE_ROLLBACK_ALLOWLIST, [None] when the variable is not set. *)
Definition _rollback_allowlist (env : option string) : gset string :=
  let raw := str_strip (default "" env) in
  if negb (String.eqb raw "") then
    list_to_set (filter (λ token, token ≠ "")
                        (str_strip <$> str_split "," raw))
  else DEFAULT_ROLLBACK_ALLOWLIST.

(** [_enforce_rollback_allowlist] *)
Definition _enforce_rollback_allowlist (env : option string)
    (command : string) : Result () :=
  let executable := path_name command in
  let allowlist := _rollback_allowlist env in
  if bool_decide (executable ∉ allowlist) then
    inl (ValueError
           ("Rollback command '" +:+ executable
            +:+ "' is not in allowlist: "
            +:+ repr_str_list (sorted_strings allowlist)))
  else inr ().

End Adapter.

(* ===================================================================== *)
(** * [gsd_bridge/reconcile.py]: the severity scale *)
(* ===================================================================== *)

(** The status report draws one more exclamation mark per level of
    severity. *)
Definition severity_icon : gmap string string :=
  {[ "critical" := "!!!!"; "high" := "!!!"; "medium" := "!!"; "low" := "!" ]}.

Definition severity_level (severity : string) : option nat :=
  String.length <$> severity_icon !! severity.

(* ===================================================================== *)
(** * A plan with two tasks, for the examples *)
(* ===================================================================== *)

Module Fixture.

#[export] Existing Instance Iso8601.datetime.

(** 2026-11-04T12:30:00 UTC, in microseconds. *)
Definition t0 : Z := 1793795400000000.

(** A clock that advances by one millisecond per read. *)
Definition ambient : Adapter.Ambient :=
  {| Adapter.now_iso := λ n, Iso8601.format (t0 + 1000 * Z.of_nat n);
     Adapter.now_epoch := λ n, t0 + 1000 * Z.of_nat n;
     Adapter.uuid4 := "3f2b8c1e-7a54-4d0e-9b61-5c2e8f7a1d90";
     Adapter.git_sha := Some "9fceb02d0ae598e95dc970b74767f19372d61af8";
     Adapter.source_digest := None;
     Adapter.log_path := "docs/plans/_logs/p1/quick.log" |}.

(** The same clock, [n] reads later. *)
Definition later (n : nat) : Adapter.Ambient :=
  {| Adapter.now_iso := λ k, Adapter.now_iso ambient (n + k);
     Adapter.now_epoch := λ k, Adapter.now_epoch ambient (n + k);
     Adapter.uuid4 := Adapter.uuid4 ambient;
     Adapter.git_sha := Adapter.git_sha ambient;
     Adapter.source_digest := Adapter.source_digest ambient;
     Adapter.log_path := Adapter.log_path ambient |}.

Definition state_path : string := "docs/plans/_state/p1.json".

Definition run (call : Adapter.Call) (files : Files) : Files := (call files).2.

(** [init_state] and [write_state], as export does. *)
Definition exported : Files :=
  (write_state (Iso8601.format t0) state_path
     (init_state (Iso8601.format t0) "p1"
        ".planning/phases/01-setup/01-01-PLAN.md" "hash-p1" 2) ∅).2.

(** ... then [start_execution] by run-1. *)
Definition started : Files :=
  run (Adapter.start_execution ambient state_path
         (Some [("run_id", JStr "run-1")])) exported.

Definition loaded (files : Files) : Result PlanState :=
  Adapter.load (Adapter.now_iso ambient 0) state_path files.

(** ... then run-1 reports tasks 2 and 3 of the two as completed, and one
    passing quick verification. *)
Definition skipped_first_task : Files :=
  run (Adapter.record_verification (later 30) state_path "quick"
         "python -m unittest -v" 0)
    (run (Adapter.complete_task (later 20) state_path 3)
       (run (Adapter.complete_task (later 10) state_path 2) started)).

(** ... or run-1 completes task 1 and reports a block; its lease, an hour
    long, stays in the state. *)
Definition blocked : Files :=
  run (Adapter.mark_blocked (later 20) state_path "waiting for info" "high")
    (run (Adapter.complete_task (later 10) state_path 1) started).

(** ... or the plan is patched to failed with the explanation put in
    [blocked_reason]: the state the call returns. *)
Definition patched_to_failed : Result PlanState :=
  (Adapter.update_state (later 10) state_path
     [("status", JStr "failed"); ("blocked_reason", JStr "tests are red")]
     started).1.

Definition by_run (run_id : string) : option JDict :=
  Some [("tool", JStr "codex"); ("run_id", JStr run_id)].

(** Manifests, built as the test suite builds them. *)
Definition entry (plan_id : string) (wave plan_number : Z) (status : string)
    (depends_on : list string) : ManifestEntry :=
  {| Entry.plan_id := plan_id;
     Entry.wave := wave;
     Entry.phase := format_02d wave +:+ "-phase";
     Entry.plan_number := plan_number;
     Entry.priority := wave * 1000 + plan_number;
     Entry.plan_path := "docs/plans/" +:+ plan_id +:+ ".md";
     Entry.state_path := "docs/plans/_state/" +:+ plan_id +:+ ".json";
     Entry.source_path :=
       ".planning/phases/" +:+ format_02d wave +:+ "/" +:+ format_02d wave
       +:+ "-" +:+ format_02d plan_number +:+ "-PLAN.md";
     Entry.source_hash := "hash-" +:+ plan_id;
     Entry.depends_on := depends_on;
     Entry.batch_size := 3;
     Entry.batching := None;
     Entry.status := status;
     Entry.execution_contract := None |}.

Definition manifest_of (entries : list ManifestEntry) : Manifest :=
  {| version := CURRENT_SCHEMA_VERSION;
     generated_at := Iso8601.format t0;
     project_root := "/srv/project";
     plans := entries;
     summary := [] |}.

Definition state_dir : string := "docs/plans/_state".

(** One state file per manifest entry, holding the entry's status. *)
Definition state_files (entries : list ManifestEntry) : Files :=
  foldr (λ e files,
           (write_state (Iso8601.format t0)
              (Adapter.state_file state_dir (Entry.plan_id e))
              (set_status (Entry.status e)
                 (init_state (Iso8601.format t0) (Entry.plan_id e)
                    (Entry.source_path e) (Entry.source_hash e) 1))
              files).2)
        ∅ entries.

Definition eligible_ids (entries : list ManifestEntry) (wave : option Z)
    (plan_id : option string) : Result (list string) :=
  match Adapter.get_eligible_plans (Iso8601.format t0) (manifest_of entries)
          state_dir (state_files entries) wave plan_id with
  | inr eligible => inr (Entry.plan_id <$> eligible)
  | inl e => inl e
  end.

(** Two plans in wave 1 and one in wave 2, all pending. *)
Definition two_waves : list ManifestEntry :=
  [ entry "w1-a" 1 1 "pending" []; entry "w1-b" 1 2 "pending" [];
    entry "w2-a" 2 1 "pending" [] ].

(** Two plans numbered 1, and a plan that depends on "1". *)
Definition plan_c : ManifestEntry := entry "c" 1 2 "pending" ["1"].
Definition ambiguous_now : list ManifestEntry :=
  [ entry "a" 1 1 "verified" []; entry "b" 1 1 "verified" []; plan_c;
    entry "d" 1 3 "pending" [] ].

(** The same dependency on a plan of wave 2, behind an unfinished wave 1. *)
Definition plan_c2 : ManifestEntry := entry "c" 2 1 "pending" ["1"].
Definition ambiguous_later : list ManifestEntry :=
  [ entry "a" 1 1 "pending" []; entry "b" 1 1 "verified" []; plan_c2 ].

(** A lock file another process has just created and not yet filled. *)
Definition lock_path : string := "docs/plans/_state/p1.json.lock".
Definition fresh_lock : Files := {[ lock_path := NotJson "" ]}.

End Fixture.

(* ===================================================================== *)
(** * The transition table *)
(* ===================================================================== *)

(** The table of the specification, pair by pair:
    pending -> executing; executing -> verified | failed | blocked;
    blocked -> executing; failed -> executing. *)
Definition in_table (old new : string) : Prop :=
  (old = "pending" ∧ new = "executing")
  ∨ (old = "executing" ∧ (new = "verified" ∨ new = "failed" ∨ new = "blocked"))
  ∨ (old = "blocked" ∧ new = "executing")
  ∨ (old = "failed" ∧ new = "executing").

(** A call was rejected: it raised a [ValueError] and left every file as it
    was. *)
Definition rejected (call : Adapter.Call) (files : Files) : Prop :=
  ∃ msg, call files = (inl (ValueError msg), files).

Lemma allowed_in_table (old new : string) :
  new ∈ default (∅ : gset string) (VALID_TRANSITIONS !! old)
  ↔ in_table old new.
Proof.
  unfold VALID_TRANSITIONS, in_table.
  rewrite !lookup_insert, lookup_singleton.
  repeat (destruct (decide _) as [<-|?]); simpl;
    rewrite ?elem_of_union, ?elem_of_singleton, ?elem_of_empty;
    intuition congruence.
Qed.

Lemma transition_accepts (now_updated now_run new : string)
    (kwargs : list Kwarg) (s : PlanState) :
  in_table (status s) new →
  transition now_updated now_run new kwargs s
  = Returned
      (foldl (λ st kw, setattr kw st)
         (let s := set_updated_at now_updated (set_status new s) in
          if String.eqb new "executing" then set_last_run_at (Some now_run) s
          else if bool_decide (new ∈ ({[ "verified"; "failed" ]} : gset string))
               then set_lock None s else s)
         kwargs).
Proof.
  intros Hin. unfold transition.
  rewrite bool_decide_eq_false_2; [done|].
  intros Hnot. by apply Hnot, allowed_in_table.
Qed.

Lemma transition_rejects (now_updated now_run new : string)
    (kwargs : list Kwarg) (s : PlanState) :
  ¬ in_table (status s) new →
  transition now_updated now_run new kwargs s
  = Raised
      (ValueError
         (invalid_transition_message (status s) new
            (default ∅ (VALID_TRANSITIONS !! status s))))
      s.
Proof.
  intros Hout. unfold transition.
  rewrite bool_decide_eq_true_2; [done|].
  by rewrite allowed_in_table.
Qed.

Lemma locked_update_raised (a : Adapter.Ambient) (path : string)
    (body : PlanState → Outcome) (w : nat) (files : Files)
    (s s' : PlanState) (e : Error) :
  Adapter.load (Adapter.now_iso a 0) path files = inr s →
  body s = Raised e s' →
  Adapter.locked_update a path body w files = (inl e, files).
Proof. intros Hload Hbody. unfold Adapter.locked_update. by rewrite Hload, Hbody. Qed.

Lemma locked_update_returned (a : Adapter.Ambient) (path : string)
    (body : PlanState → Outcome) (w : nat) (files : Files)
    (s s' : PlanState) :
  Adapter.load (Adapter.now_iso a 0) path files = inr s →
  body s = Returned s' →
  Adapter.locked_update a path body w files
  = (inr (set_updated_at (Adapter.now_iso a w) s'),
     <[ path := Json (JObj (to_dict (set_updated_at (Adapter.now_iso a w) s'))) ]>
       files).
Proof.
  intros Hload Hbody. unfold Adapter.locked_update, write_state.
  by rewrite Hload, Hbody.
Qed.

(** C1.  [transition] returns exactly for the pairs (current status,
    requested status) of the table.  For every other pair it raises a
    [ValueError] whose message names the pair, with the record untouched, and
    the adapter calls that request such a transition ([mark_failed],
    [mark_blocked], [update_state] with a new status) leave the state file as
    it was. *)
Theorem transition_only_by_table (now_updated now_run new : string)
    (kwargs : list Kwarg) (s : PlanState) :
  ((∃ s', transition now_updated now_run new kwargs s = Returned s')
   ↔ in_table (status s) new)
  ∧ (¬ in_table (status s) new →
     transition now_updated now_run new kwargs s
     = Raised
         (ValueError
            ("Invalid transition: " +:+ status s +:+ " → " +:+ new
             +:+ ". Allowed: "
             +:+ repr_str_list
                   (sorted_strings (default ∅ (VALID_TRANSITIONS !! status s)))))
         s
     ∧ ∀ (a : Adapter.Ambient) (path : string) (files : Files),
         Adapter.load (Adapter.now_iso a 0) path files = inr s →
         (new ≠ status s →
          rejected (Adapter.update_state a path [("status", JStr new)]) files)
         ∧ (∀ reason, new = "failed" →
            rejected (Adapter.mark_failed a path reason) files)
         ∧ (∀ reason severity, new = "blocked" →
            rejected (Adapter.mark_blocked a path reason severity) files)).
Proof.
  split.
  - split.
    + intros [s' Hs'].
      destruct (decide (new ∈ default (∅ : gset string)
                                (VALID_TRANSITIONS !! status s))) as [Hin|Hout].
      { by apply allowed_in_table. }
      rewrite transition_rejects in Hs'; [done|]. by rewrite <-allowed_in_table.
    + intros Hin. eexists. by apply transition_accepts.
  - intros Hout. split; [by apply transition_rejects|].
    intros a path files Hload. repeat split.
    + intros Hne. eexists. eapply locked_update_raised; [done|].
      unfold apply_state_patch, patch_status.
      change (filter _ ([("status", JStr new)].*1)) with (@nil string).
      change (dict_get "status" [("status", JStr new)]) with (Some (JStr new)).
      rewrite bool_decide_eq_true_2 by done. cbn [negb].
      destruct (String.eqb_spec new (status s)); [done|].
      by rewrite (transition_rejects _ _ _ _ _ Hout).
    + intros reason ->. eexists. eapply locked_update_raised; [done|].
      by rewrite (transition_rejects _ _ _ _ _ Hout).
    + intros reason severity ->. eexists. unfold Adapter.mark_blocked.
      eapply locked_update_raised; [done|].
      by rewrite (transition_rejects _ _ _ _ _ Hout).
Qed.

Lemma transition_only_by_table_witness :
  ∃ s, Fixture.loaded Fixture.exported = inr s
       ∧ ¬ in_table (status s) "failed"
       ∧ transition "t1" "t2" "failed" [] s
         = Raised (ValueError
                     "Invalid transition: pending → failed. Allowed: ['executing']")
                  s
       ∧ rejected (Adapter.mark_failed Fixture.ambient Fixture.state_path "boom")
                  Fixture.exported.
Proof.
  destruct (Fixture.loaded Fixture.exported) as [e|s] eqn:Hload;
    [by vm_compute in Hload|].
  exists s.
  assert (status s = "pending") as Hst.
  { vm_compute in Hload. by injection Hload as <-. }
  assert (¬ in_table (status s) "failed") as Hout.
  { rewrite Hst. unfold in_table. intuition discriminate. }
  destruct (transition_only_by_table "t1" "t2" "failed" [] s) as [_ Hrej].
  destruct (Hrej Hout) as [Hraise Hfiles].
  destruct (Hfiles Fixture.ambient Fixture.state_path Fixture.exported Hload)
    as (_ & Hfailed & _).
  repeat split; [done| |by apply Hfailed].
  rewrite Hraise, Hst. by vm_compute.
Defined.

(* ===================================================================== *)
(** * Task completion *)
(* ===================================================================== *)

Lemma ensure_executing_passes (s : PlanState) (action : string) :
  status s = "executing" → Adapter._ensure_executing s action = Returned s.
Proof. intros Hst. unfold Adapter._ensure_executing. by rewrite Hst. Qed.

Lemma complete_task_call (a : Adapter.Ambient) (path : string) (n : Z)
    (files : Files) (s : PlanState) :
  Adapter.load (Adapter.now_iso a 0) path files = inr s →
  status s = "executing" →
  let s' := set_updated_at (Adapter.now_iso a 2)
              (State.complete_task (Adapter.now_iso a 1) n s) in
  Adapter.complete_task a path n files
  = (inr s', <[ path := Json (JObj (to_dict s')) ]> files).
Proof.
  intros Hload Hst. cbv zeta. unfold Adapter.complete_task.
  eapply locked_update_returned; [done|].
  unfold Adapter._ensure_executing. by rewrite Hst.
Qed.

Lemma completed_tasks_complete_task (now : string) (n : Z) (s : PlanState) :
  completed_tasks (State.complete_task now n s)
  = if bool_decide (n ∈ completed_tasks s) then completed_tasks s
    else py_sorted (completed_tasks s ++ [n]).
Proof.
  unfold State.complete_task.
  destruct (decide (n ∈ completed_tasks s)) as [Hin|Hout].
  - rewrite bool_decide_eq_false_2, bool_decide_eq_true_2 by tauto.
    by destruct (_ <=? _).
  - rewrite bool_decide_eq_true_2, bool_decide_eq_false_2 by done.
    by destruct (_ <=? _).
Qed.

Lemma cursor_complete_task (now : string) (n : Z) (s : PlanState) :
  cursor (State.complete_task now n s)
  = Some (if n + 1 <=? total_tasks s then cursor_at (n + 1) 0
          else cursor_at n (-1)).
Proof.
  unfold State.complete_task.
  destruct (bool_decide (n ∉ completed_tasks s)); simpl;
    by destruct (_ <=? _).
Qed.

Lemma total_tasks_complete_task (now : string) (n : Z) (s : PlanState) :
  total_tasks (State.complete_task now n s) = total_tasks s.
Proof.
  unfold State.complete_task.
  destruct (bool_decide (n ∉ completed_tasks s)); simpl;
    by destruct (_ <=? _).
Qed.

(** C6.  On an executing state, completing task [n] leaves [completed_tasks]
    alone when [n] is already there and otherwise inserts it once, in order;
    the cursor becomes {task: n+1, step: 0} when n+1 <= total_tasks and
    {task: n, step: -1} otherwise.  With two tasks, completing task 1 and
    then task 2 gives the cursors {task: 2, step: 0} and
    {task: 2, step: -1}. *)
Theorem complete_task_advances_cursor (a : Adapter.Ambient) (path : string)
    (files : Files) (s : PlanState) (n : Z) :
  Adapter.load (Adapter.now_iso a 0) path files = inr s →
  status s = "executing" →
  ∃ s',
    Adapter.complete_task a path n files
    = (inr s', <[ path := Json (JObj (to_dict s')) ]> files)
    ∧ (n ∈ completed_tasks s → completed_tasks s' = completed_tasks s)
    ∧ (n ∉ completed_tasks s →
       completed_tasks s' = py_sorted (completed_tasks s ++ [n])
       ∧ completed_tasks s' ≡ₚ n :: completed_tasks s)
    ∧ (n + 1 ≤ total_tasks s →
       cursor s' = Some [("task", JInt (n + 1)); ("step", JInt 0)])
    ∧ (total_tasks s < n + 1 →
       cursor s' = Some [("task", JInt n); ("step", JInt (-1))])
    ∧ (total_tasks s = 2 → ∀ now now',
       let after_1 := State.complete_task now 1 s in
       let after_2 := State.complete_task now' 2 after_1 in
       cursor after_1 = Some [("task", JInt 2); ("step", JInt 0)]
       ∧ cursor after_2 = Some [("task", JInt 2); ("step", JInt (-1))]).
Proof.
  intros Hload Hst. eexists. split; [by apply complete_task_call|].
  cbn [set_updated_at completed_tasks cursor].
  rewrite completed_tasks_complete_task, cursor_complete_task.
  split_and!.
  - intros Hin. by rewrite bool_decide_eq_true_2.
  - intros Hout. rewrite bool_decide_eq_false_2 by done. split; [done|].
    unfold py_sorted.
    rewrite merge_sort_Permutation. by rewrite Permutation_app_comm.
  - intros Hle. by apply Z.leb_le in Hle as ->.
  - intros Hlt. by apply Z.leb_gt in Hlt as ->.
  - intros Htwo t t'. cbv zeta.
    by rewrite !cursor_complete_task, total_tasks_complete_task, Htwo.
Qed.

Lemma complete_task_advances_cursor_witness :
  ∃ s s',
    Fixture.loaded Fixture.started = inr s
    ∧ status s = "executing"
    ∧ (Adapter.complete_task Fixture.ambient Fixture.state_path 1
         Fixture.started).1 = inr s'
    ∧ completed_tasks s' = [1]
    ∧ cursor s' = Some [("task", JInt 2); ("step", JInt 0)].
Proof.
  destruct (Fixture.loaded Fixture.started) as [e|s] eqn:Hload;
    [by vm_compute in Hload|].
  assert (status s = "executing" ∧ completed_tasks s = [] ∧ total_tasks s = 2)
    as (Hst & Hdone & Htotal).
  { vm_compute in Hload. by injection Hload as <-. }
  destruct (complete_task_advances_cursor Fixture.ambient Fixture.state_path
              Fixture.started s 1 Hload Hst)
    as (s' & Hcall & _ & Hnew & Hnext & _).
  exists s, s'. rewrite Hcall. repeat split; [done..| |].
  - destruct Hnew as [-> _]; [rewrite Hdone; by apply not_elem_of_nil|].
    by rewrite Hdone.
  - apply Hnext. rewrite Htotal. lia.
Defined.

(* ===================================================================== *)
(** * Blocking a plan *)
(* ===================================================================== *)

(** A mid-level severity: one of the fixed set, with a less severe and a
    more severe member of the set around it. *)
Definition mid_level (severity : string) : Prop :=
  severity ∈ VALID_SEVERITIES
  ∧ ∃ lower higher l n h,
      lower ∈ VALID_SEVERITIES ∧ higher ∈ VALID_SEVERITIES
      ∧ severity_level lower = Some l
      ∧ severity_level severity = Some n
      ∧ severity_level higher = Some h
      ∧ (l < n < h)%nat.

Lemma high_is_mid_level : mid_level "high".
Proof.
  split; [set_solver|].
  exists "low", "critical", 1%nat, 3%nat, 4%nat.
  split_and!; [set_solver|set_solver|done|done|done|lia|lia].
Qed.

(** C9.  On an executing state [mark_blocked] moves the plan to blocked,
    records the reason, records the supplied severity when it is one of
    critical, high, medium, low and "high" (a mid-level severity) otherwise,
    clears the failure reason, and leaves the lease ([lock]) as it was. *)
Theorem mark_blocked_keeps_lease (a : Adapter.Ambient) (path : string)
    (files : Files) (s : PlanState) (reason severity : string) :
  Adapter.load (Adapter.now_iso a 0) path files = inr s →
  status s = "executing" →
  ∃ s',
    Adapter.mark_blocked a path reason severity files
    = (inr s', <[ path := Json (JObj (to_dict s')) ]> files)
    ∧ status s' = "blocked"
    ∧ blocked_reason s' = Some reason
    ∧ blocked_severity s'
      = Some (if bool_decide (severity ∈ VALID_SEVERITIES) then severity
              else "high")
    ∧ mid_level "high"
    ∧ failure_reason s' = None
    ∧ lock s' = lock s.
Proof.
  intros Hload Hst. eexists. split.
  { unfold Adapter.mark_blocked. eapply locked_update_returned; [done|].
    apply transition_accepts. rewrite Hst. unfold in_table. tauto. }
  split_and!; try done; [|apply high_is_mid_level].
  simpl. by destruct (decide (severity ∈ VALID_SEVERITIES));
    [rewrite bool_decide_eq_false_2, bool_decide_eq_true_2 by tauto
    |rewrite bool_decide_eq_true_2, bool_decide_eq_false_2 by done].
Qed.

Lemma mark_blocked_keeps_lease_witness :
  ∃ s s',
    Fixture.loaded Fixture.started = inr s
    ∧ status s = "executing"
    ∧ (Adapter.mark_blocked Fixture.ambient Fixture.state_path
         "Need API key" "bogus" Fixture.started).1 = inr s'
    ∧ blocked_severity s' = Some "high"
    ∧ lock s' = lock s.
Proof.
  destruct (Fixture.loaded Fixture.started) as [e|s] eqn:Hload;
    [by vm_compute in Hload|].
  assert (status s = "executing") as Hst.
  { vm_compute in Hload. by injection Hload as <-. }
  destruct (mark_blocked_keeps_lease Fixture.ambient Fixture.state_path
              Fixture.started s "Need API key" "bogus" Hload Hst)
    as (s' & Hcall & _ & _ & Hsev & _ & _ & Hlock).
  exists s, s'. rewrite Hcall. split_and!; try done.
Defined.

(* ===================================================================== *)
(** * Releasing the lock file *)
(* ===================================================================== *)

(** The lock file records [owner] as its owner. *)
Definition names_owner (content : File) (owner : string) : Prop :=
  ∃ payload, content = Json (JObj payload)
             ∧ dict_get "owner_id" payload = Some (JStr owner).

(** The lock file holds no payload: it does not parse, or not to an object,
    or to the empty object. *)
Definition no_payload (content : File) : Prop :=
  ∀ payload, content = Json (JObj payload) → payload = [].

(** The claim at one lock file: release deletes it only when it records the
    releasing owner. *)
Definition deleted_only_by_owner (lock_path owner : string) (files : Files)
    : Prop :=
  ∀ content,
    files !! lock_path = Some content →
    _release_lock lock_path owner files !! lock_path = None →
    names_owner content owner.

(** A lock file that is still empty is deleted by whoever releases. *)
Lemma release_deletes_unfilled_lock :
  _release_lock Fixture.lock_path "owner-a" Fixture.fresh_lock = ∅
  ∧ ¬ deleted_only_by_owner Fixture.lock_path "owner-a" Fixture.fresh_lock.
Proof.
  split; [by vm_compute|].
  intros Hclaim.
  destruct (Hclaim (NotJson "")) as (payload & Hcontent & _);
    [by vm_compute..|done].
Qed.

Lemma eq_str_true (v : JValue) (s : string) : eq_str v s = true ↔ v = JStr s.
Proof.
  destruct v; simpl; try (split; [discriminate|by intros ?]).
  rewrite String.eqb_eq. split; [by intros ->|by intros [= ->]].
Qed.

(** C10, amended.  Release deletes the lock file exactly when it records the
    releasing owner or holds no payload at all; a lock file that names
    another owner stays in place, and no other file is touched. *)
Theorem release_lock_by_owner (lock_path owner : string) (files : Files)
    (content : File) :
  files !! lock_path = Some content →
  (_release_lock lock_path owner files !! lock_path = None
   ↔ names_owner content owner ∨ no_payload content)
  ∧ (∀ other, other ≠ owner → names_owner content other →
     _release_lock lock_path owner files = files)
  ∧ (∀ p, p ≠ lock_path →
     _release_lock lock_path owner files !! p = files !! p).
Proof.
  intros Hfile. unfold _release_lock, _read_lock_payload, other_owner.
  rewrite Hfile. split_and!.
  - destruct content as [text|[| | | | |payload]];
      try (rewrite lookup_delete_eq; split; [intros _; right; by intros ?|done]).
    destruct payload as [|kv payload]; cbn [truthy andb].
    { rewrite lookup_delete_eq. split; [|done]. intros _. right.
      by intros ? [= <-]. }
    destruct (dict_get "owner_id" (kv :: payload)) as [v|] eqn:Hget;
      cbn [from_option id].
    + destruct (eq_str v owner) eqn:Heq; cbn [negb].
      * rewrite lookup_delete_eq. split; [intros _; left|done].
        apply eq_str_true in Heq as ->. by eexists.
      * rewrite Hfile. split; [done|].
        intros [(p & [= <-] & Hown)|Hnone]; [|by specialize (Hnone _ eq_refl)].
        rewrite Hget in Hown. injection Hown as ->.
        simpl in Heq. by rewrite String.eqb_refl in Heq.
    + cbn [eq_str negb]. rewrite Hfile. split; [done|].
      intros [(p & [= <-] & Hown)|Hnone]; [|by specialize (Hnone _ eq_refl)].
      by rewrite Hget in Hown.
  - intros other Hne (payload & -> & Hown).
    destruct payload as [|kv payload]; [done|].
    rewrite Hown. cbn [truthy andb from_option id eq_str negb].
    by rewrite (proj2 (String.eqb_neq _ _) Hne).
  - intros p Hne.
    destruct content as [text|[| | | | |payload]];
      try by rewrite lookup_delete_ne.
    by destruct (_ && _); [|rewrite lookup_delete_ne].
Qed.

Lemma release_lock_by_owner_witness :
  let files : Files :=
    {[ Fixture.lock_path :=
         Json (JObj [ ("owner_id", JStr "owner-b");
                      ("acquired_at", JStr "2026-11-04T12:30:00+00:00");
                      ("expires_at", JStr "2026-11-04T13:30:00+00:00") ]) ]} in
  _release_lock Fixture.lock_path "owner-a" files = files
  ∧ _release_lock Fixture.lock_path "owner-b" files !! Fixture.lock_path = None.
Proof.
  intros files.
  pose (content := Json (JObj [ ("owner_id", JStr "owner-b");
                      ("acquired_at", JStr "2026-11-04T12:30:00+00:00");
                      ("expires_at", JStr "2026-11-04T13:30:00+00:00") ])).
  assert (files !! Fixture.lock_path = Some content) as Hfile
    by apply lookup_singleton_eq.
  split.
  - destruct (release_lock_by_owner Fixture.lock_path "owner-a" files content
                Hfile) as (_ & Hkept & _).
    apply (Hkept "owner-b"); [done|]. by eexists.
  - destruct (release_lock_by_owner Fixture.lock_path "owner-b" files content
                Hfile) as (Hgone & _ & _).
    apply Hgone. left. by eexists.
Defined.

(* ===================================================================== *)
(** * Marking a plan verified *)
(* ===================================================================== *)

(** Every task index from 1 to [total_tasks] is completed. *)
Definition covers_all_tasks (s : PlanState) : Prop :=
  ∀ i, 1 ≤ i ≤ total_tasks s → i ∈ completed_tasks s.

Definition verified_state (a : Adapter.Ambient) (s : PlanState) : PlanState :=
  set_updated_at (Adapter.now_iso a 4)
    (release_lease (Adapter.now_iso a 3)
       (set_updated_at (Adapter.now_iso a 1)
          (set_lock None
             (set_status "verified"
                (set_git_sha_after (Adapter.git_sha a) s))))).

Lemma mark_verified_call (a : Adapter.Ambient) (path : string)
    (files : Files) (s : PlanState) :
  Adapter.load (Adapter.now_iso a 0) path files = inr s →
  status s = "executing" →
  Adapter.mark_verified a path files
  = if py_len_set (completed_tasks s) <? total_tasks s then
      (inl (ValueError "Cannot mark verified: not all tasks are completed"),
       files)
    else if Adapter.has_results (verification s) then
      (inr (verified_state a s),
       <[ path := Json (JObj (to_dict (verified_state a s))) ]> files)
    else
      (inl (ValueError
              "Cannot mark verified: verification results are required"),
       files).
Proof.
  intros Hload Hst. unfold Adapter.mark_verified.
  destruct (_ <? _) eqn:Hcount.
  { eapply locked_update_raised; [done|].
    rewrite ensure_executing_passes by done. cbn [and_then].
    by rewrite Hcount. }
  destruct (Adapter.has_results _) eqn:Hres.
  - eapply locked_update_returned; [done|].
    rewrite ensure_executing_passes by done. cbn [and_then].
    rewrite Hcount. cbn [and_then]. rewrite Hres. cbn [and_then negb].
    rewrite transition_accepts; [done|]. cbn [status set_git_sha_after].
    rewrite Hst. unfold in_table. tauto.
  - eapply locked_update_raised; [done|].
    rewrite ensure_executing_passes by done. cbn [and_then].
    rewrite Hcount. cbn [and_then]. by rewrite Hres.
Qed.

(** Covering every task index is enough to pass the count. *)
Lemma covered_tasks_counted (s : PlanState) :
  covers_all_tasks s →
  (py_len_set (completed_tasks s) <? total_tasks s) = false.
Proof.
  intros Hcov. apply Z.ltb_ge. unfold py_len_set.
  destruct (decide (total_tasks s ≤ 0)) as [|Hpos]; [lia|].
  assert (seqZ 1 (total_tasks s) ⊆+ remove_dups (completed_tasks s)) as Hsub.
  { apply NoDup_submseteq; [apply NoDup_seqZ|].
    intros i [? ?]%elem_of_seqZ. apply elem_of_remove_dups, Hcov. lia. }
  apply submseteq_length in Hsub. rewrite length_seqZ in Hsub. lia.
Qed.

(** No recorded result in any tier: a rejection of its own, also when the
    tasks are complete. *)
Lemma mark_verified_requires_results (a : Adapter.Ambient) (path : string)
    (files : Files) (s : PlanState) :
  Adapter.load (Adapter.now_iso a 0) path files = inr s →
  status s = "executing" →
  covers_all_tasks s →
  Adapter.has_results (verification s) = false →
  Adapter.mark_verified a path files
  = (inl (ValueError
            "Cannot mark verified: verification results are required"),
     files).
Proof.
  intros Hload Hst Hcov Hres. rewrite (mark_verified_call _ _ _ s) by done.
  by rewrite covered_tasks_counted, Hres.
Qed.

(** Both preconditions: the plan becomes verified and the lease is gone. *)
Lemma mark_verified_releases_lease (a : Adapter.Ambient) (path : string)
    (files : Files) (s : PlanState) :
  Adapter.load (Adapter.now_iso a 0) path files = inr s →
  status s = "executing" →
  covers_all_tasks s →
  Adapter.has_results (verification s) = true →
  ∃ s', Adapter.mark_verified a path files
        = (inr s', <[ path := Json (JObj (to_dict s')) ]> files)
        ∧ status s' = "verified" ∧ lock s' = None.
Proof.
  intros Hload Hst Hcov Hres. rewrite (mark_verified_call _ _ _ s) by done.
  rewrite covered_tasks_counted, Hres by done. by eexists.
Qed.

(** Fewer distinct completed indices than tasks: rejected. *)
Lemma mark_verified_requires_count (a : Adapter.Ambient) (path : string)
    (files : Files) (s : PlanState) :
  Adapter.load (Adapter.now_iso a 0) path files = inr s →
  status s = "executing" →
  py_len_set (completed_tasks s) < total_tasks s →
  Adapter.mark_verified a path files
  = (inl (ValueError "Cannot mark verified: not all tasks are completed"),
     files).
Proof.
  intros Hload Hst Hcount. rewrite (mark_verified_call _ _ _ s) by done.
  by apply Z.ltb_lt in Hcount as ->.
Qed.

(** C2, at the input where the code departs from it.  A plan with two tasks
    is started, tasks 2 and 3 are reported as completed and one verification
    is recorded: task 1 was never completed, yet [mark_verified] counts two
    distinct indices, accepts, and the plan becomes verified. *)
Theorem mark_verified_accepts_uncovered_tasks :
  ∃ s s',
    Fixture.loaded Fixture.skipped_first_task = inr s
    ∧ status s = "executing"
    ∧ total_tasks s = 2
    ∧ completed_tasks s = [2; 3]
    ∧ ¬ covers_all_tasks s
    ∧ (Adapter.mark_verified (Fixture.later 40) Fixture.state_path
         Fixture.skipped_first_task).1 = inr s'
    ∧ status s' = "verified".
Proof.
  destruct (Fixture.loaded Fixture.skipped_first_task) as [e|s] eqn:Hload;
    [by vm_compute in Hload|].
  destruct (Adapter.mark_verified (Fixture.later 40) Fixture.state_path
              Fixture.skipped_first_task).1 as [e|s'] eqn:Hcall;
    [by vm_compute in Hcall|].
  vm_compute in Hload, Hcall.
  injection Hload as <-. injection Hcall as <-.
  eexists _, _. split_and!; [done..| |done|done].
  intros Hcov.
  assert (1 ∈ [2; 3]) as Hin by (apply (Hcov 1); simpl; lia).
  by repeat (apply elem_of_cons in Hin as [?|Hin]; [lia|]);
    apply elem_of_nil in Hin.
Qed.

(* ===================================================================== *)
(** * The eligibility scheduler *)
(* ===================================================================== *)

Section scheduler.
Variables (manifest : Manifest) (statuses : gmap string string).
Variables (wave : option Z) (plan_id : option string).

(** An entry passes the caller's filters. *)
Definition passes_filters (entry : ManifestEntry) : Prop :=
  (∀ wanted, plan_id = Some wanted → wanted ≠ "" →
             Entry.plan_id entry = wanted)
  ∧ (∀ wanted, wave = Some wanted → Entry.wave entry = wanted).

(** Every plan of a strictly lower wave is verified. *)
Definition lower_waves_done (entry : ManifestEntry) : Prop :=
  ∀ other, other ∈ plans manifest →
           Entry.wave other < Entry.wave entry →
           statuses !! Entry.plan_id other = Some "verified".

Lemma lower_waves_verified_iff (entry : ManifestEntry) :
  Adapter._lower_waves_verified entry manifest statuses = true
  ↔ lower_waves_done entry.
Proof.
  unfold Adapter._lower_waves_verified, lower_waves_done, Adapter.status_is.
  rewrite forallb_forall. split.
  - intros Hall other Hin%list_elem_of_In Hlt. specialize (Hall other Hin).
    apply negb_true_iff, andb_false_iff in Hall as [Hw|Hv].
    + apply Z.ltb_ge in Hw. lia.
    + by apply negb_false_iff, bool_decide_eq_true in Hv.
  - intros Hall other Hin%list_elem_of_In. apply negb_true_iff, andb_false_iff.
    destruct (decide (Entry.wave other < Entry.wave entry)) as [Hlt|Hge].
    + right. apply negb_false_iff, bool_decide_eq_true. by apply Hall.
    + left. apply Z.ltb_ge. lia.
Qed.

(** What [select_eligible] returns was let through by every check. *)
Lemma select_eligible_sound (entries eligible : list ManifestEntry)
    (entry : ManifestEntry) :
  Adapter.select_eligible manifest statuses wave plan_id entries
  = inr eligible →
  entry ∈ eligible →
  entry ∈ entries
  ∧ statuses !! Entry.plan_id entry = Some "pending"
  ∧ Adapter._lower_waves_verified entry manifest statuses = true
  ∧ Adapter._dependencies_verified entry manifest statuses = inr true.
Proof.
  revert eligible.
  induction entries as [|e rest IH]; intros eligible Hsel Hin; simpl in Hsel.
  { injection Hsel as <-. by apply elem_of_nil in Hin. }
  assert (∀ l, Adapter.select_eligible manifest statuses wave plan_id rest
               = inr l → entry ∈ l →
               entry ∈ e :: rest
               ∧ statuses !! Entry.plan_id entry = Some "pending"
               ∧ Adapter._lower_waves_verified entry manifest statuses = true
               ∧ Adapter._dependencies_verified entry manifest statuses
                 = inr true) as Hrest.
  { intros l Hl Hinl. destruct (IH l Hl Hinl) as (? & ? & ? & ?).
    split_and!; [by apply list_elem_of_further|done..]. }
  destruct (Adapter.status_is statuses (Entry.plan_id e) "pending") eqn:Hpend;
    simpl in Hsel; [|by eapply Hrest].
  destruct (match plan_id with Some _ => _ | None => _ end);
    [by eapply Hrest|].
  destruct (match wave with Some _ => _ | None => _ end);
    [by eapply Hrest|].
  destruct (Adapter._lower_waves_verified e manifest statuses) eqn:Hlow;
    simpl in Hsel; [|by eapply Hrest].
  destruct (Adapter._dependencies_verified e manifest statuses)
    as [err|met] eqn:Hdeps; simpl in Hsel; [done|].
  destruct (Adapter.select_eligible manifest statuses wave plan_id rest)
    as [err|l] eqn:Hl; simpl in Hsel; [done|].
  injection Hsel as <-. destruct met; [|by eapply Hrest].
  apply elem_of_cons in Hin as [->|Hin]; [|by eapply Hrest].
  split_and!; [by apply list_elem_of_here| |done..].
  by apply bool_decide_eq_true in Hpend.
Qed.

End scheduler.

(** Plans the manifest does not list get no live status. *)
Lemma collect_statuses_other (now state_dir : string) (files : Files)
    (entries : list ManifestEntry) (acc statuses : gmap string string)
    (pid : string) :
  Adapter.collect_statuses now state_dir files entries acc = inr statuses →
  pid ∉ Entry.plan_id <$> entries →
  statuses !! pid = acc !! pid.
Proof.
  revert acc. induction entries as [|e rest IH]; intros acc Hcol Hout;
    simpl in Hcol.
  { by injection Hcol as <-. }
  destruct (read_state now _ files) as [err|found]; simpl in Hcol; [done|].
  rewrite fmap_cons, not_elem_of_cons in Hout. destruct Hout as [Hne Hout].
  rewrite (IH _ Hcol Hout). by rewrite lookup_insert_ne.
Qed.

(** The live status of a plan with a state file is the status in the file. *)
Lemma collect_statuses_file (now state_dir : string) (files : Files)
    (entries : list ManifestEntry) (acc statuses : gmap string string)
    (pid : string) (state : PlanState) :
  Adapter.collect_statuses now state_dir files entries acc = inr statuses →
  pid ∈ Entry.plan_id <$> entries →
  read_state now (Adapter.state_file state_dir pid) files = inr (Some state) →
  statuses !! pid = Some (status state).
Proof.
  intros Hcol Hin Hfile. revert acc Hcol Hin.
  induction entries as [|e rest IH]; intros acc Hcol Hin; simpl in Hcol.
  { by apply elem_of_nil in Hin. }
  destruct (read_state now (Adapter.state_file state_dir (Entry.plan_id e))
              files) as [err|found] eqn:Hread; simpl in Hcol; [done|].
  destruct (decide (pid ∈ Entry.plan_id <$> rest)) as [Hrest|Hout].
  { by apply (IH _ Hcol). }
  rewrite fmap_cons in Hin. apply elem_of_cons in Hin as [->|Hin]; [|done].
  rewrite (collect_statuses_other _ _ _ _ _ _ _ Hcol Hout).
  rewrite lookup_insert_eq. rewrite Hfile in Hread. by injection Hread as <-.
Qed.

Lemma live_status_from_file (now : string) (manifest : Manifest)
    (state_dir : string) (files : Files) (statuses : gmap string string)
    (entry : ManifestEntry) (state : PlanState) :
  Adapter._current_status_by_plan now manifest state_dir files = inr statuses →
  entry ∈ plans manifest →
  read_state now (Adapter.state_file state_dir (Entry.plan_id entry)) files
  = inr (Some state) →
  statuses !! Entry.plan_id entry = Some (status state).
Proof.
  intros Hcol Hin Hread.
  eapply collect_statuses_file; [done| |done]. by apply list_elem_of_fmap_2.
Qed.

Lemma live_status_is (now : string) (manifest : Manifest)
    (state_dir : string) (files : Files) (statuses : gmap string string)
    (entry : ManifestEntry) (state : PlanState) (live : string) :
  Adapter._current_status_by_plan now manifest state_dir files = inr statuses →
  entry ∈ plans manifest →
  read_state now (Adapter.state_file state_dir (Entry.plan_id entry)) files
  = inr (Some state) →
  status state = live →
  statuses !! Entry.plan_id entry = Some live.
Proof. intros Hcol Hin Hread <-. by eapply live_status_from_file. Qed.

(** ** The status the wave barrier goes by *)

(** The status the manifest records for a plan id: that of the last entry
    with this id, and "no-state" when it records none. *)
Definition recorded_status (manifest : Manifest) (plan_id : string)
    : option string :=
  (λ e, if String.eqb (Entry.status e) "" then "no-state"
        else Entry.status e)
  <$> last (filter (λ e, Entry.plan_id e = plan_id) (plans manifest)).

(** The status in the state file of a plan, when it has one. *)
Definition state_file_status (now state_dir : string) (files : Files)
    (plan_id : string) : option string :=
  match read_state now (Adapter.state_file state_dir plan_id) files with
  | inr (Some state) => Some (status state)
  | _ => None
  end.

(** The status the scheduler goes by: the one in the state file, and for a
    plan without a state file the one the manifest records. *)
Definition live_status (now : string) (manifest : Manifest)
    (state_dir : string) (files : Files) (plan_id : string) : option string :=
  match read_state now (Adapter.state_file state_dir plan_id) files with
  | inr (Some state) => Some (status state)
  | inr None => recorded_status manifest plan_id
  | inl _ => None
  end.

Lemma collect_statuses_lookup (now state_dir : string) (files : Files)
    (entries : list ManifestEntry) (acc statuses : gmap string string)
    (pid : string) :
  Adapter.collect_statuses now state_dir files entries acc = inr statuses →
  statuses !! pid
  = match last (filter (λ e, Entry.plan_id e = pid) entries) with
    | None => acc !! pid
    | Some e =>
        match read_state now (Adapter.state_file state_dir pid) files with
        | inr (Some state) => Some (status state)
        | inr None => Some (if String.eqb (Entry.status e) "" then "no-state"
                            else Entry.status e)
        | inl _ => None
        end
    end.
Proof.
  revert acc. induction entries as [|e rest IH]; intros acc Hcol;
    simpl in Hcol.
  { by injection Hcol as <-. }
  destruct (read_state now (Adapter.state_file state_dir (Entry.plan_id e))
              files) as [err|found] eqn:Hread; simpl in Hcol; [done|].
  rewrite (IH _ Hcol), filter_cons.
  destruct (decide (Entry.plan_id e = pid)) as [<-|Hne].
  - rewrite last_cons.
    destruct (last (filter _ rest)) as [e'|]; [done|].
    rewrite lookup_insert_eq, Hread. by destruct found.
  - destruct (last (filter _ rest)) as [e'|]; [done|].
    by rewrite lookup_insert_ne.
Qed.

(** The live status of a plan of the manifest, from the files and the
    manifest alone. *)
Lemma current_status_is_live (now : string) (manifest : Manifest)
    (state_dir : string) (files : Files) (statuses : gmap string string)
    (entry : ManifestEntry) :
  Adapter._current_status_by_plan now manifest state_dir files = inr statuses →
  entry ∈ plans manifest →
  statuses !! Entry.plan_id entry
  = live_status now manifest state_dir files (Entry.plan_id entry).
Proof.
  intros Hcol Hin. unfold live_status, recorded_status.
  rewrite (collect_statuses_lookup _ _ _ _ _ _ (Entry.plan_id entry) Hcol).
  assert (entry ∈ filter (λ e, Entry.plan_id e = Entry.plan_id entry)
                         (plans manifest)) as Hlisted.
  { by apply list_elem_of_filter. }
  destruct (last (filter _ (plans manifest))) as [e|] eqn:Hlast.
  - by destruct (read_state _ _ _) as [|[|]].
  - apply last_None in Hlast. rewrite Hlast in Hlisted.
    by apply elem_of_nil in Hlisted.
Qed.

(** The barrier of the claim: the status of a plan is the one in its state
    file, and a plan without a state file has none. *)
Definition barrier_on_state_files (now : string) (manifest : Manifest)
    (state_dir : string) (files : Files) (wave : option Z)
    (plan_id : option string) : Prop :=
  ∀ entry other eligible,
    entry ∈ plans manifest →
    state_file_status now state_dir files (Entry.plan_id entry)
    = Some "pending" →
    other ∈ plans manifest →
    Entry.wave other < Entry.wave entry →
    state_file_status now state_dir files (Entry.plan_id other)
    ≠ Some "verified" →
    Adapter.get_eligible_plans now manifest state_dir files wave plan_id
    = inr eligible →
    entry ∉ eligible.

(** A plan of wave 1 that the manifest records as verified, and a pending
    plan of wave 2; only the latter has a state file. *)
Definition w1_recorded : ManifestEntry := Fixture.entry "w1-a" 1 1 "verified" [].
Definition w2_pending : ManifestEntry := Fixture.entry "w2-a" 2 1 "pending" [].

(** C3, as claimed, fails: a lower-wave plan without a state file counts
    with the status the manifest records for it. *)
Lemma lower_wave_without_state_file :
  let manifest := Fixture.manifest_of [w1_recorded; w2_pending] in
  let files := Fixture.state_files [w2_pending] in
  state_file_status (Iso8601.format Fixture.t0) Fixture.state_dir files "w1-a"
  = None
  ∧ Adapter.get_eligible_plans (Iso8601.format Fixture.t0) manifest
      Fixture.state_dir files None None = inr [w2_pending]
  ∧ ¬ barrier_on_state_files (Iso8601.format Fixture.t0) manifest
        Fixture.state_dir files None None.
Proof.
  intros manifest files.
  assert (Adapter.get_eligible_plans (Iso8601.format Fixture.t0) manifest
            Fixture.state_dir files None None = inr [w2_pending]) as Hget.
  { vm_compute. reflexivity. }
  split_and!; [vm_compute; reflexivity|done|].
  intros Hbarrier.
  apply (Hbarrier w2_pending w1_recorded [w2_pending]).
  - apply list_elem_of_further, list_elem_of_here.
  - vm_compute. reflexivity.
  - apply list_elem_of_here.
  - vm_compute. reflexivity.
  - vm_compute. discriminate.
  - exact Hget.
  - apply list_elem_of_here.
Qed.

(** C3, amended.  Whatever the filters and the declared dependencies, a plan
    is not in the eligible set while some manifest plan of a strictly lower
    wave is not verified by its live status: the status in its state file
    or, for a plan without a state file, the status the manifest records. *)
Theorem wave_barrier (now : string) (manifest : Manifest)
    (state_dir : string) (files : Files) (wave : option Z)
    (plan_id : option string) (entry other : ManifestEntry)
    (eligible : list ManifestEntry) :
  other ∈ plans manifest →
  Entry.wave other < Entry.wave entry →
  live_status now manifest state_dir files (Entry.plan_id other)
  ≠ Some "verified" →
  Adapter.get_eligible_plans now manifest state_dir files wave plan_id
  = inr eligible →
  entry ∉ eligible.
Proof.
  intros Hother Hlt Hlive Hget Hin.
  unfold Adapter.get_eligible_plans in Hget.
  destruct (Adapter._current_status_by_plan now manifest state_dir files)
    as [err|statuses] eqn:Hcol; [done|]. simpl in Hget.
  destruct (select_eligible_sound _ _ _ _ _ _ _ Hget Hin)
    as (_ & _ & Hlow & _).
  apply lower_waves_verified_iff in Hlow. apply Hlive.
  rewrite <- (current_status_is_live _ _ _ _ _ _ Hcol Hother).
  by apply Hlow.
Qed.

Lemma wave_barrier_witness :
  let manifest := Fixture.manifest_of Fixture.two_waves in
  let files := Fixture.state_files Fixture.two_waves in
  let w2_a := Fixture.entry "w2-a" 2 1 "pending" [] in
  ∃ eligible,
    Adapter.get_eligible_plans (Iso8601.format Fixture.t0) manifest
      Fixture.state_dir files None None = inr eligible
    ∧ Entry.plan_id <$> eligible = ["w1-a"; "w1-b"]
    ∧ live_status (Iso8601.format Fixture.t0) manifest Fixture.state_dir
        files "w1-a" = Some "pending"
    ∧ w2_a ∉ eligible.
Proof.
  intros manifest files w2_a.
  destruct (Adapter.get_eligible_plans (Iso8601.format Fixture.t0) manifest
              Fixture.state_dir files None None) as [e|eligible] eqn:Hget;
    [by vm_compute in Hget|].
  exists eligible. split_and!; [done| | |].
  - vm_compute in Hget. by injection Hget as <-.
  - vm_compute. reflexivity.
  - apply (wave_barrier (Iso8601.format Fixture.t0) manifest
             Fixture.state_dir files None None w2_a
             (Fixture.entry "w1-a" 1 1 "pending" []) eligible);
      [apply list_elem_of_here|done| |done].
    vm_compute. discriminate.
Defined.

(** ** Dependency tokens *)

(** [token], once normalised, is one of the names of [other]. *)
Definition names_plan (token : string) (other : ManifestEntry) : Prop :=
  token ≠ "" ∧ token ∈ Adapter.normalize <$> Adapter.tokens other.

(** A dependency that matches more than one distinct plan id. *)
Definition ambiguous (manifest : Manifest) (dep : string) : Prop :=
  ∃ o1 o2, o1 ∈ plans manifest ∧ o2 ∈ plans manifest
           ∧ Entry.plan_id o1 ≠ Entry.plan_id o2
           ∧ names_plan (Adapter.normalize dep) o1
           ∧ names_plan (Adapter.normalize dep) o2.

(** A dependency that resolves to exactly one plan, and that plan is
    verified. *)
Definition resolved_verified (manifest : Manifest)
    (statuses : gmap string string) (dep : string) : Prop :=
  ∃ target,
    Adapter.build_lookup (plans manifest) !! Adapter.normalize dep
    = Some {[ target ]}
    ∧ statuses !! target = Some "verified".

Definition matched (lookup : gmap string (gset string)) (token : string)
    : gset string :=
  default ∅ (lookup !! token).

Lemma matched_add_token (pid : string) (lookup : gmap string (gset string))
    (tok token x : string) :
  x ∈ matched (Adapter.add_token pid lookup tok) token
  ↔ x ∈ matched lookup token
    ∨ (x = pid ∧ token = Adapter.normalize tok ∧ token ≠ "").
Proof.
  unfold matched, Adapter.add_token.
  destruct (String.eqb_spec (Adapter.normalize tok) "") as [Hempty|Hfull].
  { split; [by left|]. intros [?|(_ & -> & ?)]; [done|]. by rewrite Hempty in *. }
  destruct (decide (token = Adapter.normalize tok)) as [->|Hne].
  - rewrite lookup_insert_eq. simpl. rewrite elem_of_union, elem_of_singleton.
    naive_solver.
  - rewrite lookup_insert_ne by done. naive_solver.
Qed.

Lemma matched_add_tokens (pid : string) (toks : list string)
    (lookup : gmap string (gset string)) (token x : string) :
  x ∈ matched (foldl (Adapter.add_token pid) lookup toks) token
  ↔ x ∈ matched lookup token
    ∨ (x = pid ∧ token ≠ "" ∧ token ∈ Adapter.normalize <$> toks).
Proof.
  revert lookup. induction toks as [|tok toks IH]; intros lookup; simpl.
  { split; [by left|]. intros [?|(_ & _ & Hin)]; [done|].
    by apply elem_of_nil in Hin. }
  rewrite IH, matched_add_token, elem_of_cons. naive_solver.
Qed.

Lemma matched_build_lookup (entries : list ManifestEntry)
    (lookup : gmap string (gset string)) (token x : string) :
  x ∈ matched
        (foldl (λ lookup other,
                  foldl (Adapter.add_token (Entry.plan_id other)) lookup
                        (Adapter.tokens other))
               lookup entries) token
  ↔ x ∈ matched lookup token
    ∨ ∃ other, other ∈ entries ∧ x = Entry.plan_id other
               ∧ names_plan token other.
Proof.
  revert lookup. induction entries as [|e rest IH]; intros lookup;
    cbn [foldl].
  { split; [by left|]. intros [?|(o & Hin & _)]; [done|].
    by apply elem_of_nil in Hin. }
  rewrite IH, matched_add_tokens. unfold names_plan.
  setoid_rewrite elem_of_cons. naive_solver.
Qed.

(** The plan ids the lookup holds for a token are those of the plans the
    token names. *)
Lemma build_lookup_spec (entries : list ManifestEntry) (token x : string) :
  x ∈ matched (Adapter.build_lookup entries) token
  ↔ ∃ other, other ∈ entries ∧ x = Entry.plan_id other
             ∧ names_plan token other.
Proof.
  unfold Adapter.build_lookup. rewrite matched_build_lookup.
  unfold matched at 1. rewrite lookup_empty. simpl. set_solver.
Qed.

Lemma ambiguous_lookup (manifest : Manifest) (dep : string) :
  ambiguous manifest dep →
  ∃ ids x y rest,
    Adapter.build_lookup (plans manifest) !! Adapter.normalize dep = Some ids
    ∧ elements ids = x :: y :: rest.
Proof.
  intros (o1 & o2 & Hin1 & Hin2 & Hne & Hn1 & Hn2).
  assert (Entry.plan_id o1
          ∈ matched (Adapter.build_lookup (plans manifest))
                    (Adapter.normalize dep)) as H1
    by (apply build_lookup_spec; eauto).
  assert (Entry.plan_id o2
          ∈ matched (Adapter.build_lookup (plans manifest))
                    (Adapter.normalize dep)) as H2
    by (apply build_lookup_spec; eauto).
  unfold matched in H1, H2.
  destruct (Adapter.build_lookup (plans manifest) !! Adapter.normalize dep)
    as [ids|]; simpl in *; [|by apply not_elem_of_empty in H1].
  exists ids. apply elem_of_elements in H1, H2.
  destruct (elements ids) as [|x [|y rest]]; [by apply elem_of_nil in H1| |eauto].
  apply list_elem_of_singleton in H1, H2. congruence.
Qed.

Lemma check_dependencies_ambiguous (entry : ManifestEntry)
    (manifest : Manifest) (statuses : gmap string string)
    (before after : list string) (dep : string) :
  Forall (resolved_verified manifest statuses) before →
  ambiguous manifest dep →
  ∃ ids,
    Adapter.check_dependencies entry (Adapter.build_lookup (plans manifest))
      statuses (before ++ dep :: after)
    = inl (ValueError (Adapter.ambiguous_message dep entry ids)).
Proof.
  intros Hbefore Hamb. induction Hbefore as [|d before Hd _ IH]; simpl.
  - destruct (ambiguous_lookup _ _ Hamb) as (ids & x & y & rest & -> & ->).
    by exists ids.
  - destruct Hd as (target & -> & Hver). rewrite elements_singleton.
    unfold Adapter.status_is. by rewrite bool_decide_eq_true_2.
Qed.

Section raising.
Variables (manifest : Manifest) (statuses : gmap string string).
Variables (wave : option Z) (plan_id : option string).

(** An exception of [select_eligible] is an ambiguity error. *)
Definition ambiguity_error (e : Error) : Prop :=
  ∃ dep entry ids, e = ValueError (Adapter.ambiguous_message dep entry ids).

Lemma check_dependencies_error (entry : ManifestEntry)
    (lookup : gmap string (gset string)) (deps : list string) (e : Error) :
  Adapter.check_dependencies entry lookup statuses deps = inl e →
  ambiguity_error e.
Proof.
  induction deps as [|dep rest IH]; simpl; [done|].
  destruct (lookup !! _) as [ids|]; [|done].
  destruct (elements ids) as [|x [|y l]]; [done| |].
  - by destruct (Adapter.status_is _ _ _).
  - intros [= <-]. by eexists _, _, _.
Qed.

Lemma select_eligible_error (entries : list ManifestEntry) (e : Error) :
  Adapter.select_eligible manifest statuses wave plan_id entries = inl e →
  ambiguity_error e.
Proof.
  induction entries as [|entry rest IH]; simpl; [done|].
  destruct (negb _); [done|].
  destruct (match plan_id with Some _ => _ | None => _ end); [done|].
  destruct (match wave with Some _ => _ | None => _ end); [done|].
  destruct (negb _); [done|].
  destruct (Adapter._dependencies_verified entry manifest statuses)
    as [err|met] eqn:Hdeps; simpl.
  { intros [= <-]. unfold Adapter._dependencies_verified in Hdeps.
    destruct (Entry.depends_on entry); [done|].
    by eapply check_dependencies_error. }
  destruct (Adapter.select_eligible _ _ _ _ rest); simpl; [|done].
  intros [= <-]. by apply IH.
Qed.

(** A plan that reaches its dependency check and fails it with an exception
    makes the whole selection raise. *)
Lemma select_eligible_raises (entries : list ManifestEntry)
    (entry : ManifestEntry) (err : Error) :
  entry ∈ entries →
  statuses !! Entry.plan_id entry = Some "pending" →
  passes_filters wave plan_id entry →
  lower_waves_done manifest statuses entry →
  Adapter._dependencies_verified entry manifest statuses = inl err →
  ∃ e, Adapter.select_eligible manifest statuses wave plan_id entries = inl e.
Proof.
  intros Hin Hpend [Hid Hwave] Hlow Hdeps.
  induction entries as [|e rest IH]; [by apply elem_of_nil in Hin|].
  simpl.
  destruct (negb (Adapter.status_is statuses (Entry.plan_id e) "pending"))
    eqn:Hp.
  { apply elem_of_cons in Hin as [->|Hin]; [|by apply IH].
    unfold Adapter.status_is in Hp.
    by rewrite bool_decide_eq_true_2 in Hp. }
  destruct (match plan_id with Some _ => _ | None => _ end) eqn:Hf1.
  { apply elem_of_cons in Hin as [->|Hin]; [|by apply IH].
    destruct plan_id as [wanted|]; [|done].
    apply andb_true_iff in Hf1 as [Hne Hdiff].
    apply negb_true_iff, String.eqb_neq in Hne, Hdiff.
    by specialize (Hid wanted eq_refl Hne). }
  destruct (match wave with Some _ => _ | None => _ end) eqn:Hf2.
  { apply elem_of_cons in Hin as [->|Hin]; [|by apply IH].
    destruct wave as [wanted|]; [|done].
    apply negb_true_iff, Z.eqb_neq in Hf2.
    by specialize (Hwave wanted eq_refl). }
  destruct (negb (Adapter._lower_waves_verified e manifest statuses)) eqn:Hl.
  { apply elem_of_cons in Hin as [->|Hin]; [|by apply IH].
    apply negb_true_iff in Hl.
    by rewrite (proj2 (lower_waves_verified_iff _ _ _) Hlow) in Hl. }
  destruct (Adapter._dependencies_verified e manifest statuses)
    as [err'|met] eqn:Hd; simpl; [by eexists|].
  apply elem_of_cons in Hin as [->|Hin]; [congruence|].
  destruct (IH Hin) as [e' ->]. by eexists.
Qed.

End raising.

(** The claim at one manifest: an ambiguous dependency of a pending plan
    makes the computation raise. *)
Definition ambiguity_always_raises (now : string) (manifest : Manifest)
    (state_dir : string) (files : Files) (wave : option Z)
    (plan_id : option string) : Prop :=
  ∀ statuses entry dep,
    Adapter._current_status_by_plan now manifest state_dir files
    = inr statuses →
    entry ∈ plans manifest →
    statuses !! Entry.plan_id entry = Some "pending" →
    dep ∈ Entry.depends_on entry →
    ambiguous manifest dep →
    ∃ e, Adapter.get_eligible_plans now manifest state_dir files wave plan_id
         = inl e.

Lemma number_one_is_ambiguous (plan_id status : string) :
  names_plan (Adapter.normalize "1") (Fixture.entry plan_id 1 1 status []).
Proof.
  split; [done|]. by apply list_elem_of_further, list_elem_of_here.
Qed.

(** Plan c depends on "1", a number two plans carry.  Behind an unfinished
    lower wave, or behind a filter that leaves c out, the dependency is never
    looked at and plans are returned. *)
Lemma ambiguity_not_always_raised :
  Fixture.eligible_ids Fixture.ambiguous_later None None = inr ["a"]
  ∧ ¬ ambiguity_always_raises (Iso8601.format Fixture.t0)
        (Fixture.manifest_of Fixture.ambiguous_later) Fixture.state_dir
        (Fixture.state_files Fixture.ambiguous_later) None None
  ∧ Fixture.eligible_ids Fixture.ambiguous_now None (Some "d") = inr ["d"]
  ∧ ¬ ambiguity_always_raises (Iso8601.format Fixture.t0)
        (Fixture.manifest_of Fixture.ambiguous_now) Fixture.state_dir
        (Fixture.state_files Fixture.ambiguous_now) None (Some "d").
Proof.
  split_and!; [by vm_compute| |by vm_compute|].
  - intros Hclaim.
    destruct (Adapter._current_status_by_plan (Iso8601.format Fixture.t0)
                (Fixture.manifest_of Fixture.ambiguous_later)
                Fixture.state_dir (Fixture.state_files Fixture.ambiguous_later))
      as [e|statuses] eqn:Hcol; [by vm_compute in Hcol|].
    destruct (Hclaim statuses Fixture.plan_c2 "1" Hcol) as [e He].
    + by do 2 apply list_elem_of_further; apply list_elem_of_here.
    + eapply (live_status_is _ _ _ _ _ Fixture.plan_c2); [done| |by vm_compute|done].
      by do 2 apply list_elem_of_further; apply list_elem_of_here.
    + by apply list_elem_of_here.
    + exists (Fixture.entry "a" 1 1 "pending" []),
             (Fixture.entry "b" 1 1 "verified" []).
      split_and!; [by apply list_elem_of_here
                  |by apply list_elem_of_further, list_elem_of_here
                  |done|apply number_one_is_ambiguous..].
    + by vm_compute in He.
  - intros Hclaim.
    destruct (Adapter._current_status_by_plan (Iso8601.format Fixture.t0)
                (Fixture.manifest_of Fixture.ambiguous_now)
                Fixture.state_dir (Fixture.state_files Fixture.ambiguous_now))
      as [e|statuses] eqn:Hcol; [by vm_compute in Hcol|].
    destruct (Hclaim statuses Fixture.plan_c "1" Hcol) as [e He].
    + by do 2 apply list_elem_of_further; apply list_elem_of_here.
    + eapply (live_status_is _ _ _ _ _ Fixture.plan_c); [done| |by vm_compute|done].
      by do 2 apply list_elem_of_further; apply list_elem_of_here.
    + by apply list_elem_of_here.
    + exists (Fixture.entry "a" 1 1 "verified" []),
             (Fixture.entry "b" 1 1 "verified" []).
      split_and!; [by apply list_elem_of_here
                  |by apply list_elem_of_further, list_elem_of_here
                  |done|apply number_one_is_ambiguous..].
    + by vm_compute in He.
Qed.

(** C4, amended.  A pending plan that passes the caller's filters and has
    every lower wave verified reaches its dependency check; if one of its
    [depends_on] tokens matches more than one distinct plan id, and the
    tokens before it each resolve to one verified plan, the eligibility
    computation raises an ambiguity error and returns no plans. *)
Theorem ambiguous_dependency_raises (now : string) (manifest : Manifest)
    (state_dir : string) (files : Files) (wave : option Z)
    (plan_id : option string) (statuses : gmap string string)
    (entry : ManifestEntry) (before after : list string) (dep : string) :
  Adapter._current_status_by_plan now manifest state_dir files = inr statuses →
  entry ∈ plans manifest →
  statuses !! Entry.plan_id entry = Some "pending" →
  passes_filters wave plan_id entry →
  lower_waves_done manifest statuses entry →
  Entry.depends_on entry = before ++ dep :: after →
  Forall (resolved_verified manifest statuses) before →
  ambiguous manifest dep →
  ∃ e, Adapter.get_eligible_plans now manifest state_dir files wave plan_id
       = inl e
       ∧ ambiguity_error e.
Proof.
  intros Hcol Hin Hpend Hfilter Hlow Hdeps Hbefore Hamb.
  destruct (check_dependencies_ambiguous entry manifest statuses before after
              dep Hbefore Hamb) as [ids Hcheck].
  assert (Adapter._dependencies_verified entry manifest statuses
          = inl (ValueError (Adapter.ambiguous_message dep entry ids)))
    as Hraise.
  { unfold Adapter._dependencies_verified. rewrite Hdeps.
    by destruct before. }
  destruct (select_eligible_raises manifest statuses wave plan_id
              (plans manifest) entry _ Hin Hpend Hfilter Hlow Hraise)
    as [e He].
  exists e. unfold Adapter.get_eligible_plans. rewrite Hcol. simpl.
  split; [done|]. by eapply select_eligible_error.
Qed.

Lemma ambiguous_dependency_raises_witness :
  ∃ e,
    Adapter.get_eligible_plans (Iso8601.format Fixture.t0)
      (Fixture.manifest_of Fixture.ambiguous_now) Fixture.state_dir
      (Fixture.state_files Fixture.ambiguous_now) None None = inl e
    ∧ ambiguity_error e.
Proof.
  destruct (Adapter._current_status_by_plan (Iso8601.format Fixture.t0)
              (Fixture.manifest_of Fixture.ambiguous_now)
              Fixture.state_dir (Fixture.state_files Fixture.ambiguous_now))
    as [e|statuses] eqn:Hcol; [by vm_compute in Hcol|].
  apply (ambiguous_dependency_raises _ _ _ _ None None statuses
           Fixture.plan_c [] [] "1" Hcol).
  - by do 2 apply list_elem_of_further; apply list_elem_of_here.
  - eapply (live_status_is _ _ _ _ _ Fixture.plan_c); [done| |by vm_compute|done].
    by do 2 apply list_elem_of_further; apply list_elem_of_here.
  - by split.
  - intros other Hin Hlt. exfalso.
    repeat (apply elem_of_cons in Hin as [->|Hin]; [by vm_compute in Hlt|]).
    by apply elem_of_nil in Hin.
  - done.
  - by apply Forall_nil.
  - exists (Fixture.entry "a" 1 1 "verified" []),
           (Fixture.entry "b" 1 1 "verified" []).
    split_and!; [by apply list_elem_of_here
                |by apply list_elem_of_further, list_elem_of_here
                |done|apply number_one_is_ambiguous..].
Defined.

(* ===================================================================== *)
(** * Resuming a plan *)
(* ===================================================================== *)

Section resume.
Context `{Datetime}.

(** [lease_seconds] from now on, a lease held by [run_id]. *)
Definition new_lease (now : string) (now_epoch : Z) (run_id : string)
    : JDict :=
  [ ("run_id", JStr run_id); ("acquired_at", JStr now);
    ("expires_at",
     JStr (utc_isoformat (now_epoch + seconds DEFAULT_LOCK_LEASE_SECONDS))) ].

Definition takeover_note (now : string) (run_id : string) (held : JDict)
    : JDict :=
  [ ("event", JStr "lease_expired_takeover");
    ("previous_run_id", default (JStr "unknown") (dict_get "run_id" held));
    ("previous_acquired_at", default (JStr "") (dict_get "acquired_at" held));
    ("previous_expires_at", default (JStr "") (dict_get "expires_at" held));
    ("taken_over_at", JStr now);
    ("new_run_id", JStr run_id) ].

Definition handoff_note (now : string) (run_id : string) (held : JDict)
    : JDict :=
  [ ("event", JStr "lease_handoff");
    ("previous_run_id", default JNull (dict_get "run_id" held));
    ("taken_over_at", JStr now);
    ("new_run_id", JStr run_id) ].

(** The lease is held under a run identity, and not that of [run_id]. *)
Definition held_by_other (held : JDict) (run_id : string) : Prop :=
  ∃ holder, dict_get "run_id" held = Some holder
            ∧ truthy holder = true ∧ eq_str holder run_id = false.

(** The recovery note a resume by [run_id] leaves: none without a lease, a
    takeover note for an expired lease, a handoff note otherwise. *)
Definition resume_notes (a : Adapter.Ambient) (run_id : string)
    (s : PlanState) : list JDict :=
  match lock s with
  | None => []
  | Some held =>
      if Adapter._lease_is_expired (Adapter.now_epoch a 0) held
      then [takeover_note (Adapter.now_iso a 3) run_id held]
      else [handoff_note (Adapter.now_iso a 2) run_id held]
  end.

Lemma run_id_of_actual (a : Adapter.Ambient) (info : option JDict)
    (run_id : string) :
  Adapter.run_id_of a info = inr run_id →
  (if String.eqb run_id "" then Adapter.uuid4 a else run_id) = run_id.
Proof.
  destruct (String.eqb_spec run_id "") as [->|]; [|done].
  unfold Adapter.run_id_of.
  destruct (dict_get "run_id" (default [] info)) as [v|];
    [|by intros [= ->]].
  destruct v as [|b|n|r|l|d]; simpl.
  - by intros [= ->].
  - destruct b; [done|by intros [= ->]].
  - destruct (negb (n =? 0)); [done|by intros [= ->]].
  - destruct (String.eqb_spec r ""); intros [= Heq]; congruence.
  - destruct (negb _); [done|by intros [= ->]].
  - destruct d; [by intros [= ->]|done].
Qed.

Lemma acquire_lease_free (now : string) (now_epoch : Z) (fresh run_id : string)
    (s : PlanState) :
  lock s = None →
  (if String.eqb run_id "" then fresh else run_id) = run_id →
  acquire_lease now now_epoch fresh (Some run_id) DEFAULT_LOCK_LEASE_SECONDS s
  = Returned (set_updated_at now
                (set_lock (Some (new_lease now now_epoch run_id)) s)).
Proof.
  intros Hfree Hrun. unfold acquire_lease. by rewrite Hfree, Hrun.
Qed.

(** An expired lease stays expired while the clock does not run backwards. *)
Lemma expired_at_acquire (t0 t1 : Z) (held : JDict) :
  Adapter._lease_is_expired t0 held = true →
  t0 ≤ t1 →
  match expires_dt (default (JStr "") (dict_get "expires_at" held)) with
  | Some t => (t1 <? t) = false
  | None => True
  end.
Proof.
  unfold Adapter._lease_is_expired, expires_dt. intros Hexp Hle.
  destruct (dict_get "expires_at" held) as [[| | |e| |]|]; simpl; try done.
  - destruct (iso_timestamp e) as [t|]; [|done].
    apply Z.leb_le in Hexp. apply Z.ltb_ge. lia.
  - by rewrite iso_timestamp_empty.
Qed.

Lemma acquire_lease_expired (now : string) (t0 t1 : Z)
    (fresh run_id : string) (s : PlanState) (held : JDict) :
  lock s = Some held →
  Adapter._lease_is_expired t0 held = true →
  t0 ≤ t1 →
  (if String.eqb run_id "" then fresh else run_id) = run_id →
  acquire_lease now t1 fresh (Some run_id) DEFAULT_LOCK_LEASE_SECONDS s
  = Returned
      (set_updated_at now
         (set_lock (Some (new_lease now t1 run_id))
            (set_recovery_notes
               (recovery_notes s ++ [takeover_note now run_id held]) s))).
Proof.
  intros Hheld Hexp Hle Hrun. unfold acquire_lease. rewrite Hheld, Hrun.
  pose proof (expired_at_acquire _ _ _ Hexp Hle) as Hacq.
  destruct (expires_dt _) as [t|]; [by rewrite Hacq|done].
Qed.

(** C5, amended.  A blocked or failed state that passes the drift check is
    resumed, and the resuming run holds the lease afterwards, whenever the
    lease in the state, if it is not expired, is held under another run
    identity: then a handoff note is recorded and the old lease is cleared
    before the new one is acquired.  An expired lease is taken over with a
    takeover note that names the previous holder.  The clock is not to run
    backwards between the expiry check and the acquisition. *)
Theorem resume_takes_over_lease (a : Adapter.Ambient) (path : string)
    (info : option JDict) (files : Files) (s : PlanState) (run_id : string) :
  Adapter.load (Adapter.now_iso a 0) path files = inr s →
  status s = "blocked" ∨ status s = "failed" →
  Adapter._ensure_no_source_drift a path files s = Returned s →
  Adapter.run_id_of a info = inr run_id →
  Adapter.now_epoch a 0 ≤ Adapter.now_epoch a 1 →
  (∀ held, lock s = Some held →
           Adapter._lease_is_expired (Adapter.now_epoch a 0) held = false →
           held_by_other held run_id) →
  ∃ s',
    Adapter.resume_execution a path info files
    = (inr s', <[ path := Json (JObj (to_dict s')) ]> files)
    ∧ status s' = "executing"
    ∧ lock s'
      = Some (new_lease (Adapter.now_iso a 3) (Adapter.now_epoch a 1) run_id)
    ∧ recovery_notes s' = recovery_notes s ++ resume_notes a run_id s.
Proof.
  intros Hload Hst Hdrift Hrun Hclock Hother.
  pose proof (run_id_of_actual _ _ _ Hrun) as Hactual.
  assert (in_table (status s) "executing") as Htable
    by (unfold in_table; tauto).
  assert (∃ s1,
            acquire_lease (Adapter.now_iso a 3) (Adapter.now_epoch a 1)
              (Adapter.uuid4 a) (Some run_id) DEFAULT_LOCK_LEASE_SECONDS
              (Adapter.handoff a run_id s) = Returned s1
            ∧ status s1 = status s
            ∧ lock s1
              = Some (new_lease (Adapter.now_iso a 3) (Adapter.now_epoch a 1)
                        run_id)
            ∧ recovery_notes s1 = recovery_notes s ++ resume_notes a run_id s)
    as (s1 & Hacq & Hst1 & Hlock1 & Hnotes1).
  { unfold Adapter.handoff, resume_notes.
    destruct (lock s) as [held|] eqn:Hheld.
    - destruct (Adapter._lease_is_expired (Adapter.now_epoch a 0) held)
        eqn:Hexp.
      + rewrite andb_false_r. eexists. split.
        { by eapply acquire_lease_expired. }
        done.
      + destruct (Hother held eq_refl Hexp) as (holder & Hget & Htrue & Hne).
        assert (truthy (JObj held) = true) as ->.
        { destruct held; [done|done]. }
        rewrite Hget, Htrue, Hne. cbn [andb negb]. eexists. split.
        { by apply acquire_lease_free. }
        unfold handoff_note. rewrite Hget. done.
    - eexists. split; [by apply acquire_lease_free|].
      by rewrite app_nil_r. }
  eexists. split.
  { unfold Adapter.resume_execution. eapply locked_update_returned; [done|].
    rewrite bool_decide_eq_true_2; cycle 1.
    { destruct Hst as [-> | ->];
        [apply list_elem_of_here|apply list_elem_of_further, list_elem_of_here]. }
    cbn [and_then]. rewrite Hdrift. cbn [and_then].
    unfold Adapter.with_run_id. rewrite Hrun, Hacq. cbn [and_then].
    apply transition_accepts. by rewrite Hst1. }
  cbn. by rewrite Hlock1, Hnotes1.
Qed.

End resume.

(** The claim at one state file: resume succeeds and the resuming run holds
    the lease. *)
Definition resume_succeeds `{Datetime} (a : Adapter.Ambient) (path : string)
    (info : option JDict) (files : Files) : Prop :=
  ∀ s run_id,
    Adapter.load (Adapter.now_iso a 0) path files = inr s →
    status s = "blocked" ∨ status s = "failed" →
    Adapter._ensure_no_source_drift a path files s = Returned s →
    Adapter.run_id_of a info = inr run_id →
    ∃ s', (Adapter.resume_execution a path info files).1 = inr s'
          ∧ (lock s' ≫= dict_get "run_id") = Some (JStr run_id).

(** Whatever the calendar: the run that holds an unexpired lease cannot
    resume its own plan, [acquire_lease] turns it away. *)
Lemma resume_by_holder_rejected `{Datetime} (a : Adapter.Ambient)
    (path : string) (info : option JDict) (files : Files) (s : PlanState)
    (run_id expires_at : string) (held : JDict) (t : Z) :
  Adapter.load (Adapter.now_iso a 0) path files = inr s →
  status s = "blocked" ∨ status s = "failed" →
  Adapter._ensure_no_source_drift a path files s = Returned s →
  Adapter.run_id_of a info = inr run_id →
  lock s = Some held →
  dict_get "run_id" held = Some (JStr run_id) →
  dict_get "expires_at" held = Some (JStr expires_at) →
  iso_timestamp expires_at = Some t →
  Adapter.now_epoch a 0 < t →
  Adapter.now_epoch a 1 < t →
  rejected (Adapter.resume_execution a path info) files.
Proof.
  intros Hload Hst Hdrift Hrun Hheld Hholder Hexpires Hparse Ht0 Ht1.
  eexists. unfold Adapter.resume_execution.
  eapply locked_update_raised; [done|].
  rewrite bool_decide_eq_true_2; cycle 1.
  { destruct Hst as [-> | ->];
      [apply list_elem_of_here|apply list_elem_of_further, list_elem_of_here]. }
  cbn [and_then]. rewrite Hdrift. cbn [and_then].
  unfold Adapter.with_run_id. rewrite Hrun.
  assert (Adapter.handoff a run_id s = s) as ->.
  { unfold Adapter.handoff. rewrite Hheld, Hholder. simpl.
    rewrite String.eqb_refl. by rewrite andb_false_r; destruct (_ && _). }
  unfold acquire_lease. rewrite Hheld, Hexpires. simpl. rewrite Hparse.
  by apply Z.ltb_lt in Ht1 as ->.
Qed.

#[local] Existing Instance Iso8601.datetime.

(** Run-1 blocks its plan and resumes it within the hour of its lease. *)
Lemma resume_by_holder_fails :
  (Adapter.resume_execution (Fixture.later 30) Fixture.state_path
     (Fixture.by_run "run-1") Fixture.blocked).1
  = inl (ValueError
           "Plan p1 is already leased by run_id=run-1 until 2026-11-04T13:30:00+00:00")
  ∧ ¬ resume_succeeds (Fixture.later 30) Fixture.state_path
        (Fixture.by_run "run-1") Fixture.blocked.
Proof.
  split; [by vm_compute|].
  intros Hclaim.
  destruct (Adapter.load (Adapter.now_iso (Fixture.later 30) 0)
              Fixture.state_path Fixture.blocked) as [e|s] eqn:Hload;
    [by vm_compute in Hload|].
  destruct (Hclaim s "run-1" Hload) as (s' & Hresume & _).
  - vm_compute in Hload. injection Hload as <-. by left.
  - done.
  - done.
  - by vm_compute in Hresume.
Qed.

Lemma resume_takes_over_lease_witness :
  ∃ s s',
    Adapter.load (Adapter.now_iso (Fixture.later 30) 0) Fixture.state_path
      Fixture.blocked = inr s
    ∧ status s = "blocked"
    ∧ (lock s ≫= dict_get "run_id") = Some (JStr "run-1")
    ∧ (Adapter.resume_execution (Fixture.later 30) Fixture.state_path
         (Fixture.by_run "run-2") Fixture.blocked).1 = inr s'
    ∧ (lock s' ≫= dict_get "run_id") = Some (JStr "run-2")
    ∧ recovery_notes s'
      = [ [ ("event", JStr "lease_handoff");
            ("previous_run_id", JStr "run-1");
            ("taken_over_at", JStr "2026-11-04T12:30:00.032000+00:00");
            ("new_run_id", JStr "run-2") ] ].
Proof.
  destruct (Adapter.load (Adapter.now_iso (Fixture.later 30) 0)
              Fixture.state_path Fixture.blocked) as [e|s] eqn:Hload;
    [by vm_compute in Hload|].
  assert (s = ltac:(let t := eval vm_compute in
                      (match Adapter.load
                               (Adapter.now_iso (Fixture.later 30) 0)
                               Fixture.state_path Fixture.blocked with
                       | inr s => s
                       | inl _ => init_state "" "" "" "" 0
                       end) in exact t)) as Hs.
  { vm_compute in Hload. by injection Hload as <-. }
  destruct (@resume_takes_over_lease Iso8601.datetime (Fixture.later 30)
              Fixture.state_path (Fixture.by_run "run-2") Fixture.blocked
              s "run-2" Hload) as (s' & Hcall & _ & Hlock & Hnotes).
  - left. by rewrite Hs.
  - done.
  - done.
  - by vm_compute.
  - intros held Hheld _. rewrite Hs in Hheld. injection Hheld as <-.
    exists (JStr "run-1"). split_and!; reflexivity.
  - exists s, s'. rewrite Hcall, Hlock, Hnotes, Hs.
    split_and!; vm_compute; reflexivity.
Defined.

(* ===================================================================== *)
(** * The completed tasks under every mutation *)
(* ===================================================================== *)



(** Duplicate-free and sorted. *)
Definition in_order (tasks : list Z) : Prop := NoDup tasks ∧ Sorted Z.le tasks.

(** Positive, and at most [total_tasks]. *)
Definition in_range (total_tasks : Z) (tasks : list Z) : Prop :=
  Forall (λ n, 1 ≤ n ≤ total_tasks) tasks.












Section invariant.
Context `{Datetime}.
Variable (s : PlanState).

(** What every mutation keeps of [s]: the number of tasks, the order of the
    completed tasks, their positivity, and their bound when it is checked. *)
Definition kept (checked : Prop) (s' : PlanState) : Prop :=
  total_tasks s' = total_tasks s
  ∧ (in_order (completed_tasks s) → in_order (completed_tasks s'))
  ∧ (checked → in_range (total_tasks s) (completed_tasks s) →
     in_range (total_tasks s) (completed_tasks s')).








End invariant.




(* ===================================================================== *)
(** * Writing a state and reading it back *)
(* ===================================================================== *)

Lemma dec_enc_opt_str (o : option string) : as_opt_str (enc_opt_str o) = Some o.
Proof. by destruct o. Qed.

Lemma dec_enc_opt_dict (o : option JDict) :
  as_opt_dict (enc_opt_dict o) = Some o.
Proof. by destruct o. Qed.

Lemma dec_enc_ints (l : list Z) : as_list as_int (JList (JInt <$> l)) = Some l.
Proof. simpl. by apply mapM_fmap_Some. Qed.

Lemma dec_enc_dicts (l : list JDict) :
  as_list as_dict (JList (JObj <$> l)) = Some l.
Proof. simpl. by apply mapM_fmap_Some. Qed.

Lemma dec_enc_strs (l : list string) :
  as_list as_str (JList (JStr <$> l)) = Some l.
Proof. simpl. by apply mapM_fmap_Some. Qed.

(** The constructor undoes [to_dict]. *)
Lemma construct_to_dict (s : PlanState) : construct (to_dict s) = inr s.
Proof.
  destruct s. unfold construct, field, to_dict.
  cbn [dict_get String.eqb Ascii.eqb Bool.eqb plan_id source_plan_path
       source_plan_hash status completed_tasks total_tasks last_run_at
       verification executor blocked_reason blocked_severity failure_reason
       lock recovery_notes cursor verify_quick last_error_output_path
       git_sha_before git_sha_after touched_paths schema_version created_at
       updated_at as_str as_int mbind result_bind].
  rewrite !dec_enc_opt_str, !dec_enc_opt_dict, dec_enc_ints, dec_enc_dicts,
    dec_enc_strs.
  reflexivity.
Qed.

Lemma filter_to_dict (s : PlanState) :
  filter (λ kv : string * JValue, kv.1 ∈ dataclass_fields) (to_dict s)
  = to_dict s.
Proof. by vm_compute. Qed.

(** Every verification tier is a list of results, as annotated. *)
Definition tiers_are_lists (s : PlanState) : Prop :=
  ∀ tiers, verification s = Some tiers →
           Forall (λ kv : string * JValue, ∃ results, kv.2 = JList results)
                  tiers.

(** [not reason] *)
Definition falsy (reason : option string) : Prop :=
  reason = None ∨ reason = Some "".

(** The shape the migration rewrites: a failed state that explains itself
    in [blocked_reason] and not in [failure_reason]. *)
Definition legacy_failed (s : PlanState) : Prop :=
  status s = "failed" ∧ falsy (failure_reason s) ∧ ¬ falsy (blocked_reason s).

Lemma truthy_enc_opt_str (o : option string) :
  truthy (enc_opt_str o) = false ↔ falsy o.
Proof.
  unfold falsy. destruct o as [r|]; simpl.
  - rewrite negb_false_iff, String.eqb_eq.
    split; [intros ->; by right|by intros [?|[= ->]]].
  - split; [by left|done].
Qed.

Lemma normalize_tiers (tiers : JDict) :
  Forall (λ kv : string * JValue, ∃ results, kv.2 = JList results) tiers →
  prod_map id normalize_tier <$> tiers = tiers.
Proof.
  induction 1 as [|[k v] tiers [results Hv] _ IH]; [done|].
  rewrite fmap_cons, IH. simpl in Hv. by subst v.
Qed.

Lemma normalize_verification_to_dict (s : PlanState) :
  tiers_are_lists s → normalize_verification (to_dict s) = to_dict s.
Proof.
  intros Htiers. unfold normalize_verification.
  change (dict_get "verification" (to_dict s))
    with (Some (enc_opt_dict (verification s))).
  destruct (verification s) as [tiers|] eqn:Hver; [|done]. simpl.
  rewrite normalize_tiers by by apply Htiers.
  unfold to_dict. rewrite Hver. reflexivity.
Qed.

Lemma move_blocked_reason_to_dict (s : PlanState) :
  ¬ legacy_failed s → move_blocked_reason (to_dict s) = to_dict s.
Proof.
  intros Hlegacy. unfold move_blocked_reason.
  change (dict_get "status" (to_dict s)) with (Some (JStr (status s))).
  change (dict_get "blocked_reason" (to_dict s))
    with (Some (enc_opt_str (blocked_reason s))).
  change (dict_get "failure_reason" (to_dict s))
    with (Some (enc_opt_str (failure_reason s))).
  cbn [default from_option id eq_str truthy_opt].
  destruct (String.eqb_spec (status s) "failed") as [Hfailed|]; [|done].
  destruct (truthy (enc_opt_str (failure_reason s))) eqn:Hfail; [done|].
  destruct (truthy (enc_opt_str (blocked_reason s))) eqn:Hblock; [|done].
  destruct Hlegacy. split_and!; [done|by apply truthy_enc_opt_str|].
  intros Hfalsy%truthy_enc_opt_str. congruence.
Qed.

Lemma upgrade_to_current_to_dict (s : PlanState) :
  outdated (JStr (schema_version s)) = false →
  upgrade_to_current (to_dict s) = to_dict s.
Proof.
  intros Hcurrent. unfold upgrade_to_current.
  change (dict_get "schema_version" (to_dict s))
    with (Some (JStr (schema_version s))).
  cbn [default from_option id]. by rewrite Hcurrent.
Qed.

Lemma from_dict_to_dict (now : string) (s : PlanState) :
  tiers_are_lists s → ¬ legacy_failed s →
  outdated (JStr (schema_version s)) = false →
  from_dict now (to_dict s) = inr (post_init now s).
Proof.
  intros Htiers Hlegacy Hcurrent. unfold from_dict, migrate_legacy_plan_state.
  rewrite filter_to_dict, normalize_verification_to_dict,
    move_blocked_reason_to_dict, upgrade_to_current_to_dict by done.
  by rewrite construct_to_dict.
Qed.

(** The claim at one state: what is read back is the state written, up to
    [updated_at]. *)
Definition round_trips (now_w now_r path : string) (s : PlanState)
    (files : Files) : Prop :=
  ∃ stamp,
    read_state now_r path (write_state now_w path s files).2
    = inr (Some (set_updated_at stamp s)).

(** A state patched to failed with its explanation in [blocked_reason] is
    read back with the explanation moved to [failure_reason]. *)
Lemma failed_state_is_migrated_on_read :
  ∃ s s',
    Fixture.patched_to_failed = inr s
    ∧ status s = "failed"
    ∧ blocked_reason s = Some "tests are red" ∧ failure_reason s = None
    ∧ read_state "2026-11-04T12:31:00+00:00" Fixture.state_path
        (write_state "2026-11-04T12:30:30+00:00" Fixture.state_path s ∅).2
      = inr (Some s')
    ∧ blocked_reason s' = None ∧ failure_reason s' = Some "tests are red"
    ∧ ¬ round_trips "2026-11-04T12:30:30+00:00" "2026-11-04T12:31:00+00:00"
          Fixture.state_path s ∅.
Proof.
  destruct Fixture.patched_to_failed as [e|s] eqn:Hs;
    [by vm_compute in Hs|].
  destruct (read_state "2026-11-04T12:31:00+00:00" Fixture.state_path
              (write_state "2026-11-04T12:30:30+00:00" Fixture.state_path
                 s ∅).2) as [e|[s'|]] eqn:Hread;
    vm_compute in Hs; injection Hs as <-;
    [by vm_compute in Hread| |by vm_compute in Hread].
  vm_compute in Hread. injection Hread as <-.
  eexists _, _. split_and!; try done.
  intros [stamp Hround]. by vm_compute in Hround.
Qed.

(** C8, amended.  A state of the current schema version, with a creation
    time, whose verification tiers are lists and which is not a failed state
    explained in [blocked_reason] alone, is read back as it was written, up
    to [updated_at]: that field holds the time of the write. *)
Theorem write_then_read_state (now_w now_r path : string) (s : PlanState)
    (files : Files) :
  created_at s ≠ "" →
  outdated (JStr (schema_version s)) = false →
  tiers_are_lists s →
  ¬ legacy_failed s →
  read_state now_r path (write_state now_w path s files).2
  = inr (Some (set_updated_at (if String.eqb now_w "" then now_r else now_w)
                 s)).
Proof.
  intros Hcreated Hcurrent Htiers Hlegacy.
  unfold read_state, write_state. cbn [snd]. rewrite lookup_insert_eq.
  assert (from_dict now_r (to_dict (set_updated_at now_w s))
          = inr (post_init now_r (set_updated_at now_w s))) as ->.
  { apply from_dict_to_dict; [exact Htiers|exact Hlegacy|exact Hcurrent]. }
  unfold post_init. cbn [created_at updated_at set_updated_at].
  apply String.eqb_neq in Hcreated as ->.
  change (updated_at (set_updated_at now_w s)) with now_w.
  by destruct (String.eqb now_w "").
Qed.

Lemma write_then_read_state_witness :
  ∃ s,
    Fixture.loaded Fixture.blocked = inr s
    ∧ read_state "2026-11-04T12:31:00+00:00" Fixture.state_path
        (write_state "2026-11-04T12:30:30+00:00" Fixture.state_path s ∅).2
      = inr (Some (set_updated_at "2026-11-04T12:30:30+00:00" s)).
Proof.
  destruct (Fixture.loaded Fixture.blocked) as [e|s] eqn:Hload;
    [by vm_compute in Hload|].
  exists s. split; [done|].
  vm_compute in Hload. injection Hload as <-.
  apply (write_then_read_state "2026-11-04T12:30:30+00:00"
           "2026-11-04T12:31:00+00:00" Fixture.state_path _ ∅).
  - done.
  - by vm_compute.
  - intros tiers [=].
  - intros (Hfailed & _). done.
Defined.

(* ===================================================================== *)
(** * Further properties of the adapter calls *)
(* ===================================================================== *)

(** ** Every call is all-or-nothing on its one file *)

(** The state-changing calls of the adapter, with their arguments. *)
Inductive Invocation : Type :=
| StartExecution (executor_info : option JDict)
| ResumeExecution (executor_info : option JDict)
| RenewLock (run_id : string)
| CompleteTaskOf (task_num : Z)
| AdvanceStepTo (step : Z)
| RecordVerificationOf (tier command : string) (exit_code : Z)
| MarkVerified
| MarkFailed (reason : string)
| MarkBlocked (reason severity : string)
| UpdateState (patch : JDict).

Definition invoke `{Datetime} (a : Adapter.Ambient) (state_path : string)
    (i : Invocation) : Adapter.Call :=
  match i with
  | StartExecution info => Adapter.start_execution a state_path info
  | ResumeExecution info => Adapter.resume_execution a state_path info
  | RenewLock run_id => Adapter.renew_lock a state_path run_id
  | CompleteTaskOf n => Adapter.complete_task a state_path n
  | AdvanceStepTo step => Adapter.advance_step a state_path step
  | RecordVerificationOf tier command exit_code =>
      Adapter.record_verification a state_path tier command exit_code
  | MarkVerified => Adapter.mark_verified a state_path
  | MarkFailed reason => Adapter.mark_failed a state_path reason
  | MarkBlocked reason severity =>
      Adapter.mark_blocked a state_path reason severity
  | UpdateState patch => Adapter.update_state a state_path patch
  end.




(* ===================================================================== *)
(** * What the scheduler returns *)
(* ===================================================================== *)

(** A plan the scheduler lets through: pending, selected by the filters,
    behind no unfinished wave, and with every dependency resolved to one
    verified plan. *)
Definition eligible_plan (manifest : Manifest) (statuses : gmap string string)
    (wave : option Z) (plan_id : option string) (entry : ManifestEntry)
    : Prop :=
  statuses !! Entry.plan_id entry = Some "pending"
  ∧ passes_filters wave plan_id entry
  ∧ lower_waves_done manifest statuses entry
  ∧ Forall (resolved_verified manifest statuses) (Entry.depends_on entry).

(** The checks of the loop of [get_eligible_plans] on one plan, an ambiguity
    counting as a refusal. *)
Definition let_through (manifest : Manifest) (statuses : gmap string string)
    (wave : option Z) (plan_id : option string) (entry : ManifestEntry)
    : bool :=
  Adapter.status_is statuses (Entry.plan_id entry) "pending"
  && negb match plan_id with
          | Some wanted => negb (String.eqb wanted "")
                           && negb (String.eqb (Entry.plan_id entry) wanted)
          | None => false
          end
  && negb match wave with
          | Some wanted => negb (Entry.wave entry =? wanted)
          | None => false
          end
  && Adapter._lower_waves_verified entry manifest statuses
  && match Adapter._dependencies_verified entry manifest statuses with
     | inr met => met
     | inl _ => false
     end.

Lemma select_eligible_cons (manifest : Manifest)
    (statuses : gmap string string) (wave : option Z)
    (plan_id : option string) (e : ManifestEntry)
    (rest eligible : list ManifestEntry) :
  Adapter.select_eligible manifest statuses wave plan_id (e :: rest)
  = inr eligible →
  ∃ others,
    Adapter.select_eligible manifest statuses wave plan_id rest = inr others
    ∧ eligible
      = if let_through manifest statuses wave plan_id e then e :: others
        else others.
Proof.
  intros Hsel. simpl in Hsel. unfold let_through.
  destruct (Adapter.status_is statuses (Entry.plan_id e) "pending");
    simpl in Hsel |- *; [|by exists eligible].
  destruct (match plan_id with Some _ => _ | None => _ end);
    simpl in Hsel |- *; [by exists eligible|].
  destruct (match wave with Some _ => _ | None => _ end);
    simpl in Hsel |- *; [by exists eligible|].
  destruct (Adapter._lower_waves_verified e manifest statuses);
    simpl in Hsel |- *; [|by exists eligible].
  destruct (Adapter._dependencies_verified e manifest statuses)
    as [err|met]; simpl in Hsel; [done|].
  destruct (Adapter.select_eligible manifest statuses wave plan_id rest)
    as [err|l]; simpl in Hsel; [done|].
  injection Hsel as <-. by exists l.
Qed.

Lemma select_eligible_filter (manifest : Manifest)
    (statuses : gmap string string) (wave : option Z)
    (plan_id : option string) (entries eligible : list ManifestEntry) :
  Adapter.select_eligible manifest statuses wave plan_id entries
  = inr eligible →
  eligible
  = filter (λ e, let_through manifest statuses wave plan_id e = true) entries.
Proof.
  revert eligible.
  induction entries as [|e rest IH]; intros eligible Hsel.
  { simpl in Hsel. by injection Hsel as <-. }
  apply select_eligible_cons in Hsel as (others & Hrest & ->).
  rewrite filter_cons, <- (IH others Hrest).
  by destruct (let_through manifest statuses wave plan_id e).
Qed.

Lemma elements_one (ids : gset string) (x : string) :
  elements ids = [x] → ids = {[ x ]}.
Proof.
  intros Hel. apply set_eq. intros y.
  rewrite <- elem_of_elements, Hel. set_solver.
Qed.

Lemma check_dependencies_met (entry : ManifestEntry) (manifest : Manifest)
    (statuses : gmap string string) (deps : list string) :
  Adapter.check_dependencies entry (Adapter.build_lookup (plans manifest))
    statuses deps = inr true
  ↔ Forall (resolved_verified manifest statuses) deps.
Proof.
  induction deps as [|dep rest IH]; simpl; [by split|].
  rewrite Forall_cons. unfold resolved_verified at 1.
  destruct (Adapter.build_lookup (plans manifest) !! Adapter.normalize dep)
    as [ids|] eqn:Hids; [|split; [done|by intros [(? & ? & _) _]]].
  destruct (elements ids) as [|x [|y more]] eqn:Hel.
  - split; [done|]. intros [(t & [= ->] & _) _].
    by rewrite elements_singleton in Hel.
  - apply elements_one in Hel as ->. unfold Adapter.status_is.
    case_bool_decide as Hv.
    + rewrite IH. split; [|by intros [_ ?]]. intros Hrest. split; [|done].
      by exists x.
    + split; [done|]. intros [(t & Heq & Ht) _].
      assert (({[ x ]} : gset string) = {[ t ]}) as Hxt by congruence.
      assert (x = t) as -> by set_solver. done.
  - split; [done|]. intros [(t & [= ->] & _) _].
    by rewrite elements_singleton in Hel.
Qed.

Lemma dependencies_verified_met (entry : ManifestEntry) (manifest : Manifest)
    (statuses : gmap string string) :
  Adapter._dependencies_verified entry manifest statuses = inr true
  ↔ Forall (resolved_verified manifest statuses) (Entry.depends_on entry).
Proof.
  unfold Adapter._dependencies_verified.
  destruct (Entry.depends_on entry) as [|dep rest] eqn:Hdeps; [by split|].
  apply check_dependencies_met.
Qed.

Lemma let_through_eligible_plan (manifest : Manifest)
    (statuses : gmap string string) (wave : option Z)
    (plan_id : option string) (entry : ManifestEntry) :
  let_through manifest statuses wave plan_id entry = true
  ↔ eligible_plan manifest statuses wave plan_id entry.
Proof.
  unfold let_through, eligible_plan, passes_filters.
  rewrite !andb_true_iff, !negb_true_iff, lower_waves_verified_iff.
  rewrite <- dependencies_verified_met.
  unfold Adapter.status_is. rewrite bool_decide_eq_true.
  assert (match Adapter._dependencies_verified entry manifest statuses with
          | inl _ => false
          | inr met => met
          end = true
          ↔ Adapter._dependencies_verified entry manifest statuses = inr true)
    as ->.
  { destruct (Adapter._dependencies_verified _ _ _) as [?|[]]; naive_solver. }
  assert (match plan_id with
          | Some wanted => negb (String.eqb wanted "")
                           && negb (String.eqb (Entry.plan_id entry) wanted)
          | None => false
          end = false
          ↔ ∀ wanted, plan_id = Some wanted → wanted ≠ "" →
                      Entry.plan_id entry = wanted) as ->.
  { destruct plan_id as [wanted|]; [|naive_solver].
    rewrite andb_false_iff, !negb_false_iff, !String.eqb_eq.
    split.
    - intros [->|<-]; naive_solver.
    - intros Hw. destruct (decide (wanted = "")); [by left|right].
      by apply Hw. }
  assert (match wave with
          | Some wanted => negb (Entry.wave entry =? wanted)
          | None => false
          end = false
          ↔ ∀ wanted, wave = Some wanted → Entry.wave entry = wanted) as ->.
  { destruct wave as [wanted|]; [|naive_solver].
    rewrite negb_false_iff, Z.eqb_eq. naive_solver. }
  naive_solver.
Qed.

(** X2.  When [get_eligible_plans] returns, it returns the manifest's plans
    that are pending, pass the filters, have every lower wave verified and
    every dependency resolved to one verified plan: all of them, each as
    often as the manifest lists it, and in the manifest's order. *)
Theorem eligible_plans_in_manifest_order (now : string) (manifest : Manifest)
    (state_dir : string) (files : Files) (wave : option Z)
    (plan_id : option string) (eligible : list ManifestEntry) :
  Adapter.get_eligible_plans now manifest state_dir files wave plan_id
  = inr eligible →
  ∃ statuses,
    Adapter._current_status_by_plan now manifest state_dir files = inr statuses
    ∧ eligible
      = filter (λ e, let_through manifest statuses wave plan_id e = true)
               (plans manifest)
    ∧ ∀ e, let_through manifest statuses wave plan_id e = true
           ↔ eligible_plan manifest statuses wave plan_id e.
Proof.
  unfold Adapter.get_eligible_plans. intros Hget.
  destruct (Adapter._current_status_by_plan now manifest state_dir files)
    as [err|statuses]; [done|].
  exists statuses. split_and!; [done| |].
  - by apply select_eligible_filter.
  - intros e. apply let_through_eligible_plan.
Qed.

Lemma head_filter {A} (P : A → Prop) `{∀ x, Decision (P x)} (l : list A) :
  match head (filter P l) with
  | Some x => ∃ before after,
                l = before ++ x :: after ∧ P x ∧ Forall (λ y, ¬ P y) before
  | None => Forall (λ y, ¬ P y) l
  end.
Proof.
  induction l as [|y l IH]; [by constructor|].
  rewrite filter_cons. destruct (decide (P y)) as [Hy|Hy]; simpl.
  - by exists [], l.
  - destruct (head (filter P l)) as [x|].
    + destruct IH as (before & after & -> & Hx & Hbefore).
      exists (y :: before), after. split_and!; [done..|by constructor].
    + by constructor.
Qed.

(** X3.  [get_next_plan] returns the first plan of the manifest that is
    eligible, and nothing exactly when no plan of the manifest is. *)
Theorem next_plan_is_first_eligible (now : string) (manifest : Manifest)
    (state_dir : string) (files : Files) (next : option ManifestEntry) :
  Adapter.get_next_plan now manifest state_dir files = inr next →
  ∃ statuses,
    Adapter._current_status_by_plan now manifest state_dir files = inr statuses
    ∧ match next with
      | Some entry =>
          ∃ before after,
            plans manifest = before ++ entry :: after
            ∧ eligible_plan manifest statuses None None entry
            ∧ Forall (λ e, ¬ eligible_plan manifest statuses None None e)
                     before
      | None =>
          Forall (λ e, ¬ eligible_plan manifest statuses None None e)
                 (plans manifest)
      end.
Proof.
  unfold Adapter.get_next_plan, Adapter.get_eligible_plans. intros Hnext.
  destruct (Adapter._current_status_by_plan now manifest state_dir files)
    as [err|statuses]; [done|].
  exists statuses. split; [done|]. simpl in Hnext.
  destruct (Adapter.select_eligible manifest statuses None None
              (plans manifest)) as [err|eligible] eqn:Hsel; [done|].
  injection Hnext as <-. apply select_eligible_filter in Hsel as ->.
  pose proof (head_filter
                (λ e, let_through manifest statuses None None e = true)
                (plans manifest)) as Hhead.
  destruct (head _) as [entry|].
  - destruct Hhead as (before & after & Hsplit & Hentry & Hbefore).
    exists before, after. split_and!; [done| |].
    + by apply let_through_eligible_plan.
    + eapply Forall_impl; [exact Hbefore|].
      intros e He. by rewrite <- let_through_eligible_plan.
  - eapply Forall_impl; [exact Hhead|].
    intros e He. by rewrite <- let_through_eligible_plan.
Qed.

(** A dependency token that one plan of the manifest answers to, and no
    plan with another id. *)
Definition names_one_verified (manifest : Manifest)
    (statuses : gmap string string) (dep : string) : Prop :=
  ∃ target,
    target ∈ plans manifest
    ∧ names_plan (Adapter.normalize dep) target
    ∧ statuses !! Entry.plan_id target = Some "verified"
    ∧ ∀ other, other ∈ plans manifest →
               names_plan (Adapter.normalize dep) other →
               Entry.plan_id other = Entry.plan_id target.

Lemma resolved_verified_names (manifest : Manifest)
    (statuses : gmap string string) (dep : string) :
  resolved_verified manifest statuses dep
  ↔ names_one_verified manifest statuses dep.
Proof.
  unfold resolved_verified, names_one_verified. split.
  - intros (t & Hlookup & Hv).
    assert (∀ x, x ∈ matched (Adapter.build_lookup (plans manifest))
                       (Adapter.normalize dep) ↔ x = t) as Hm.
    { intros x. unfold matched. rewrite Hlookup. simpl. set_solver. }
    destruct (proj1 (build_lookup_spec _ _ _) (proj2 (Hm t) eq_refl))
      as (target & Hin & -> & Hnames).
    exists target. split_and!; [done..|].
    intros other Hother Hno. apply Hm, build_lookup_spec. by exists other.
  - intros (target & Hin & Hnames & Hv & Honly).
    exists (Entry.plan_id target). split; [|done].
    assert (∀ x, x ∈ matched (Adapter.build_lookup (plans manifest))
                       (Adapter.normalize dep) ↔ x = Entry.plan_id target)
      as Hm.
    { intros x. rewrite build_lookup_spec. split.
      - intros (other & Hother & -> & Hno). by apply Honly.
      - intros ->. by exists target. }
    unfold matched in Hm.
    destruct (Adapter.build_lookup (plans manifest) !! Adapter.normalize dep)
      as [ids|].
    + f_equal. apply set_eq. intros x. rewrite (Hm x). set_solver.
    + specialize (Hm (Entry.plan_id target)). simpl in Hm. set_solver.
Qed.

(** X4.  Every dependency of a plan that [get_eligible_plans] returns is
    answered to by a plan of the manifest that is verified, and by no plan
    with another id: a token nobody answers to, or one whose plan is not yet
    verified, keeps the plan back. *)
Theorem eligible_plan_dependencies (now : string) (manifest : Manifest)
    (state_dir : string) (files : Files) (wave : option Z)
    (plan_id : option string) (statuses : gmap string string)
    (eligible : list ManifestEntry) (entry : ManifestEntry) (dep : string) :
  Adapter._current_status_by_plan now manifest state_dir files = inr statuses →
  Adapter.get_eligible_plans now manifest state_dir files wave plan_id
  = inr eligible →
  entry ∈ eligible →
  dep ∈ Entry.depends_on entry →
  names_one_verified manifest statuses dep.
Proof.
  unfold Adapter.get_eligible_plans. intros -> Hsel Hin Hdep. simpl in Hsel.
  destruct (select_eligible_sound _ _ _ _ _ _ _ Hsel Hin)
    as (_ & _ & _ & Hdeps).
  apply dependencies_verified_met in Hdeps.
  apply resolved_verified_names.
  by eapply list.Forall_forall in Hdeps.
Qed.

(** A verified plan and a pending plan of the same wave that depends on it. *)
Definition dependent_plans : list ManifestEntry :=
  [ Fixture.entry "a" 1 1 "verified" [];
    Fixture.entry "b" 1 2 "pending" ["01-phase:1"];
    Fixture.entry "c" 1 3 "pending" ["b"] ].

Lemma eligible_plans_in_manifest_order_witness :
  ∃ eligible statuses,
    Adapter.get_eligible_plans (Iso8601.format Fixture.t0)
      (Fixture.manifest_of Fixture.two_waves) Fixture.state_dir
      (Fixture.state_files Fixture.two_waves) None None = inr eligible
    ∧ eligible
      = filter (λ e, let_through (Fixture.manifest_of Fixture.two_waves)
                       statuses None None e = true)
               Fixture.two_waves
    ∧ Entry.plan_id <$> eligible = ["w1-a"; "w1-b"].
Proof.
  destruct (Adapter.get_eligible_plans (Iso8601.format Fixture.t0)
              (Fixture.manifest_of Fixture.two_waves) Fixture.state_dir
              (Fixture.state_files Fixture.two_waves) None None)
    as [e|eligible] eqn:Hget; [by vm_compute in Hget|].
  destruct (eligible_plans_in_manifest_order _ _ _ _ _ _ _ Hget)
    as (statuses & _ & Hfilter & _).
  exists eligible, statuses. split_and!; [done..|].
  vm_compute in Hget. by injection Hget as <-.
Defined.

Lemma next_plan_is_first_eligible_witness :
  ∃ entry before after,
    Adapter.get_next_plan (Iso8601.format Fixture.t0)
      (Fixture.manifest_of dependent_plans) Fixture.state_dir
      (Fixture.state_files dependent_plans) = inr (Some entry)
    ∧ Entry.plan_id entry = "b"
    ∧ dependent_plans = before ++ entry :: after.
Proof.
  destruct (Adapter.get_next_plan (Iso8601.format Fixture.t0)
              (Fixture.manifest_of dependent_plans) Fixture.state_dir
              (Fixture.state_files dependent_plans))
    as [e|[entry|]] eqn:Hnext;
    [by vm_compute in Hnext| |by vm_compute in Hnext].
  destruct (next_plan_is_first_eligible _ _ _ _ _ Hnext)
    as (statuses & _ & before & after & Hsplit & _).
  exists entry, before, after. split_and!; [done| |done].
  vm_compute in Hnext. by injection Hnext as <-.
Defined.

Lemma eligible_plan_dependencies_witness :
  ∃ statuses,
    Adapter._current_status_by_plan (Iso8601.format Fixture.t0)
      (Fixture.manifest_of dependent_plans) Fixture.state_dir
      (Fixture.state_files dependent_plans) = inr statuses
    ∧ names_one_verified (Fixture.manifest_of dependent_plans) statuses
        "01-phase:1".
Proof.
  destruct (Adapter._current_status_by_plan (Iso8601.format Fixture.t0)
              (Fixture.manifest_of dependent_plans) Fixture.state_dir
              (Fixture.state_files dependent_plans))
    as [e|statuses] eqn:Hcol; [by vm_compute in Hcol|].
  destruct (Adapter.get_eligible_plans (Iso8601.format Fixture.t0)
              (Fixture.manifest_of dependent_plans) Fixture.state_dir
              (Fixture.state_files dependent_plans) None None)
    as [e|eligible] eqn:Hget; [by vm_compute in Hget|].
  exists statuses. split; [done|].
  apply (eligible_plan_dependencies _ _ _ _ None None statuses eligible
           (Fixture.entry "b" 1 2 "pending" ["01-phase:1"]) _ Hcol Hget).
  - vm_compute in Hget. injection Hget as <-. apply list_elem_of_here.
  - apply list_elem_of_here.
Defined.

(* ===================================================================== *)
(** * The lease *)
(* ===================================================================== *)

Lemma dict_get_set {V} (k k' : string) (v : V) (d : list (string * V)) :
  dict_get k' (dict_set k v d)
  = if String.eqb k' k then Some v else dict_get k' d.
Proof.
  induction d as [|[k0 v0] d IH]; simpl.
  - by destruct (String.eqb k' k).
  - destruct (String.eqb k k0) eqn:Hk; simpl.
    + apply String.eqb_eq in Hk as <-. by destruct (String.eqb k' k).
    + rewrite IH. destruct (String.eqb k' k0) eqn:Hk0; [|done].
      apply String.eqb_eq in Hk0 as ->.
      by rewrite String.eqb_sym, Hk.
Qed.

Section lease_outcomes.
Context `{Datetime}.

(** The lease [acquire_lease] refuses to replace: one whose expiry parses
    and lies ahead. *)
Definition active_lease (now_epoch : Z) (s : PlanState) : Prop :=
  ∃ held t,
    lock s = Some held
    ∧ expires_dt (default (JStr "") (dict_get "expires_at" held)) = Some t
    ∧ now_epoch < t.

(** X5.  [acquire_lease] raises exactly when the plan carries a lease whose
    expiry parses and lies ahead, and then leaves the record untouched.
    Otherwise it installs a lease of [lease_seconds] for the run, notes the
    lease it replaced, if there was one, at the end of the recovery notes,
    and changes nothing else but [updated_at]. *)
Theorem acquire_lease_outcome (now : string) (now_epoch : Z) (fresh : string)
    (run_id : option string) (lease_seconds : Z) (s : PlanState) :
  let actual_run_id :=
    match run_id with
    | Some r => if String.eqb r "" then fresh else r
    | None => fresh
    end in
  match acquire_lease now now_epoch fresh run_id lease_seconds s with
  | Raised e s' => s' = s ∧ active_lease now_epoch s
  | Returned s' =>
      ¬ active_lease now_epoch s
      ∧ s' = set_updated_at now
               (set_lock
                  (Some [ ("run_id", JStr actual_run_id);
                          ("acquired_at", JStr now);
                          ("expires_at",
                           JStr (utc_isoformat
                                   (now_epoch + seconds lease_seconds))) ])
                  (set_recovery_notes
                     (recovery_notes s
                      ++ match lock s with
                         | Some held => [takeover_note now actual_run_id held]
                         | None => []
                         end)
                     s))
  end.
Proof.
  intros actual_run_id. unfold acquire_lease, active_lease.
  fold actual_run_id.
  destruct (lock s) as [held|] eqn:Hlock; simpl.
  - destruct (expires_dt (default (JStr "") (dict_get "expires_at" held)))
      as [t|] eqn:Ht; simpl.
    + destruct (now_epoch <? t) eqn:Hlt; simpl.
      * apply Z.ltb_lt in Hlt. split; [done|]. by exists held, t.
      * apply Z.ltb_ge in Hlt. split; [|done].
        intros (held' & t' & [= <-] & Ht' & Hlt'). rewrite Ht in Ht'.
        injection Ht' as <-. lia.
    + split; [|done]. intros (held' & t' & [= <-] & Ht' & _). congruence.
  - split; [by intros (? & ? & ? & _)|].
    rewrite app_nil_r. by destruct s.
Qed.

(** X6.  [renew_lease] returns exactly when the lease names the calling run,
    expired or not.  It then replaces the expiry and [updated_at] and nothing
    else; otherwise it raises and leaves the record untouched. *)
Theorem renew_lease_outcome (now_epoch : Z) (now run_id : string)
    (lease_seconds : Z) (s : PlanState) :
  match renew_lease now_epoch now run_id lease_seconds s with
  | Raised e s' =>
      s' = s ∧ (lock s ≫= dict_get "run_id") ≠ Some (JStr run_id)
  | Returned s' =>
      ∃ held,
        lock s = Some held
        ∧ dict_get "run_id" held = Some (JStr run_id)
        ∧ s' = set_updated_at now
                 (set_lock
                    (Some (dict_set "expires_at"
                             (JStr (utc_isoformat
                                      (now_epoch + seconds lease_seconds)))
                             held))
                    s)
        ∧ (lock s' ≫= dict_get "expires_at")
          = Some (JStr (utc_isoformat (now_epoch + seconds lease_seconds)))
        ∧ ∀ k, k ≠ "expires_at" →
               (lock s' ≫= dict_get k) = dict_get k held
  end.
Proof.
  unfold renew_lease. destruct (lock s) as [held|] eqn:Hlock; simpl; [|done].
  destruct (eq_str (default JNull (dict_get "run_id" held)) run_id) eqn:Heq;
    simpl.
  - apply eq_str_true in Heq. exists held.
    assert (dict_get "run_id" held = Some (JStr run_id)) as Hholder.
    { destruct (dict_get "run_id" held); simpl in Heq; by subst. }
    split_and!; [done..| |].
    + by rewrite dict_get_set.
    + intros k Hk. rewrite dict_get_set.
      destruct (String.eqb k "expires_at") eqn:Hkk; [|done].
      by apply String.eqb_eq in Hkk.
  - split; [done|]. intros Hholder. rewrite Hholder in Heq. simpl in Heq.
    by rewrite String.eqb_refl in Heq.
Qed.

End lease_outcomes.

(* ===================================================================== *)
(** * What no call changes *)
(* ===================================================================== *)

(** The fields that say which plan a state belongs to and what it was
    exported from. *)
Definition same_identity (s s' : PlanState) : Prop :=
  plan_id s' = plan_id s
  ∧ source_plan_path s' = source_plan_path s
  ∧ source_plan_hash s' = source_plan_hash s
  ∧ total_tasks s' = total_tasks s
  ∧ schema_version s' = schema_version s
  ∧ created_at s' = created_at s.

Lemma same_identity_refl (s : PlanState) : same_identity s s.
Proof. by unfold same_identity. Qed.

Lemma same_identity_trans (s x y : PlanState) :
  same_identity s x → same_identity x y → same_identity s y.
Proof.
  unfold same_identity. intros (? & ? & ? & ? & ? & ?) (? & ? & ? & ? & ? & ?).
  split_and!; congruence.
Qed.

Lemma same_identity_and_then (s : PlanState) (o : Outcome)
    (k : PlanState → Outcome) :
  same_identity s (object o) →
  (∀ x, same_identity x (object (k x))) →
  same_identity s (object (o >>> k)).
Proof.
  destruct o as [x|e x]; simpl; [|done].
  intros Hx Hk. by eapply same_identity_trans.
Qed.

Lemma same_identity_setattr (kwargs : list Kwarg) (s : PlanState) :
  same_identity s (foldl (λ st kw, setattr kw st) s kwargs).
Proof.
  revert s. induction kwargs as [|kw kwargs IH]; intros s;
    [apply same_identity_refl|].
  cbn [foldl]. eapply same_identity_trans; [|apply IH]. by destruct kw.
Qed.

Lemma same_identity_transition (t1 t2 new : string) (kwargs : list Kwarg)
    (s : PlanState) :
  same_identity s (object (transition t1 t2 new kwargs s)).
Proof.
  unfold transition. destruct (bool_decide _); [apply same_identity_refl|].
  cbn [object]. eapply same_identity_trans; [|apply same_identity_setattr].
  by destruct (String.eqb _ _); [|destruct (bool_decide _)].
Qed.

Lemma same_identity_acquire_lease `{Datetime} (now : string) (now_epoch : Z)
    (fresh : string) (run_id : option string) (lease_seconds : Z)
    (s : PlanState) :
  same_identity s (object (acquire_lease now now_epoch fresh run_id
                             lease_seconds s)).
Proof.
  unfold acquire_lease. destruct (lock s) as [held|]; [|done].
  destruct (expires_dt _) as [t|]; [|done].
  by destruct (_ <? _).
Qed.

Lemma same_identity_renew_lease `{Datetime} (now_epoch : Z)
    (now run_id : string) (lease_seconds : Z) (s : PlanState) :
  same_identity s (object (renew_lease now_epoch now run_id lease_seconds s)).
Proof.
  unfold renew_lease. destruct (lock s) as [held|]; [|done].
  by destruct (negb _).
Qed.

Lemma same_identity_patch_field {A} (name : string)
    (validate : JValue → Result A) (assign : A → PlanState → PlanState)
    (patch : JDict) (x : PlanState) :
  (∀ a y, same_identity y (assign a y)) →
  same_identity x (object (patch_field name validate assign patch x)).
Proof.
  intros Hassign. unfold patch_field.
  destruct (dict_get name patch) as [v|]; [|done].
  destruct (validate v) as [e|a]; [done|]. apply Hassign.
Qed.

Lemma same_identity_apply_state_patch (t1 t2 now : string) (patch : JDict)
    (s : PlanState) :
  same_identity s (object (apply_state_patch t1 t2 now patch s)).
Proof.
  unfold apply_state_patch. destruct (negb _); [done|].
  repeat (apply same_identity_and_then;
          [|try (intros x; apply same_identity_patch_field; done)]).
  - unfold patch_status.
    destruct (dict_get "status" patch) as [[| | |new| |]|]; try done.
    destruct (String.eqb _ _); [done|]. apply same_identity_transition.
  - done.
Qed.

Lemma same_identity_complete_task (now : string) (n : Z) (s : PlanState) :
  same_identity s (State.complete_task now n s).
Proof.
  unfold State.complete_task.
  destruct (bool_decide _); by destruct (_ <=? _).
Qed.

Lemma same_identity_invoke `{Datetime} (a : Adapter.Ambient)
    (state_path : string) (i : Invocation) (files : Files) :
  ∃ body w,
    invoke a state_path i files
    = Adapter.locked_update a state_path body w files
    ∧ ∀ s, same_identity s (object (body s)).
Proof.
  destruct i; simpl; eexists _, _; (split; [reflexivity|]); intros s.
  - repeat apply same_identity_and_then.
    + by destruct (String.eqb _ _).
    + intros x. unfold Adapter._ensure_no_source_drift.
      destruct (Adapter.source_digest a); [|done].
      by destruct (Adapter.check_drift a state_path files) as [|[]].
    + intros x. unfold Adapter.with_run_id.
      destruct (Adapter.run_id_of a executor_info); [done|].
      apply same_identity_and_then;
        [apply same_identity_and_then|]; [| |intros y].
      * apply same_identity_acquire_lease.
      * done.
      * apply same_identity_transition.
  - repeat apply same_identity_and_then.
    + by destruct (bool_decide _).
    + intros x. unfold Adapter._ensure_no_source_drift.
      destruct (Adapter.source_digest a); [|done].
      by destruct (Adapter.check_drift a state_path files) as [|[]].
    + intros x. unfold Adapter.with_run_id.
      destruct (Adapter.run_id_of a executor_info) as [|r]; [done|].
      apply same_identity_and_then.
      * eapply same_identity_trans; [|apply same_identity_acquire_lease].
        unfold Adapter.handoff. destruct (lock x) as [held|]; [|done].
        destruct (_ && _); [|done].
        destruct (dict_get "run_id" held) as [c|]; [|done].
        by destruct (_ && _).
      * intros y. apply same_identity_transition.
  - apply same_identity_renew_lease.
  - apply same_identity_and_then.
    + unfold Adapter._ensure_executing. by destruct (String.eqb _ _).
    + intros x. apply same_identity_complete_task.
  - apply same_identity_and_then.
    + unfold Adapter._ensure_executing. by destruct (String.eqb _ _).
    + intros x. unfold State.advance_step. by destruct (cursor x).
  - apply same_identity_and_then.
    + unfold Adapter._ensure_executing. by destruct (String.eqb _ _).
    + intros x. cbn [object]. unfold State.record_verification.
      destruct (_ && _); by destruct (negb _).
  - repeat apply same_identity_and_then.
    + unfold Adapter._ensure_executing. by destruct (String.eqb _ _).
    + intros x. by destruct (_ <? _).
    + intros x. by destruct (negb _).
    + done.
    + intros x. apply same_identity_transition.
    + done.
  - apply same_identity_and_then.
    + apply same_identity_transition.
    + done.
  - apply same_identity_transition.
  - apply same_identity_apply_state_patch.
Qed.

(** X7.  No adapter call changes which plan a state file describes: the
    state a call returns has the plan id, the source path and hash, the
    number of tasks, the schema version and the creation time that the call
    loaded. *)
Theorem adapter_calls_keep_identity `{Datetime} (a : Adapter.Ambient)
    (state_path : string) (i : Invocation) (files : Files)
    (s s' : PlanState) :
  Adapter.load (Adapter.now_iso a 0) state_path files = inr s →
  (invoke a state_path i files).1 = inr s' →
  same_identity s s'.
Proof.
  intros Hload.
  destruct (same_identity_invoke a state_path i files)
    as (body & w & -> & Hbody).
  unfold Adapter.locked_update. rewrite Hload. specialize (Hbody s).
  destruct (body s) as [x|e x]; simpl; [|done].
  intros [= <-]. eapply same_identity_trans; [exact Hbody|done].
Qed.

(** The plan of the examples under a lease of one hour for run-1. *)
Definition leased : PlanState :=
  set_lock (Some (new_lease (Iso8601.format Fixture.t0) Fixture.t0 "run-1"))
    (init_state (Iso8601.format Fixture.t0) "p1"
       ".planning/phases/01-setup/01-01-PLAN.md" "hash-p1" 2).


Lemma acquire_lease_outcome_witness :
  active_lease (Fixture.t0 + seconds 60) leased
  ∧ ¬ active_lease (Fixture.t0 + seconds 3600) leased.
Proof.
  pose proof (acquire_lease_outcome "now" (Fixture.t0 + seconds 60) "fresh"
                (Some "run-2") 3600 leased) as Hheld.
  pose proof (acquire_lease_outcome "now" (Fixture.t0 + seconds 3600) "fresh"
                (Some "run-2") 3600 leased) as Hfree.
  cbv zeta in Hheld, Hfree.
  destruct (acquire_lease "now" (Fixture.t0 + seconds 60) "fresh"
              (Some "run-2") 3600 leased) eqn:Hfirst.
  { vm_compute in Hfirst. discriminate Hfirst. }
  destruct (acquire_lease "now" (Fixture.t0 + seconds 3600) "fresh"
              (Some "run-2") 3600 leased) eqn:Hsecond.
  2: { vm_compute in Hsecond. discriminate Hsecond. }
  split; [exact (proj2 Hheld)|exact (proj1 Hfree)].
Defined.

Lemma renew_lease_outcome_witness :
  (lock leased ≫= dict_get "run_id") ≠ Some (JStr "run-2")
  ∧ ∃ s', renew_lease (Fixture.t0 + seconds 7200) "now" "run-1" 3600 leased
          = Returned s'
          ∧ (lock s' ≫= dict_get "expires_at")
            = Some (JStr "2026-11-04T15:30:00+00:00").
Proof.
  pose proof (renew_lease_outcome (Fixture.t0 + seconds 7200) "now" "run-2"
                3600 leased) as Hother.
  pose proof (renew_lease_outcome (Fixture.t0 + seconds 7200) "now" "run-1"
                3600 leased) as Hholder.
  destruct (renew_lease (Fixture.t0 + seconds 7200) "now" "run-2" 3600 leased)
    eqn:Hfirst.
  { vm_compute in Hfirst. discriminate Hfirst. }
  destruct (renew_lease (Fixture.t0 + seconds 7200) "now" "run-1" 3600 leased)
    as [s'|] eqn:Hsecond.
  2: { vm_compute in Hsecond. discriminate Hsecond. }
  split; [exact (proj2 Hother)|]. exists s'. split; [reflexivity|].
  destruct Hholder as (held & _ & _ & _ & Hexp & _). rewrite Hexp.
  vm_compute. reflexivity.
Defined.

Lemma adapter_calls_keep_identity_witness :
  ∃ s s',
    Fixture.loaded Fixture.started = inr s
    ∧ (invoke Fixture.ambient Fixture.state_path
         (UpdateState [("status", JStr "blocked"); ("lock", JNull)])
         Fixture.started).1 = inr s'
    ∧ status s' = "blocked"
    ∧ same_identity s s'.
Proof.
  destruct (Fixture.loaded Fixture.started) as [e|s] eqn:Hload.
  { vm_compute in Hload. discriminate Hload. }
  destruct (invoke Fixture.ambient Fixture.state_path
              (UpdateState [("status", JStr "blocked"); ("lock", JNull)])
              Fixture.started).1 as [e|s'] eqn:Hcall.
  { vm_compute in Hcall. discriminate Hcall. }
  exists s, s'. split_and!; [reflexivity|reflexivity| |].
  - vm_compute in Hcall. injection Hcall as <-. reflexivity.
  - exact (adapter_calls_keep_identity Fixture.ambient Fixture.state_path
             (UpdateState [("status", JStr "blocked"); ("lock", JNull)])
             Fixture.started s s' Hload Hcall).
Defined.

(* ===================================================================== *)
(** * Starting, failing and the guards of the progress calls *)
(* ===================================================================== *)

(** The clock a state file is read at touches nothing but empty
    timestamps. *)
Lemma read_state_clock (now now' path : string) (files : Files)
    (s : PlanState) :
  read_state now path files = inr (Some s) →
  ∃ s1, read_state now' path files = inr (Some s1)
        ∧ source_plan_hash s1 = source_plan_hash s.
Proof.
  unfold read_state.
  destruct (files !! path) as [[text|[| | | | |raw]]|]; try done.
  unfold from_dict.
  destruct (construct _) as [[]|state]; simpl; try done.
  intros [= <-]. eexists. split; [done|].
  unfold post_init. destruct state. cbn.
  repeat case_match; reflexivity.
Qed.

Lemma load_read_state (now path : string) (files : Files) (s : PlanState) :
  Adapter.load now path files = inr s →
  read_state now path files = inr (Some s).
Proof.
  unfold Adapter.load.
  destruct (read_state now path files) as [e|[state|]]; simpl; congruence.
Qed.

Section progress.
Context `{Datetime}.

Lemma acquire_lease_inactive (now : string) (now_epoch : Z)
    (fresh run_id : string) (s : PlanState) :
  ¬ active_lease now_epoch s →
  (if String.eqb run_id "" then fresh else run_id) = run_id →
  acquire_lease now now_epoch fresh (Some run_id) DEFAULT_LOCK_LEASE_SECONDS s
  = Returned
      (set_updated_at now
         (set_lock (Some (new_lease now now_epoch run_id))
            (set_recovery_notes
               (recovery_notes s
                ++ match lock s with
                   | Some held => [takeover_note now run_id held]
                   | None => []
                   end)
               s))).
Proof.
  intros Hfree Hrun. unfold acquire_lease, active_lease in *. rewrite Hrun.
  destruct (lock s) as [held|] eqn:Hlock; simpl.
  - destruct (expires_dt (default (JStr "") (dict_get "expires_at" held)))
      as [t|] eqn:Ht; simpl; [|done].
    destruct (now_epoch <? t) eqn:Hlt; simpl; [|done].
    apply Z.ltb_lt in Hlt. destruct Hfree. by exists held, t.
  - rewrite app_nil_r. by destruct s.
Qed.

Lemma acquire_lease_active (now : string) (now_epoch : Z)
    (fresh : string) (run_id : option string) (lease_seconds : Z)
    (s : PlanState) :
  active_lease now_epoch s →
  ∃ msg, acquire_lease now now_epoch fresh run_id lease_seconds s
         = Raised (ValueError msg) s.
Proof.
  intros (held & t & Hlock & Ht & Hlt). unfold acquire_lease.
  rewrite Hlock. simpl. rewrite Ht. simpl.
  apply Z.ltb_lt in Hlt. rewrite Hlt. simpl. by eexists.
Qed.

(** X8.  [start_execution] is refused for a state that is not pending, and
    for a pending one under a lease that has not run out.  Otherwise, once
    the drift check has passed, it puts the plan in executing status under a
    fresh one-hour lease for the run, with the cursor on the first task, the
    current git revision noted, the executor recorded and [blocked_reason]
    cleared; the completed tasks stay as they are, and a lease that had run
    out is noted as taken over. *)
Theorem start_execution_effect (a : Adapter.Ambient) (path : string)
    (info : option JDict) (files : Files) (s : PlanState) (run_id : string) :
  Adapter.load (Adapter.now_iso a 0) path files = inr s →
  (status s ≠ "pending" → rejected (Adapter.start_execution a path info) files)
  ∧ (status s = "pending" →
     Adapter._ensure_no_source_drift a path files s = Returned s →
     Adapter.run_id_of a info = inr run_id →
     (active_lease (Adapter.now_epoch a 0) s →
      rejected (Adapter.start_execution a path info) files)
     ∧ (¬ active_lease (Adapter.now_epoch a 0) s →
        ∃ s',
          Adapter.start_execution a path info files
          = (inr s', <[ path := Json (JObj (to_dict s')) ]> files)
          ∧ status s' = "executing"
          ∧ lock s'
            = Some (new_lease (Adapter.now_iso a 2) (Adapter.now_epoch a 0)
                      run_id)
          ∧ cursor s' = Some (cursor_at 1 0)
          ∧ git_sha_before s' = Adapter.git_sha a
          ∧ executor s' = info
          ∧ blocked_reason s' = None
          ∧ last_run_at s' = Some (Adapter.now_iso a 4)
          ∧ completed_tasks s' = completed_tasks s
          ∧ recovery_notes s'
            = recovery_notes s
              ++ match lock s with
                 | Some held => [takeover_note (Adapter.now_iso a 2) run_id held]
                 | None => []
                 end)).
Proof.
  intros Hload. split.
  { intros Hst. eexists. unfold Adapter.start_execution.
    eapply locked_update_raised; [done|].
    destruct (String.eqb_spec (status s) "pending") as [|_]; [done|].
    reflexivity. }
  intros Hst Hdrift Hrun.
  pose proof (run_id_of_actual _ _ _ Hrun) as Hactual. split.
  - intros Hactive.
    destruct (acquire_lease_active (Adapter.now_iso a 2) _ (Adapter.uuid4 a)
                (Some run_id) DEFAULT_LOCK_LEASE_SECONDS s Hactive)
      as [msg Hacq].
    exists msg. unfold Adapter.start_execution.
    eapply locked_update_raised; [done|].
    rewrite Hst. cbn [String.eqb Ascii.eqb Bool.eqb and_then].
    rewrite Hdrift. cbn [and_then].
    unfold Adapter.with_run_id. rewrite Hrun, Hacq. reflexivity.
  - intros Hfree.
    pose proof (acquire_lease_inactive (Adapter.now_iso a 2)
                  (Adapter.now_epoch a 0) (Adapter.uuid4 a) run_id s
                  Hfree Hactual) as Hacq.
    eexists. split.
    { unfold Adapter.start_execution. eapply locked_update_returned; [done|].
      rewrite Hst. cbn [String.eqb Ascii.eqb Bool.eqb and_then].
      rewrite Hdrift. cbn [and_then].
      unfold Adapter.with_run_id. rewrite Hrun, Hacq. cbn [and_then].
      apply transition_accepts. unfold in_table. by left. }
    cbn. done.
Qed.

(** X9.  [mark_failed] puts an executing plan in failed status with the
    reason in [failure_reason], clears [blocked_reason] and drops the
    lease; tasks, cursor, verification results and recovery notes stay. *)
Theorem mark_failed_effect (a : Adapter.Ambient) (path : string)
    (reason : string) (files : Files) (s : PlanState) :
  Adapter.load (Adapter.now_iso a 0) path files = inr s →
  status s = "executing" →
  ∃ s',
    Adapter.mark_failed a path reason files
    = (inr s', <[ path := Json (JObj (to_dict s')) ]> files)
    ∧ status s' = "failed"
    ∧ failure_reason s' = Some reason
    ∧ blocked_reason s' = None
    ∧ lock s' = None
    ∧ completed_tasks s' = completed_tasks s
    ∧ cursor s' = cursor s
    ∧ verification s' = verification s
    ∧ recovery_notes s' = recovery_notes s.
Proof.
  intros Hload Hst. eexists. split.
  { unfold Adapter.mark_failed. eapply locked_update_returned; [done|].
    rewrite transition_accepts by (unfold in_table; tauto).
    reflexivity. }
  cbn. done.
Qed.

(** X10.  The calls that report progress ([complete_task], [advance_step],
    [record_verification]) and [mark_verified] are refused, with the state
    file untouched, for a plan that is not executing. *)
Theorem progress_requires_executing (a : Adapter.Ambient) (path : string)
    (files : Files) (s : PlanState) :
  Adapter.load (Adapter.now_iso a 0) path files = inr s →
  status s ≠ "executing" →
  (∀ n, rejected (Adapter.complete_task a path n) files)
  ∧ (∀ step, rejected (Adapter.advance_step a path step) files)
  ∧ (∀ tier command exit_code,
       rejected (Adapter.record_verification a path tier command exit_code)
                files)
  ∧ rejected (Adapter.mark_verified a path) files.
Proof.
  intros Hload Hst.
  assert (∀ action,
            Adapter._ensure_executing s action
            = Raised (ValueError (action +:+ " requires executing state, got: "
                                  +:+ status s)) s) as Hguard.
  { intros action. unfold Adapter._ensure_executing.
    by destruct (String.eqb_spec (status s) "executing"). }
  split_and!; intros; eexists;
    (eapply locked_update_raised; [done|]); rewrite Hguard; reflexivity.
Qed.

(** X11.  A plan whose source has changed since the export is neither
    started nor resumed: when the digest of the source plan differs from the
    hash in the state, both calls are refused and the state file stays. *)
Theorem drift_blocks_execution (a : Adapter.Ambient) (path : string)
    (info : option JDict) (files : Files) (s : PlanState) (digest : string) :
  Adapter.load (Adapter.now_iso a 0) path files = inr s →
  Adapter.source_digest a = Some digest →
  digest ≠ source_plan_hash s →
  rejected (Adapter.start_execution a path info) files
  ∧ rejected (Adapter.resume_execution a path info) files.
Proof.
  intros Hload Hdigest Hne.
  assert (∃ msg, Adapter._ensure_no_source_drift a path files s
                 = Raised (ValueError msg) s) as [msg Hdrift].
  { unfold Adapter._ensure_no_source_drift, Adapter.check_drift.
    rewrite Hdigest.
    destruct (read_state_clock _ (Adapter.now_iso a 1) _ _ _
                (load_read_state _ _ _ _ Hload)) as (s1 & -> & Hhash).
    simpl. rewrite Hhash.
    destruct (String.eqb_spec digest (source_plan_hash s)); [done|].
    simpl. by eexists. }
  split.
  - unfold Adapter.start_execution.
    destruct (String.eqb (status s) "pending") eqn:Hst.
    + exists msg. eapply locked_update_raised; [done|].
      rewrite Hst. cbn [and_then]. rewrite Hdrift. reflexivity.
    + eexists. eapply locked_update_raised; [done|].
      rewrite Hst. reflexivity.
  - unfold Adapter.resume_execution.
    destruct (bool_decide (status s ∈ ["blocked"; "failed"])) eqn:Hst.
    + exists msg. eapply locked_update_raised; [done|].
      rewrite Hst. cbn [and_then]. rewrite Hdrift. reflexivity.
    + eexists. eapply locked_update_raised; [done|].
      rewrite Hst. reflexivity.
Qed.

End progress.

(** The clock of the examples, when the source plan has changed since the
    export. *)
Definition after_edit : Adapter.Ambient :=
  {| Adapter.now_iso := Adapter.now_iso Fixture.ambient;
     Adapter.now_epoch := Adapter.now_epoch Fixture.ambient;
     Adapter.uuid4 := Adapter.uuid4 Fixture.ambient;
     Adapter.git_sha := Adapter.git_sha Fixture.ambient;
     Adapter.source_digest := Some "hash-p1-edited";
     Adapter.log_path := Adapter.log_path Fixture.ambient |}.

Lemma start_execution_effect_witness :
  ∃ s s',
    Fixture.loaded Fixture.exported = inr s
    ∧ status s = "pending"
    ∧ (Adapter.start_execution Fixture.ambient Fixture.state_path
         (Fixture.by_run "run-1") Fixture.exported).1 = inr s'
    ∧ status s' = "executing"
    ∧ cursor s' = Some (cursor_at 1 0)
    ∧ (lock s' ≫= dict_get "run_id") = Some (JStr "run-1").
Proof.
  destruct (Fixture.loaded Fixture.exported) as [e|s] eqn:Hload.
  { vm_compute in Hload. discriminate Hload. }
  pose proof Hload as Hs. vm_compute in Hs. injection Hs as Hs.
  assert (status s = "pending") as Hst by (rewrite <- Hs; reflexivity).
  assert (lock s = None) as Hlock by (rewrite <- Hs; reflexivity).
  destruct (start_execution_effect Fixture.ambient Fixture.state_path
              (Fixture.by_run "run-1") Fixture.exported s "run-1" Hload)
    as [_ Hstart].
  destruct (Hstart Hst eq_refl eq_refl) as [_ Hfree].
  destruct Hfree as (s' & Hcall & Hst' & Hlock' & Hcur & _).
  { intros (held & t & Hheld & _). congruence. }
  exists s, s'. rewrite Hcall, Hlock'. split_and!; try reflexivity; done.
Defined.

Lemma mark_failed_effect_witness :
  ∃ s s',
    Fixture.loaded Fixture.started = inr s
    ∧ (Adapter.mark_failed Fixture.ambient Fixture.state_path "tests are red"
         Fixture.started).1 = inr s'
    ∧ status s' = "failed"
    ∧ failure_reason s' = Some "tests are red"
    ∧ lock s' = None.
Proof.
  destruct (Fixture.loaded Fixture.started) as [e|s] eqn:Hload.
  { vm_compute in Hload. discriminate Hload. }
  pose proof Hload as Hs. vm_compute in Hs. injection Hs as Hs.
  assert (status s = "executing") as Hst by (rewrite <- Hs; reflexivity).
  destruct (mark_failed_effect Fixture.ambient Fixture.state_path
              "tests are red" Fixture.started s Hload Hst)
    as (s' & Hcall & Hst' & Hreason & _ & Hlock & _).
  exists s, s'. rewrite Hcall. split_and!; try reflexivity; done.
Defined.

Lemma progress_requires_executing_witness :
  rejected (Adapter.complete_task Fixture.ambient Fixture.state_path 1)
           Fixture.exported
  ∧ rejected (Adapter.mark_verified Fixture.ambient Fixture.state_path)
             Fixture.exported.
Proof.
  destruct (Fixture.loaded Fixture.exported) as [e|s] eqn:Hload.
  { vm_compute in Hload. discriminate Hload. }
  pose proof Hload as Hs. vm_compute in Hs. injection Hs as Hs.
  assert (status s ≠ "executing") as Hst by (rewrite <- Hs; discriminate).
  destruct (progress_requires_executing Fixture.ambient Fixture.state_path
              Fixture.exported s Hload Hst) as (Hcomplete & _ & _ & Hverified).
  split; [apply Hcomplete|exact Hverified].
Defined.

Lemma drift_blocks_execution_witness :
  rejected (Adapter.start_execution after_edit Fixture.state_path
              (Fixture.by_run "run-1")) Fixture.exported
  ∧ rejected (Adapter.resume_execution after_edit Fixture.state_path
                (Fixture.by_run "run-2")) Fixture.blocked.
Proof.
  split.
  - destruct (Adapter.load (Adapter.now_iso after_edit 0) Fixture.state_path
                Fixture.exported) as [e|s] eqn:Hload.
    { vm_compute in Hload. discriminate Hload. }
    pose proof Hload as Hs. vm_compute in Hs. injection Hs as Hs.
    destruct (drift_blocks_execution after_edit Fixture.state_path
                (Fixture.by_run "run-1") Fixture.exported s "hash-p1-edited"
                Hload eq_refl) as [Hstart _]; [|exact Hstart].
    rewrite <- Hs. discriminate.
  - destruct (Adapter.load (Adapter.now_iso after_edit 0) Fixture.state_path
                Fixture.blocked) as [e|s] eqn:Hload.
    { vm_compute in Hload. discriminate Hload. }
    pose proof Hload as Hs. vm_compute in Hs. injection Hs as Hs.
    destruct (drift_blocks_execution after_edit Fixture.state_path
                (Fixture.by_run "run-2") Fixture.blocked s "hash-p1-edited"
                Hload eq_refl) as [_ Hresume]; [|exact Hresume].
    rewrite <- Hs. discriminate.
Defined.

(* ===================================================================== *)
(** * Verification results *)
(* ===================================================================== *)

(** The results a tier holds before a new one is recorded; a single result
    of the old layout counts as a list of one. *)
Definition earlier_results (tier : string) (s : PlanState) : list JValue :=
  match default (JList []) (dict_get tier (default [] (verification s))) with
  | JObj existing => [JObj existing]
  | JList existing => existing
  | _ => []
  end.

Lemma has_results_tier (tier : string) (tiers : JDict) (first : JValue)
    (more : list JValue) :
  dict_get tier tiers = Some (JList (first :: more)) →
  Adapter.has_results (Some tiers) = true.
Proof.
  unfold Adapter.has_results. simpl.
  induction tiers as [|[k v] tiers IH]; simpl; [done|].
  destruct (String.eqb tier k).
  - by intros [= ->].
  - intros Hrest. rewrite (IH Hrest). apply orb_true_r.
Qed.

(** X12.  [record_verification] on an executing plan puts the new result at
    the end of its tier and leaves the other tiers alone.  From then on the
    plan has verification results, whatever the exit code was.  A failing
    result sets [last_error_output_path] to its log; a passing one of the
    quick tier becomes [verify_quick] when none is set, and nothing else
    changes [verify_quick]: one that is set is never replaced. *)
Theorem record_verification_effect (a : Adapter.Ambient) (path : string)
    (tier command : string) (exit_code : Z) (files : Files) (s : PlanState) :
  Adapter.load (Adapter.now_iso a 0) path files = inr s →
  status s = "executing" →
  ∃ s',
    Adapter.record_verification a path tier command exit_code files
    = (inr s', <[ path := Json (JObj (to_dict s')) ]> files)
    ∧ (verification s' ≫= dict_get tier)
      = Some (JList (earlier_results tier s
                     ++ [ JObj [ ("command", JStr command);
                                 ("exit_code", JInt exit_code);
                                 ("log_path", JStr (Adapter.log_path a));
                                 ("ran_at", JStr (Adapter.now_iso a 1)) ] ]))
    ∧ (∀ other, other ≠ tier →
         (verification s' ≫= dict_get other)
         = (verification s ≫= dict_get other))
    ∧ Adapter.has_results (verification s') = true
    ∧ (exit_code ≠ 0 →
       last_error_output_path s' = Some (Adapter.log_path a))
    ∧ (exit_code = 0 → last_error_output_path s' = last_error_output_path s)
    ∧ (tier = "quick" → exit_code = 0 → falsy (verify_quick s) →
       verify_quick s' = Some command)
    ∧ (tier ≠ "quick" ∨ exit_code ≠ 0 ∨ ¬ falsy (verify_quick s) →
       verify_quick s' = verify_quick s)
    ∧ status s' = "executing"
    ∧ completed_tasks s' = completed_tasks s.
Proof.
  intros Hload Hst. eexists. split.
  { unfold Adapter.record_verification.
    eapply locked_update_returned; [done|].
    rewrite ensure_executing_passes by done. reflexivity. }
  assert (∀ x : PlanState,
            (verification
               (set_updated_at (Adapter.now_iso a 3)
                  (State.record_verification (Adapter.now_iso a 1)
                     (Adapter.now_iso a 2) tier command exit_code
                     (Adapter.log_path a) x))
             ≫= dict_get tier)
            = Some (JList (earlier_results tier x
                           ++ [ JObj [ ("command", JStr command);
                                       ("exit_code", JInt exit_code);
                                       ("log_path", JStr (Adapter.log_path a));
                                       ("ran_at", JStr (Adapter.now_iso a 1)) ] ]))
            ∧ ∀ other, other ≠ tier →
                (verification
                   (set_updated_at (Adapter.now_iso a 3)
                      (State.record_verification (Adapter.now_iso a 1)
                         (Adapter.now_iso a 2) tier command exit_code
                         (Adapter.log_path a) x))
                 ≫= dict_get other)
                = (verification x ≫= dict_get other)) as Htiers.
  { intros x. cbn. rewrite dict_get_set, String.eqb_refl. split; [done|].
    intros other Hother. rewrite dict_get_set.
    destruct (String.eqb_spec other tier); [done|].
    by destruct (verification x). }
  assert (∀ x : PlanState,
            earlier_results tier (set_verify_quick (Some command) x)
            = earlier_results tier x
            ∧ earlier_results tier
                (set_last_error_output_path (Some (Adapter.log_path a)) x)
              = earlier_results tier x) as Hearlier by done.
  cbn [object and_then].
  match goal with
  | |- context [State.record_verification _ _ _ _ _ _ ?x] =>
      destruct (Htiers x) as [Hnew Hother];
      assert (earlier_results tier x = earlier_results tier s) as Hsame;
      [|assert (verification x = verification s) as Hverif]
  end.
  { destruct (_ && _); destruct (negb _); cbn;
      rewrite ?(proj1 (Hearlier _)), ?(proj2 (Hearlier _)); try done.
    all: by rewrite ?(proj1 (Hearlier _)), ?(proj2 (Hearlier _)). }
  { by destruct (_ && _); destruct (negb _). }
  rewrite Hsame in Hnew. rewrite Hverif in Hother.
  split_and!.
  - exact Hnew.
  - exact Hother.
  - match type of Hnew with
    | verification ?x ≫= _ = _ => destruct (verification x) as [tiers|]
    end; [|done].
    simpl in Hnew. destruct (earlier_results tier s); by eapply has_results_tier.
  - intros Hexit. apply Z.eqb_neq in Hexit. rewrite Hexit.
    cbn. by destruct (_ && _).
  - intros ->. cbn. by destruct (_ && _).
  - intros -> -> Hfalsy. apply truthy_enc_opt_str in Hfalsy.
    rewrite Hfalsy. by cbn.
  - intros Hkeep.
    assert (String.eqb tier "quick" && (exit_code =? 0)
            && negb (truthy (enc_opt_str (verify_quick s))) = false) as ->.
    { destruct Hkeep as [Htier|[Hexit|Hset]].
      - apply String.eqb_neq in Htier. by rewrite Htier.
      - apply Z.eqb_neq in Hexit. by rewrite Hexit, andb_false_r.
      - destruct (truthy (enc_opt_str (verify_quick s))) eqn:Htruthy;
          [by rewrite andb_false_r|].
        by apply truthy_enc_opt_str in Htruthy. }
    cbn. by destruct (negb _).
  - cbn. destruct (_ && _); destruct (negb _); by cbn.
  - cbn. destruct (_ && _); destruct (negb _); by cbn.
Qed.

(* ===================================================================== *)
(** * Task completion again *)
(* ===================================================================== *)

Lemma py_sorted_unique (l1 l2 : list Z) :
  l1 ≡ₚ l2 → py_sorted l1 = py_sorted l2.
Proof.
  intros Hperm. unfold py_sorted.
  apply (Sorted_unique Z.le); [apply Sorted_merge_sort; apply _..|].
  by rewrite !merge_sort_Permutation.
Qed.

Lemma elem_of_py_sorted (n : Z) (l : list Z) : n ∈ py_sorted l ↔ n ∈ l.
Proof. unfold py_sorted. by rewrite merge_sort_Permutation. Qed.

(** X13.  The tasks a plan has completed do not depend on the order in
    which two of them were reported, and reporting a task again changes
    nothing. *)
Theorem complete_task_order (now1 now2 now3 now4 : string) (a b : Z)
    (s : PlanState) :
  completed_tasks (State.complete_task now2 b (State.complete_task now1 a s))
  = completed_tasks (State.complete_task now4 a (State.complete_task now3 b s))
  ∧ completed_tasks (State.complete_task now2 a (State.complete_task now1 a s))
    = completed_tasks (State.complete_task now1 a s).
Proof.
  rewrite !completed_tasks_complete_task.
  generalize (completed_tasks s). intros l.
  assert (∀ x y : Z, x ∈ l → x ∈ py_sorted (l ++ [y])) as Hkept.
  { intros x y Hx. rewrite elem_of_py_sorted, elem_of_app. by left. }
  assert (∀ x : Z, x ∈ py_sorted (l ++ [x])) as Hadded.
  { intros x. rewrite elem_of_py_sorted, elem_of_app. right.
    apply list_elem_of_here. }
  assert (∀ x y : Z, x ∉ l → x ≠ y → x ∉ py_sorted (l ++ [y])) as Hfresh.
  { intros x y Hx Hxy. rewrite elem_of_py_sorted, elem_of_app.
    intros [?|Hin%list_elem_of_singleton]; done. }
  split.
  - destruct (decide (a ∈ l)) as [Ha|Ha]; destruct (decide (b ∈ l)) as [Hb|Hb].
    + rewrite (bool_decide_eq_true_2 _ Ha), (bool_decide_eq_true_2 _ Hb).
      cbv iota.
      by rewrite ?(bool_decide_eq_true_2 _ Ha), ?(bool_decide_eq_true_2 _ Hb).
    + rewrite (bool_decide_eq_true_2 _ Ha), (bool_decide_eq_false_2 _ Hb).
      cbv iota.
      by rewrite ?(bool_decide_eq_false_2 _ Hb),
        ?(bool_decide_eq_true_2 _ (Hkept a b Ha)).
    + rewrite (bool_decide_eq_false_2 _ Ha), (bool_decide_eq_true_2 _ Hb).
      cbv iota.
      by rewrite ?(bool_decide_eq_false_2 _ Ha),
        ?(bool_decide_eq_true_2 _ (Hkept b a Hb)).
    + rewrite (bool_decide_eq_false_2 _ Ha), (bool_decide_eq_false_2 _ Hb).
      cbv iota.
      destruct (decide (a = b)) as [->|Hab].
      * by rewrite (bool_decide_eq_true_2 _ (Hadded b)).
      * rewrite (bool_decide_eq_false_2 _ (Hfresh b a Hb (not_eq_sym Hab))).
        rewrite (bool_decide_eq_false_2 _ (Hfresh a b Ha Hab)).
        apply py_sorted_unique. unfold py_sorted.
        rewrite !merge_sort_Permutation.
        rewrite <- !app_assoc. apply Permutation_app_head.
        apply perm_swap.
  - destruct (decide (a ∈ l)) as [Ha|Ha].
    + rewrite (bool_decide_eq_true_2 _ Ha). cbv iota.
      by rewrite ?(bool_decide_eq_true_2 _ Ha).
    + rewrite (bool_decide_eq_false_2 _ Ha). cbv iota.
      by rewrite ?(bool_decide_eq_true_2 _ (Hadded a)).
Qed.

(* ===================================================================== *)
(** * Patches *)
(* ===================================================================== *)

(** X14.  A patch that names a field outside the patchable ones is refused
    whole: [apply_state_patch] raises before it has touched the record, and
    [update_state] leaves the state file as it was.  The plan id, the source
    path and hash, the number of tasks, the schema version and the two
    timestamps are such fields. *)
Theorem unknown_patch_field_is_refused (t1 t2 now : string) (patch : JDict)
    (s : PlanState) (name : string) :
  name ∈ patch.*1 →
  name ∉ PATCHABLE_FIELDS →
  (∃ msg, apply_state_patch t1 t2 now patch s = Raised (ValueError msg) s)
  ∧ (∀ a path files,
       Adapter.load (Adapter.now_iso a 0) path files = inr s →
       rejected (Adapter.update_state a path patch) files)
  ∧ Forall (λ f, f ∉ PATCHABLE_FIELDS)
      [ "plan_id"; "source_plan_path"; "source_plan_hash"; "total_tasks";
        "schema_version"; "created_at"; "updated_at" ].
Proof.
  intros Hin Hout.
  assert (∀ u1 u2 u3,
            ∃ msg, apply_state_patch u1 u2 u3 patch s
                   = Raised (ValueError msg) s) as Hraise.
  { intros u1 u2 u3. unfold apply_state_patch.
    rewrite bool_decide_eq_false_2; [by eexists|].
    intros Hnil.
    assert (name ∈ filter (λ k, k ∉ PATCHABLE_FIELDS) patch.*1) as Hname
      by by apply list_elem_of_filter.
    rewrite Hnil in Hname. by apply elem_of_nil in Hname. }
  split_and!.
  - apply Hraise.
  - intros a path files Hload.
    destruct (Hraise (Adapter.now_iso a 1) (Adapter.now_iso a 2)
                (Adapter.now_iso a 3)) as [msg Hmsg].
    exists msg. by eapply locked_update_raised.
  - apply (bool_decide_unpack _). vm_compute. exact I.
Qed.

Lemma unknown_patch_field_is_refused_witness :
  ∃ s, Fixture.loaded Fixture.started = inr s
       ∧ rejected (Adapter.update_state Fixture.ambient Fixture.state_path
                     [ ("status", JStr "blocked"); ("total_tasks", JInt 1) ])
                  Fixture.started.
Proof.
  destruct (Fixture.loaded Fixture.started) as [e|s] eqn:Hload.
  { vm_compute in Hload. discriminate Hload. }
  exists s. split; [reflexivity|].
  destruct (unknown_patch_field_is_refused "t1" "t2" "t3"
              [ ("status", JStr "blocked"); ("total_tasks", JInt 1) ] s
              "total_tasks") as (_ & Hupdate & _).
  - apply list_elem_of_further, list_elem_of_here.
  - apply (bool_decide_unpack _). vm_compute. exact I.
  - by apply Hupdate.
Defined.

(** X15.  A cursor that [apply_state_patch] accepts holds nothing but a task
    that is an integer not below 0 and a step that is an integer not below
    -1; every other key of the patch's cursor is dropped. *)
Theorem validated_cursor (value : JValue) (cursor : JDict) (key : string)
    (v : JValue) :
  _validate_cursor value = inr (Some cursor) →
  dict_get key cursor = Some v →
  ∃ given n,
    value = JObj given
    ∧ dict_get key given = Some v
    ∧ as_py_int v = Some n
    ∧ ((key = "task" ∧ 0 ≤ n) ∨ (key = "step" ∧ -1 ≤ n)).
Proof.
  unfold _validate_cursor. destruct value as [| | | | |given]; try done.
  assert (∀ name least complaint kept,
            check_coordinate name least complaint given = inr kept →
            kept = []
            ∨ ∃ x n, kept = [(name, x)] ∧ dict_get name given = Some x
                     ∧ as_py_int x = Some n ∧ least ≤ n) as Hcoord.
  { intros name least complaint kept. unfold check_coordinate.
    destruct (dict_get name given) as [x|]; [|intros [= <-]; by left].
    destruct (as_py_int x) as [n|] eqn:Hint.
    - destruct (n <? least) eqn:Hlt.
      + by destruct x.
      + apply Z.ltb_ge in Hlt.
        destruct x; try done; intros [= <-]; right; by eexists _, n.
    - destruct x; try done. intros [= <-]. by left. }
  destruct (check_coordinate "task" _ _ given) as [|task] eqn:Htask; [done|].
  destruct (check_coordinate "step" _ _ given) as [|step] eqn:Hstep; [done|].
  simpl. intros [= <-] Hget.
  apply Hcoord in Htask as [->|(x & n & -> & Hx & Hn & Hle)];
    apply Hcoord in Hstep as [->|(y & m & -> & Hy & Hm & Hle')];
    simpl in Hget; try done.
  - destruct (String.eqb_spec key "step") as [->|]; [|done].
    injection Hget as <-. exists given, m. split_and!; auto.
  - destruct (String.eqb_spec key "task") as [->|]; [|done].
    injection Hget as <-. exists given, n. split_and!; auto.
  - destruct (String.eqb_spec key "task") as [->|].
    + injection Hget as <-. exists given, n. split_and!; auto.
    + destruct (String.eqb_spec key "step") as [->|]; [|done].
      injection Hget as <-. exists given, m. split_and!; auto.
Qed.

Lemma validated_cursor_witness :
  _validate_cursor
    (JObj [ ("task", JInt 2); ("note", JStr "resume here"); ("step", JInt 0) ])
  = inr (Some [ ("task", JInt 2); ("step", JInt 0) ])
  ∧ ∃ given n,
      JObj [ ("task", JInt 2); ("note", JStr "resume here"); ("step", JInt 0) ]
      = JObj given
      ∧ dict_get "step" given = Some (JInt 0)
      ∧ as_py_int (JInt 0) = Some n
      ∧ (("step" = "task" ∧ 0 ≤ n) ∨ ("step" = "step" ∧ -1 ≤ n)).
Proof.
  split; [reflexivity|].
  apply (validated_cursor _ [ ("task", JInt 2); ("step", JInt 0) ]);
    reflexivity.
Defined.

Lemma record_verification_effect_witness :
  ∃ s s',
    Fixture.loaded Fixture.started = inr s
    ∧ (Adapter.record_verification Fixture.ambient Fixture.state_path "quick"
         "python -m unittest -v" 1 Fixture.started).1 = inr s'
    ∧ Adapter.has_results (verification s') = true
    ∧ last_error_output_path s' = Some "docs/plans/_logs/p1/quick.log"
    ∧ verify_quick s' = None.
Proof.
  destruct (Fixture.loaded Fixture.started) as [e|s] eqn:Hload.
  { vm_compute in Hload. discriminate Hload. }
  pose proof Hload as Hs. vm_compute in Hs. injection Hs as Hs.
  assert (status s = "executing") as Hst by (rewrite <- Hs; reflexivity).
  destruct (record_verification_effect Fixture.ambient Fixture.state_path
              "quick" "python -m unittest -v" 1 Fixture.started s Hload Hst)
    as (s' & Hcall & _ & _ & Hresults & Hlog & _ & _ & Hquick & _).
  assert ((1 : Z) ≠ 0) as Hexit by discriminate.
  exists s, s'.
  rewrite Hcall, Hresults, (Hlog Hexit), (Hquick (or_intror (or_introl Hexit))).
  split_and!; try reflexivity. rewrite <- Hs. reflexivity.
Defined.

(* ===================================================================== *)
(** * What a state file is read as *)
(* ===================================================================== *)

Lemma dict_get_app {V} (k : string) (d1 d2 : list (string * V)) :
  dict_get k (d1 ++ d2)
  = match dict_get k d1 with Some v => Some v | None => dict_get k d2 end.
Proof.
  induction d1 as [|[k0 v0] d1 IH]; simpl; [done|].
  by destruct (String.eqb k k0).
Qed.

Lemma dict_get_setdefault_ne {V} (k k' : string) (v : V)
    (d : list (string * V)) :
  k' ≠ k → dict_get k' (dict_setdefault k v d) = dict_get k' d.
Proof.
  intros Hne. unfold dict_setdefault. destruct (dict_mem k d); [done|].
  rewrite dict_get_app. simpl.
  destruct (String.eqb_spec k' k); [done|]. by destruct (dict_get k' d).
Qed.

Lemma dict_get_setdefaults {V} (k' : string) (kvs : list (string * V))
    (d : list (string * V)) :
  k' ∉ kvs.*1 →
  dict_get k' (foldl (λ d kv, dict_setdefault kv.1 kv.2 d) d kvs)
  = dict_get k' d.
Proof.
  revert d. induction kvs as [|[k v] kvs IH]; intros d Hout; [done|].
  rewrite fmap_cons, not_elem_of_cons in Hout. destruct Hout as [Hne Hout].
  cbn [foldl]. rewrite IH by done. by apply dict_get_setdefault_ne.
Qed.

(** What [upgrade_to_current] leaves alone: the fields it neither adds nor
    rewrites. *)
Lemma upgrade_to_current_keeps (key : string) (d : JDict) :
  key ∈ ["status"; "failure_reason"; "blocked_reason"] →
  dict_get key (upgrade_to_current d) = dict_get key d.
Proof.
  intros Hkey. unfold upgrade_to_current. destruct (outdated _); [|done].
  assert (key ≠ "schema_version" ∧ key ≠ "verification") as [Hs Hv].
  { repeat (apply elem_of_cons in Hkey as [->|Hkey]; [done|]).
    by apply elem_of_nil in Hkey. }
  rewrite dict_get_set. destruct (String.eqb_spec key "schema_version"); [done|].
  set (filled := foldl _ d _).
  transitivity (dict_get key filled).
  { destruct (dict_get "verification" filled) as [[| | | | |tiers]|]; try done.
    rewrite dict_get_set. by destruct (String.eqb_spec key "verification"). }
  apply dict_get_setdefaults.
  repeat (apply elem_of_cons in Hkey as [->|Hkey];
          [apply (bool_decide_unpack _); vm_compute; exact I|]).
  by apply elem_of_nil in Hkey.
Qed.

Definition lists_only (tiers : JDict) : Prop :=
  Forall (λ kv : string * JValue, ∃ results, kv.2 = JList results) tiers.

(** The verification tiers of a payload are lists. *)
Definition tiers_normalized (d : JDict) : Prop :=
  ∀ tiers, dict_get "verification" d = Some (JObj tiers) → lists_only tiers.

Lemma normalize_verification_tiers (d : JDict) :
  tiers_normalized (normalize_verification d).
Proof.
  unfold tiers_normalized, normalize_verification. intros tiers.
  destruct (dict_get "verification" d) as [[| | | | |given]|] eqn:Hget;
    try congruence.
  rewrite dict_get_set. simpl. intros [= <-].
  unfold lists_only. apply list.Forall_forall. intros kv Hkv.
  apply list_elem_of_fmap in Hkv as ([k v] & -> & _). simpl.
  destruct v; by eexists.
Qed.

Lemma move_blocked_reason_tiers (d : JDict) :
  tiers_normalized d → tiers_normalized (move_blocked_reason d).
Proof.
  unfold tiers_normalized, move_blocked_reason. intros Hd tiers.
  destruct (eq_str _ _); [|apply Hd].
  destruct (_ && _); [|apply Hd].
  rewrite !dict_get_set. simpl. apply Hd.
Qed.

Lemma upgrade_to_current_tiers (d : JDict) :
  tiers_normalized d → tiers_normalized (upgrade_to_current d).
Proof.
  unfold tiers_normalized, upgrade_to_current. intros Hd tiers.
  destruct (outdated _); [|apply Hd].
  set (filled := foldl _ d _).
  rewrite dict_get_set.
  change (String.eqb "verification" "schema_version") with false. cbv iota.
  assert (dict_get "verification" filled = dict_get "verification" d)
    as Hfilled.
  { apply dict_get_setdefaults. apply (bool_decide_unpack _).
    vm_compute. exact I. }
  destruct (dict_get "verification" filled) as [[| | | | |given]|] eqn:Hget;
    rewrite ?Hget; try congruence.
  rewrite dict_get_set. simpl. intros [= <-].
  symmetry in Hfilled. apply Hd in Hfilled.
  unfold lists_only in *. apply list.Forall_forall. intros kv Hkv.
  apply list_elem_of_fmap in Hkv as ([k v] & -> & Hin). simpl.
  eapply list.Forall_forall in Hfilled as [results Hv]; [|exact Hin].
  simpl in Hv. subst v. by eexists.
Qed.

(** A payload that is not a failed state explained in [blocked_reason]
    only. *)
Definition reason_moved (d : JDict) : Prop :=
  ¬ (eq_str (default JNull (dict_get "status" d)) "failed" = true
     ∧ truthy_opt (dict_get "failure_reason" d) = false
     ∧ truthy_opt (dict_get "blocked_reason" d) = true).

Lemma move_blocked_reason_moved (d : JDict) :
  reason_moved (move_blocked_reason d).
Proof.
  unfold reason_moved, move_blocked_reason.
  destruct (eq_str (default JNull (dict_get "status" d)) "failed") eqn:Hst;
    [|by intros (? & _); congruence].
  destruct (truthy_opt (dict_get "failure_reason" d)) eqn:Hfail; simpl;
    [by intros (_ & ? & _); congruence|].
  destruct (truthy_opt (dict_get "blocked_reason" d)) eqn:Hblock; simpl;
    [|by intros (_ & _ & ?); congruence].
  rewrite !dict_get_set. simpl. by intros (_ & _ & ?).
Qed.

Lemma upgrade_to_current_moved (d : JDict) :
  reason_moved d → reason_moved (upgrade_to_current d).
Proof.
  unfold reason_moved.
  rewrite !upgrade_to_current_keeps; [done|..].
  - do 2 apply list_elem_of_further. apply list_elem_of_here.
  - apply list_elem_of_further, list_elem_of_here.
  - apply list_elem_of_here.
Qed.

Lemma upgrade_to_current_version (d : JDict) :
  outdated (default (JStr "2.0")
              (dict_get "schema_version" (upgrade_to_current d))) = false.
Proof.
  unfold upgrade_to_current.
  destruct (outdated (default (JStr "2.0") (dict_get "schema_version" d)))
    eqn:Hold; [|done].
  by rewrite dict_get_set.
Qed.

(** The keyword arguments [construct] took the fields from. *)
Lemma construct_fields (payload : JDict) (s : PlanState) :
  construct payload = inr s →
  field as_str "status" None payload = inr (status s)
  ∧ field as_opt_dict "verification" (Some None) payload
    = inr (verification s)
  ∧ field as_opt_str "blocked_reason" (Some None) payload
    = inr (blocked_reason s)
  ∧ field as_opt_str "failure_reason" (Some None) payload
    = inr (failure_reason s)
  ∧ field as_str "schema_version" (Some CURRENT_SCHEMA_VERSION) payload
    = inr (schema_version s).
Proof.
  unfold construct.
  repeat match goal with
         | |- context [field ?dec ?name ?dflt payload ≫= _] =>
             destruct (field dec name dflt payload) eqn:?; simpl; [done|]
         end.
  intros [= <-]. simpl. split_and!; reflexivity.
Qed.

(** A state as [from_dict] builds it. *)
Definition canonical (s : PlanState) : Prop :=
  tiers_are_lists s
  ∧ ¬ legacy_failed s
  ∧ outdated (JStr (schema_version s)) = false.

Lemma construct_canonical (payload : JDict) (s : PlanState) :
  tiers_normalized payload →
  reason_moved payload →
  outdated (default (JStr "2.0") (dict_get "schema_version" payload)) = false →
  construct payload = inr s →
  canonical s.
Proof.
  intros Htiers Hmoved Hversion
    (Hst & Hver & Hblock & Hfail & Hschema)%construct_fields.
  unfold field in *. split_and!.
  - intros tiers Hs. apply Htiers. rewrite Hs in Hver.
    destruct (dict_get "verification" payload) as [v|]; [|done].
    destruct v; by simplify_eq/=.
  - intros (Hfailed & Hfalsy & Hset). apply Hmoved.
    rewrite Hfailed in Hst.
    destruct (dict_get "status" payload) as [[| | |st| |]|]; simplify_eq/=.
    split_and!; [done| |].
    + destruct (dict_get "failure_reason" payload) as [[| | |r| |]|];
        simplify_eq/=; try done.
      destruct Hfalsy as [Hnone|Hempty]; rewrite <- Hfail in *; by simplify_eq.
    + destruct (dict_get "blocked_reason" payload) as [[| | |r| |]|];
        simplify_eq/=; try (destruct Hset; left; congruence).
      destruct (String.eqb_spec r "") as [->|]; [|done].
      destruct Hset. right. congruence.
  - destruct (dict_get "schema_version" payload) as [[| | |v| |]|];
      by simplify_eq/=.
Qed.

Lemma post_init_canonical (now : string) (s : PlanState) :
  canonical s → canonical (post_init now s).
Proof.
  unfold canonical, tiers_are_lists, legacy_failed, post_init.
  destruct s; cbn. repeat case_match; done.
Qed.

Lemma from_dict_canonical (now : string) (d : JDict) (s : PlanState) :
  from_dict now d = inr s → canonical s.
Proof.
  unfold from_dict, migrate_legacy_plan_state.
  destruct (construct _) as [e|state] eqn:Hconstruct; [done|].
  simpl. intros [= <-]. apply post_init_canonical.
  eapply construct_canonical; [| | |exact Hconstruct].
  - apply upgrade_to_current_tiers, move_blocked_reason_tiers,
      normalize_verification_tiers.
  - apply upgrade_to_current_moved, move_blocked_reason_moved.
  - apply upgrade_to_current_version.
Qed.

Lemma read_state_from_dict (now path : string) (files : Files)
    (s : PlanState) :
  read_state now path files = inr (Some s) →
  ∃ raw, files !! path = Some (Json (JObj raw)) ∧ from_dict now raw = inr s.
Proof.
  unfold read_state.
  destruct (files !! path) as [[text|[| | | | |raw]]|]; try done.
  destruct (from_dict now raw) as [[]|state] eqn:Hfrom; try done.
  intros [= <-]. by exists raw.
Qed.

(** X16.  Whatever a state file holds, the state [read_state] returns for
    it is in the current layout: every verification tier is a list, a failed
    state has its reason in [failure_reason] when it has one at all, and the
    schema version is not older than the current one. *)
Theorem read_state_is_canonical (now path : string) (files : Files)
    (s : PlanState) :
  read_state now path files = inr (Some s) →
  tiers_are_lists s
  ∧ ¬ legacy_failed s
  ∧ outdated (JStr (schema_version s)) = false.
Proof.
  intros (raw & _ & Hfrom)%read_state_from_dict.
  by eapply from_dict_canonical.
Qed.

(** X17.  A state that was read from a file is written and read back as it
    is, but for the [updated_at] stamp of the write: reading migrates once
    and for all.  The clock does not return the empty string. *)
Theorem reread_is_stable (now now_w now_r path path' : string)
    (files files' : Files) (s : PlanState) :
  now ≠ "" →
  now_w ≠ "" →
  read_state now path files = inr (Some s) →
  read_state now_r path' (write_state now_w path' s files').2
  = inr (Some (set_updated_at now_w s)).
Proof.
  intros Hnow Hstamp (raw & _ & Hfrom)%read_state_from_dict.
  pose proof (from_dict_canonical _ _ _ Hfrom) as (Htiers & Hlegacy & Hver).
  assert (created_at s ≠ "") as Hcreated.
  { unfold from_dict in Hfrom.
    destruct (construct _) as [e|state]; [done|]. simpl in Hfrom.
    injection Hfrom as <-. unfold post_init.
    destruct (String.eqb_spec (created_at state) "") as [Hc|Hc].
    - by destruct state; cbn; case_match.
    - by destruct state; cbn in *; case_match. }
  unfold read_state, write_state. cbn [snd]. rewrite lookup_insert_eq.
  rewrite (from_dict_to_dict now_r (set_updated_at now_w s)); [|done..].
  do 2 f_equal. unfold post_init.
  change (created_at (set_updated_at now_w s)) with (created_at s).
  change (updated_at (set_updated_at now_w s)) with now_w.
  apply String.eqb_neq in Hcreated, Hstamp.
  rewrite Hcreated. cbn [updated_at set_updated_at]. by rewrite Hstamp.
Qed.

(** A state file in the first layout: one result per tier, the reason of a
    failure in [blocked_reason], and no schema version. *)
Definition first_layout : Files :=
  {[ Fixture.state_path :=
       Json (JObj [ ("plan_id", JStr "p1");
                    ("source_plan_path",
                     JStr ".planning/phases/01-setup/01-01-PLAN.md");
                    ("source_plan_hash", JStr "hash-p1");
                    ("status", JStr "failed");
                    ("completed_tasks", JList [JInt 1]);
                    ("total_tasks", JInt 2);
                    ("verification",
                     JObj [ ("quick",
                             JObj [ ("command", JStr "python -m unittest");
                                    ("exit_code", JInt 1) ]) ]);
                    ("blocked_reason", JStr "tests are red");
                    ("created_at", JStr "2025-06-01T08:00:00+00:00");
                    ("updated_at", JStr "2025-06-01T09:00:00+00:00") ]) ]}.

Lemma read_state_is_canonical_witness :
  ∃ s,
    read_state (Iso8601.format Fixture.t0) Fixture.state_path first_layout
    = inr (Some s)
    ∧ failure_reason s = Some "tests are red"
    ∧ blocked_reason s = None
    ∧ schema_version s = "3.1"
    ∧ tiers_are_lists s
    ∧ ¬ legacy_failed s.
Proof.
  destruct (read_state (Iso8601.format Fixture.t0) Fixture.state_path
              first_layout) as [e|[s|]] eqn:Hread.
  1, 3: vm_compute in Hread; discriminate Hread.
  destruct (read_state_is_canonical _ _ _ _ Hread) as (Htiers & Hlegacy & _).
  exists s. vm_compute in Hread. injection Hread as Hs.
  split_and!; [reflexivity|rewrite <- Hs; reflexivity..|exact Htiers
              |exact Hlegacy].
Defined.

Lemma reread_is_stable_witness :
  ∃ s,
    read_state (Iso8601.format Fixture.t0) Fixture.state_path first_layout
    = inr (Some s)
    ∧ read_state "2026-11-04T12:31:00+00:00" Fixture.state_path
        (write_state "2026-11-04T12:30:30+00:00" Fixture.state_path s
           first_layout).2
      = inr (Some (set_updated_at "2026-11-04T12:30:30+00:00" s)).
Proof.
  destruct (read_state (Iso8601.format Fixture.t0) Fixture.state_path
              first_layout) as [e|[s|]] eqn:Hread.
  1, 3: vm_compute in Hread; discriminate Hread.
  exists s. split; [reflexivity|].
  apply (reread_is_stable (Iso8601.format Fixture.t0) _ _ Fixture.state_path
           _ first_layout); [|discriminate|exact Hread].
  vm_compute. discriminate.
Defined.

(* ===================================================================== *)
(** * The summary of a manifest *)
(* ===================================================================== *)

(** The number of plans a manifest records with a status. *)
Definition with_status (st : string) (entries : list ManifestEntry) : Z :=
  Z.of_nat (length (filter (λ p, Entry.status p = st) entries)).

(** The keys of the summary. *)
Definition summary_keys : list string :=
  [ "pending"; "executing"; "blocked"; "verified"; "failed"; "no-state";
    "total" ].

(** The counter a plan is added to. *)
Definition counted_as (p : ManifestEntry) : string :=
  if bool_decide (Entry.status p ∈ summary_keys) then Entry.status p
  else "no-state".

Lemma counted_as_key (p : ManifestEntry) : counted_as p ∈ summary_keys.
Proof.
  unfold counted_as. case_bool_decide; [done|].
  apply (bool_decide_unpack _). vm_compute. exact I.
Qed.

Lemma count_plans_lookup (entries : list ManifestEntry)
    (counts : gmap string Z) (k : string) :
  (∀ key, is_Some (counts !! key) ↔ key ∈ summary_keys) →
  foldl count_plan counts entries !! k
  = (λ n, n + Z.of_nat (length (filter (λ p, counted_as p = k) entries)))
    <$> counts !! k.
Proof.
  revert counts. induction entries as [|p rest IH]; intros counts Hkeys.
  { simpl. destruct (counts !! k); simpl; [f_equal; lia|done]. }
  assert (count_plan counts p = alter (λ n, n + 1) (counted_as p) counts)
    as Hstep.
  { unfold count_plan, counted_as.
    destruct (decide (Entry.status p ∈ summary_keys)) as [Hin|Hout].
    - rewrite (bool_decide_eq_true_2 _ Hin).
      by rewrite bool_decide_eq_true_2 by by apply Hkeys.
    - rewrite (bool_decide_eq_false_2 _ Hout).
      by rewrite bool_decide_eq_false_2 by by rewrite Hkeys. }
  cbn [foldl]. rewrite Hstep, IH; cycle 1.
  { intros key. rewrite <- Hkeys.
    destruct (decide (key = counted_as p)) as [->|Hne].
    - rewrite lookup_alter_eq. by rewrite fmap_is_Some.
    - by rewrite lookup_alter_ne. }
  rewrite filter_cons.
  destruct (decide (counted_as p = k)) as [<-|Hne].
  - rewrite lookup_alter_eq. destruct (counts !! counted_as p); [|done].
    simpl. f_equal. lia.
  - by rewrite lookup_alter_ne.
Qed.

Lemma valid_status_cases (st : string) :
  st ∈ VALID_STATUSES
  ↔ st = "pending" ∨ st = "executing" ∨ st = "blocked" ∨ st = "verified"
    ∨ st = "failed".
Proof.
  unfold VALID_STATUSES. rewrite !elem_of_union, !elem_of_singleton. tauto.
Qed.

Lemma summary_key_cases (key : string) :
  key ∈ summary_keys ↔ key ∈ VALID_STATUSES ∨ key = "no-state" ∨ key = "total".
Proof.
  rewrite valid_status_cases. unfold summary_keys.
  rewrite !elem_of_cons, elem_of_nil. tauto.
Qed.

Lemma valid_status_key (st : string) :
  st ∈ VALID_STATUSES →
  st ∈ summary_keys ∧ st ≠ "no-state" ∧ st ≠ "total".
Proof.
  intros Hst. split; [apply summary_key_cases; by left|].
  apply valid_status_cases in Hst.
  destruct Hst as [->|[->|[->|[->| ->]]]]; by split.
Qed.

Lemma summary_keys_initial (total : Z) (key : string) :
  is_Some ((<[ "total" := total ]>
              (<[ "no-state" := 0 ]> (gset_to_gmap 0 VALID_STATUSES))
            : gmap string Z) !! key)
  ↔ key ∈ summary_keys.
Proof.
  rewrite !lookup_insert_is_Some'.
  assert (is_Some ((gset_to_gmap 0 VALID_STATUSES : gmap string Z) !! key)
          ↔ key ∈ VALID_STATUSES) as ->.
  { unfold is_Some. setoid_rewrite lookup_gset_to_gmap_Some. naive_solver. }
  rewrite summary_key_cases. naive_solver.
Qed.

Lemma counted_as_status (p : ManifestEntry) (key : string) :
  key ∈ summary_keys → key ≠ "no-state" →
  (counted_as p = key ↔ Entry.status p = key).
Proof.
  intros Hkey Hne. unfold counted_as. case_bool_decide as Hin.
  - done.
  - split; [done|]. intros Hst. by rewrite Hst in Hin.
Qed.

Lemma counted_as_no_state (p : ManifestEntry) :
  counted_as p = "no-state"
  ↔ (Entry.status p ∉ VALID_STATUSES) ∧ Entry.status p ≠ "total".
Proof.
  unfold counted_as.
  destruct (decide (Entry.status p ∈ summary_keys)) as [Hin|Hout].
  - rewrite (bool_decide_eq_true_2 _ Hin).
    apply summary_key_cases in Hin as [Hvalid|[Hnone|Htotal]].
    + pose proof (valid_status_key _ Hvalid) as (_ & Hne & _). naive_solver.
    + split; [|done]. intros _. rewrite Hnone. split; [|done].
      intros (_ & Hne & _)%valid_status_key. done.
    + rewrite Htotal. split; [done|]. by intros [_ Hne].
  - rewrite (bool_decide_eq_false_2 _ Hout). split; [|done]. intros _.
    rewrite summary_key_cases in Hout. naive_solver.
Qed.

(** A list splits into the plans of each counter. *)
Lemma counters_partition (entries : list ManifestEntry) :
  Z.of_nat (length entries)
  = foldr (λ key sum,
             Z.of_nat (length (filter (λ p, counted_as p = key) entries))
             + sum)
          0 summary_keys.
Proof.
  induction entries as [|p rest IH]; [done|].
  pose proof (counted_as_key p) as Hkey.
  cbn [length foldr summary_keys] in IH |- *. rewrite !filter_cons.
  rewrite Nat2Z.inj_succ, IH.
  unfold summary_keys in Hkey.
  repeat (apply elem_of_cons in Hkey as [Hkey|Hkey];
          [rewrite Hkey;
           repeat (first [rewrite decide_True by done
                         |rewrite decide_False by done]);
           cbn [length]; lia|]).
  by apply elem_of_nil in Hkey.
Qed.

(** X18.  [compute_summary] counts under each of the five statuses the
    plans the manifest records with it, and under "no-state" the plans
    recorded with anything else; "total" is the number of plans.  The six
    counters add up to the total.  One status is not anything else: a plan
    recorded as "total" is counted on top of the total, and on no other
    counter. *)
Theorem compute_summary_counts (m : Manifest) :
  let counts := compute_summary m in
  (∀ st, st ∈ VALID_STATUSES →
         counts !! st = Some (with_status st (plans m)))
  ∧ counts !! "no-state"
    = Some (Z.of_nat
              (length (filter (λ p, (Entry.status p ∉ VALID_STATUSES)
                                    ∧ Entry.status p ≠ "total")
                              (plans m))))
  ∧ counts !! "total"
    = Some (Z.of_nat (length (plans m)) + with_status "total" (plans m))
  ∧ (∀ key, is_Some (counts !! key) ↔ key ∈ summary_keys)
  ∧ (with_status "total" (plans m) = 0 →
     ∃ pending executing blocked verified failed no_state,
       counts !! "pending" = Some pending
       ∧ counts !! "executing" = Some executing
       ∧ counts !! "blocked" = Some blocked
       ∧ counts !! "verified" = Some verified
       ∧ counts !! "failed" = Some failed
       ∧ counts !! "no-state" = Some no_state
       ∧ counts !! "total"
         = Some (pending + executing + blocked + verified + failed + no_state)).
Proof.
  intros counts.
  assert (∀ key,
            counts !! key
            = (λ n, n + Z.of_nat (length (filter (λ p, counted_as p = key)
                                                 (plans m))))
              <$> (<[ "total" := Z.of_nat (length (plans m)) ]>
                     (<[ "no-state" := 0 ]>
                        (gset_to_gmap 0 VALID_STATUSES)) : gmap string Z)
                  !! key) as Hcounts.
  { intros key. apply count_plans_lookup. apply summary_keys_initial. }
  assert (∀ st, st ∈ summary_keys → st ≠ "no-state" →
            Z.of_nat (length (filter (λ p, counted_as p = st) (plans m)))
            = with_status st (plans m)) as Hstatus.
  { intros st Hin Hne. unfold with_status. do 2 f_equal.
    apply list_filter_iff. intros p. by apply counted_as_status. }
  assert (Z.of_nat (length (filter (λ p, counted_as p = "no-state") (plans m)))
          = Z.of_nat
              (length (filter (λ p, (Entry.status p ∉ VALID_STATUSES)
                                    ∧ Entry.status p ≠ "total") (plans m))))
    as Hother.
  { do 2 f_equal. apply list_filter_iff. intros p. apply counted_as_no_state. }
  assert (∀ st, st ∈ VALID_STATUSES →
            counts !! st = Some (with_status st (plans m))) as Hvalid.
  { intros st Hst. rewrite Hcounts.
    destruct (valid_status_key _ Hst) as (Hkey & Hne & Hnt).
    rewrite !lookup_insert_ne by done.
    rewrite (proj2 (lookup_gset_to_gmap_Some 0 VALID_STATUSES st 0));
      [|done].
    simpl. f_equal. rewrite Hstatus by done. lia. }
  assert (counts !! "no-state"
          = Some (Z.of_nat
                    (length (filter (λ p, (Entry.status p ∉ VALID_STATUSES)
                                          ∧ Entry.status p ≠ "total")
                                    (plans m))))) as Hnone.
  { rewrite Hcounts, lookup_insert_ne by done. rewrite lookup_insert_eq.
    simpl. f_equal. rewrite Hother. lia. }
  assert (counts !! "total"
          = Some (Z.of_nat (length (plans m)) + with_status "total" (plans m)))
    as Htotal.
  { rewrite Hcounts, lookup_insert_eq. simpl. f_equal.
    rewrite Hstatus; [done| |done].
    apply (bool_decide_unpack _). vm_compute. exact I. }
  split_and!; [exact Hvalid|exact Hnone|exact Htotal| |].
  - intros key. rewrite Hcounts, fmap_is_Some. apply summary_keys_initial.
  - intros Hno_total. eexists _, _, _, _, _, _.
    split_and!; [apply Hvalid, valid_status_cases; tauto..|exact Hnone|].
    rewrite Htotal, Hno_total. f_equal.
    rewrite (counters_partition (plans m)). cbn [foldr summary_keys].
    rewrite (Hstatus "pending"), (Hstatus "executing"), (Hstatus "blocked"),
      (Hstatus "verified"), (Hstatus "failed"), (Hstatus "total"), Hother,
      Hno_total
      by first [done|apply (bool_decide_unpack _); vm_compute; exact I].
    lia.
Qed.

Lemma compute_summary_counts_witness :
  let m := Fixture.manifest_of
             [ Fixture.entry "a" 1 1 "verified" [];
               Fixture.entry "b" 1 2 "pending" [];
               Fixture.entry "c" 1 3 "archived" [];
               Fixture.entry "d" 2 1 "pending" [] ] in
  compute_summary m !! "pending" = Some 2
  ∧ compute_summary m !! "no-state" = Some 1
  ∧ compute_summary m !! "total" = Some 4.
Proof.
  intros m.
  destruct (compute_summary_counts m) as (Hvalid & Hnone & Htotal & _).
  rewrite Hvalid, Hnone, Htotal.
  - split_and!; vm_compute; reflexivity.
  - apply valid_status_cases. by left.
Defined.

(* ===================================================================== *)
(** * The rollback command *)
(* ===================================================================== *)

(** X19.  [_validate_argv] accepts exactly the non-empty lists of strings
    none of which is empty or blank, and returns the strings as they are. *)
Theorem validate_argv_accepts (value : JValue) (argv : list string) :
  Adapter._validate_argv value = inr argv
  ↔ value = JList (JStr <$> argv)
    ∧ argv ≠ []
    ∧ Forall (λ s, str_strip s ≠ "") argv.
Proof.
  assert (∀ items strings,
            mapM (λ item,
                    match item with
                    | JStr s =>
                        if String.eqb (str_strip s) ""
                        then inl (ValueError
                                    "Rollback argv values must be non-empty strings")
                        else inr s
                    | _ => inl (ValueError
                                  "Rollback argv values must be non-empty strings")
                    end) items = inr strings
            ↔ items = JStr <$> strings
              ∧ Forall (λ s, str_strip s ≠ "") strings) as Hitems.
  { induction items as [|item items IH]; intros strings.
    - simpl. split.
      + intros [= <-]. by split.
      + intros [Hnil _]. by destruct strings.
    - cbn [mapM]. split.
      + destruct item as [| | |s| |]; try done.
        destruct (String.eqb_spec (str_strip s) ""); [done|]. simpl.
        destruct (mapM _ items) as [e|rest] eqn:Hrest; [done|].
        simpl. intros [= <-].
        destruct (proj1 (IH rest) eq_refl) as [-> Hall].
        split; [done|]. by constructor.
      + intros [Heq Hall]. destruct strings as [|s strings]; [done|].
        injection Heq as -> ->. apply Forall_cons in Hall as [Hs Hall].
        destruct (String.eqb_spec (str_strip s) ""); [done|]. simpl.
        by rewrite (proj2 (IH strings) (conj eq_refl Hall)). }
  unfold Adapter._validate_argv. split.
  - destruct value as [| | | |[|first more]|]; try done.
    intros (Heq & Hall)%Hitems. destruct argv as [|s argv]; [done|].
    split_and!; [by rewrite Heq|done|done].
  - intros (-> & Hne & Hall). destruct argv as [|s argv]; [done|].
    rewrite fmap_cons. apply Hitems. by rewrite fmap_cons.
Qed.

Lemma str_split_cons (sep : ascii) (s : string) :
  ∃ w ws, str_split sep s = w :: ws.
Proof.
  destruct s as [|c s]; simpl; [by eexists _, _|].
  destruct (Ascii.eqb c sep); [by eexists _, _|].
  destruct (str_split sep s); by eexists _, _.
Qed.

Lemma str_split_app (sep : ascii) (a b : string) :
  str_split sep (a +:+ String sep b) = str_split sep a ++ str_split sep b.
Proof.
  induction a as [|c a IH]; simpl.
  - by rewrite Ascii.eqb_refl.
  - destruct (Ascii.eqb c sep); [by rewrite IH|].
    rewrite IH. by destruct (str_split_cons sep a) as (w & ws & ->).
Qed.

Lemma str_split_whole (sep : ascii) (s : string) :
  sep ∉ list_ascii_of_string s → str_split sep s = [s].
Proof.
  induction s as [|c s IH]; simpl; [done|].
  rewrite not_elem_of_cons. intros [Hne Hrest].
  destruct (Ascii.eqb_spec c sep); [congruence|].
  by rewrite IH.
Qed.

Lemma str_split_words (sep : ascii) (s w : string) :
  w ∈ str_split sep s → sep ∉ list_ascii_of_string w.
Proof.
  revert w. induction s as [|c s IH]; intros w; simpl.
  - intros ->%list_elem_of_singleton. apply not_elem_of_nil.
  - destruct (Ascii.eqb_spec c sep) as [->|Hne].
    + intros [->|Hin]%elem_of_cons; [apply not_elem_of_nil|by apply IH].
    + destruct (str_split_cons sep s) as (w0 & ws & Hsplit).
      rewrite Hsplit in IH |- *.
      intros [->|Hin]%elem_of_cons.
      * simpl. rewrite not_elem_of_cons. split; [done|].
        apply IH, list_elem_of_here.
      * by apply IH, list_elem_of_further.
Qed.

(** The last component of a path is the whole of a name without a slash
    that a directory is put in front of. *)
Lemma path_name_in_directory (dir name : string) :
  "/"%char ∉ list_ascii_of_string name →
  name ≠ "" → name ≠ "." →
  path_name (dir +:+ "/" +:+ name) = name ∧ path_name name = name.
Proof.
  intros Hslash Hempty Hdot. unfold path_name.
  change (dir +:+ "/" +:+ name) with (dir +:+ String "/" name).
  rewrite str_split_app, (str_split_whole _ _ Hslash), filter_app.
  rewrite filter_cons, decide_True by done.
  rewrite filter_nil, last_snoc. done.
Qed.

Lemma path_name_no_slash (command : string) :
  "/"%char ∉ list_ascii_of_string (path_name command).
Proof.
  unfold path_name.
  destruct (last (filter _ (str_split "/" command))) as [w|] eqn:Hlast;
    [|apply not_elem_of_nil].
  simpl. apply last_Some_elem_of in Hlast.
  apply list_elem_of_filter in Hlast as [_ Hin].
  by eapply str_split_words.
Qed.

(** X20.  The allowlist goes by the last component of the command alone: a
    listed name is accepted from whatever directory it is called, and an
    entry of the list that holds a slash, or is a lone dot, lets no command
    through. *)
Theorem allowlist_by_last_component (env : option string)
    (dir name : string) :
  name ∈ Adapter._rollback_allowlist env →
  ("/"%char ∉ list_ascii_of_string name → name ≠ "" → name ≠ "." →
   Adapter._enforce_rollback_allowlist env (dir +:+ "/" +:+ name) = inr ()
   ∧ Adapter._enforce_rollback_allowlist env name = inr ())
  ∧ ("/"%char ∈ list_ascii_of_string name ∨ name = "." →
     ∀ command, path_name command ≠ name).
Proof.
  intros Hlisted. split.
  - intros Hslash Hempty Hdot.
    destruct (path_name_in_directory dir name Hslash Hempty Hdot)
      as [Hdir Hname].
    unfold Adapter._enforce_rollback_allowlist.
    rewrite Hdir, Hname. by rewrite bool_decide_eq_false_2 by by intros ?.
  - intros [Hslash| ->] command Hname.
    + rewrite <- Hname in Hslash. by apply path_name_no_slash in Hslash.
    + unfold path_name in Hname.
      destruct (last (filter _ (str_split "/" command))) as [w|] eqn:Hlast;
        [|done].
      simpl in Hname. subst w. apply last_Some_elem_of in Hlast.
      apply list_elem_of_filter in Hlast as [[_ Hdot] _]. done.
Qed.

Lemma allowlist_by_last_component_witness :
  Adapter._enforce_rollback_allowlist None "/tmp/unpacked/bin/git" = inr ()
  ∧ Adapter._enforce_rollback_allowlist (Some "make, /usr/bin/git")
      "/usr/bin/git"
    = inl (ValueError
             "Rollback command 'git' is not in allowlist: ['/usr/bin/git', 'make']").
Proof.
  split.
  - destruct (allowlist_by_last_component None "/tmp/unpacked/bin" "git")
      as [Haccepted _].
    + apply (bool_decide_unpack _). vm_compute. exact I.
    + apply Haccepted; [|discriminate..].
      apply (bool_decide_unpack _). vm_compute. exact I.
  - vm_compute. reflexivity.
Defined.

Lemma validate_argv_accepts_witness :
  Adapter._validate_argv (JList [JStr "git"; JStr "reset"; JStr "--hard"])
  = inr ["git"; "reset"; "--hard"]
  ∧ Adapter._validate_argv (JList [JStr "git"; JStr "  "])
    = inl (ValueError "Rollback argv values must be non-empty strings").
Proof.
  split; [|reflexivity].
  apply validate_argv_accepts. split_and!; [reflexivity|discriminate|].
  apply (bool_decide_unpack _). vm_compute. exact I.
Defined.
